(** * Bombman: the game simulation core of [src/bombman.py]

    A shallow embedding of the map model, the bomb and flame subsystem, the
    danger map and the player input reaction, followed by the properties
    proved about them.

    Conventions of the embedding.
    - Python [int] is [Z].  Python [float] coordinates are exact rationals
      [Q]; on the tile-centre positions [n + 1/2] used by stationary bombs
      the two agree exactly.
    - Python objects that are shared by reference are kept in stores owned
      by the map: a [Bomb] reference is an index into [bomb_heap], a
      [Player] reference an index into [players].  A tile object is reached
      through the grid only, so it is identified by its grid position.
    - A raised Python exception is the [Raise] result of the [py] monad.
    - The sound and animation queues are write-only for the simulation and
      are left out. *)

From Stdlib Require Import ZArith QArith Qround Lia Bool String Ascii.
From stdpp Require Import base list.

Local Open Scope Z_scope.

(** ** Python results and list indexing *)

Inductive exn : Set := IndexError | AttributeError | OutOfFuel.

Inductive py (A : Type) : Type :=
| Ok (a : A)
| Raise (e : exn).
Arguments Ok {A} a.
Arguments Raise {A} e.

#[global] Instance py_ret : MRet py := fun A a => Ok a.
#[global] Instance py_bind : MBind py := fun A B f c =>
  match c with
  | Ok a => f a
  | Raise e => Raise e
  end.

Definition is_ok {A} (c : py A) : bool :=
  match c with Ok _ => true | Raise _ => false end.

(** [l[i]] in Python: a negative index counts from the end, anything outside
    [-len, len) raises IndexError. *)
Definition py_index (len : nat) (i : Z) : py nat :=
  if (0 <=? i) && (i <? Z.of_nat len) then Ok (Z.to_nat i)
  else if (- Z.of_nat len <=? i) && (i <? 0) then Ok (Z.to_nat (Z.of_nat len + i))
  else Raise IndexError.

Definition py_get {A} (l : list A) (i : Z) : py A :=
  k ← py_index (length l) i;
  match l !! k with
  | Some x => Ok x
  | None => Raise IndexError
  end.

Definition py_set {A} (l : list A) (i : Z) (x : A) : py (list A) :=
  k ← py_index (length l) i;
  Ok (<[k := x]> l).

(** ** Coordinate and Position *)

Record Position : Set := mkPosition { pos_col : Z; pos_row : Z }.
Record Coordinate : Set := mkCoordinate { co_col : Q; co_row : Q }.

#[global] Instance Position_eq_dec : EqDecision Position.
Proof. solve_decision. Defined.

Definition position_add (a b : Position) : Position :=
  mkPosition (pos_col a + pos_col b) (pos_row a + pos_row b).
Definition position_sub_int (a : Position) (k : Z) : Position :=
  mkPosition (pos_col a - k) (pos_row a - k).
Definition position_mul_int (a : Position) (k : Z) : Position :=
  mkPosition (pos_col a * k) (pos_row a * k).
(** [Position.__eq__], [__ge__] and [__le__]: component-wise. *)
Definition position_eqb (a b : Position) : bool :=
  (pos_col a =? pos_col b) && (pos_row a =? pos_row b).
Definition position_ge (a b : Position) : bool :=
  (pos_col a >=? pos_col b) && (pos_row a >=? pos_row b).
Definition position_le (a b : Position) : bool :=
  (pos_col a <=? pos_col b) && (pos_row a <=? pos_row b).

Definition coordinate_add (a b : Coordinate) : Coordinate :=
  mkCoordinate (co_col a + co_col b)%Q (co_row a + co_row b)%Q.
Definition coordinate_sub (a b : Coordinate) : Coordinate :=
  mkCoordinate (co_col a - co_col b)%Q (co_row a - co_row b)%Q.

(** [x % 1] on a float. *)
Definition frac (x : Q) : Q := (x - inject_Z (Qfloor x))%Q.
Definition half : Q := (1 # 2)%Q.

(** [Positionable.position_to_tile]. *)
Definition position_to_tile (c : Coordinate) : Position :=
  mkPosition (Qfloor (co_col c)) (Qfloor (co_row c)).

(** A [Position] used where a coordinate is expected, as in the source's
    [Coordinate] built from the tuple of a [Position]. *)
Definition coordinate_of_position (p : Position) : Coordinate :=
  mkCoordinate (inject_Z (pos_col p)) (inject_Z (pos_row p)).

(** [Positionable.move_to_tile_center], as a function of the position. *)
Definition tile_center (c : Coordinate) : Coordinate :=
  mkCoordinate (inject_Z (Qfloor (co_col c)) + half)%Q
               (inject_Z (Qfloor (co_row c)) + half)%Q.

(** [Positionable.is_near_tile_center]: limit 0.2, limit2 = 1.0 - 0.2. *)
Definition near_tile_center (c : Coordinate) : bool :=
  let limit := (2 # 10)%Q in
  let limit2 := (1 - limit)%Q in
  let fx := frac (co_col c) in
  let fy := frac (co_row c) in
  (if Qlt_le_dec limit fx then true else false)
  && (if Qlt_le_dec fx limit2 then true else false)
  && (if Qlt_le_dec limit fy then true else false)
  && (if Qlt_le_dec fy limit2 then true else false).

(** ** Tiles, flames, bombs, players *)

Inductive TileKind : Set := TILE_FLOOR | TILE_BLOCK | TILE_WALL.

Inductive SpecialObject : Set :=
| SPECIAL_OBJECT_TRAMPOLINE
| SPECIAL_OBJECT_TELEPORT_A
| SPECIAL_OBJECT_TELEPORT_B
| SPECIAL_OBJECT_ARROW_UP
| SPECIAL_OBJECT_ARROW_RIGHT
| SPECIAL_OBJECT_ARROW_DOWN
| SPECIAL_OBJECT_ARROW_LEFT
| SPECIAL_OBJECT_LAVA.

#[global] Instance TileKind_eq_dec : EqDecision TileKind.
Proof. solve_decision. Defined.
#[global] Instance SpecialObject_eq_dec : EqDecision SpecialObject.
Proof. solve_decision. Defined.

(** The [direction] string of a flame. *)
Inductive FlameDirection : Set :=
| dir_all | dir_horizontal | dir_vertical | dir_up | dir_right | dir_down | dir_left.

Record Flame : Set := mkFlame {
  flame_player : nat;          (* reference to the owner of the bomb *)
  time_to_burnout : Z;
  flame_direction : FlameDirection
}.

Record MapTile : Set := mkMapTile {
  kind : TileKind;
  flames : list Flame;
  coordinates : Position;
  to_be_destroyed : bool;
  item : option Z;
  special_object : option SpecialObject;
  destination_teleport : option Position
}.

(** [MapTile.__init__]. *)
Definition new_tile (p : Position) : MapTile :=
  mkMapTile TILE_FLOOR [] p false None None None.

(** [MapTile.should_not_walk]. *)
Definition should_not_walk (t : MapTile) : bool :=
  bool_decide (kind t = TILE_WALL ∨ kind t = TILE_BLOCK)
  || (1 <=? Z.of_nat (length (flames t)))
  || bool_decide (special_object t = Some SPECIAL_OBJECT_LAVA).

Inductive BombMovement : Set :=
| BOMB_ROLLING_UP | BOMB_ROLLING_RIGHT | BOMB_ROLLING_DOWN | BOMB_ROLLING_LEFT
| BOMB_FLYING | BOMB_NO_MOVEMENT.

#[global] Instance BombMovement_eq_dec : EqDecision BombMovement.
Proof. solve_decision. Defined.

Record BombFlightInfo : Set := mkFlightInfo {
  total_distance_to_travel : Z;
  distance_travelled : Q;
  flight_direction : Position
}.

Record Bomb : Set := mkBomb {
  bomb_position : Coordinate;
  time_of_existence : Z;
  bomb_flame_length : Z;
  bomb_player : nat;           (* reference to the owning player *)
  explodes_in : Z;
  detonator_time : Z;
  bomb_has_spring : bool;
  movement : BombMovement;
  has_exploded : bool;
  flight_info : BombFlightInfo
}.

Definition BOMB_EXPLODES_IN : Z := 3000.
Definition EXPLODES_IN_QUICK : Z := 800.
Definition DETONATOR_EXPIRATION_TIME : Z := 20000.
Definition ROLLING_SPEED : Q := 4%Q.
Definition FLYING_SPEED : Q := 5%Q.

Inductive PlayerState : Set :=
| STATE_IDLE_UP | STATE_IDLE_RIGHT | STATE_IDLE_DOWN | STATE_IDLE_LEFT
| STATE_WALKING_UP | STATE_WALKING_RIGHT | STATE_WALKING_DOWN | STATE_WALKING_LEFT
| STATE_IN_AIR | STATE_TELEPORTING | STATE_DEAD.

#[global] Instance PlayerState_eq_dec : EqDecision PlayerState.
Proof. solve_decision. Defined.

Inductive Disease : Set :=
| DISEASE_NONE | DISEASE_DIARRHEA | DISEASE_SLOW | DISEASE_REVERSE_CONTROLS
| DISEASE_SHORT_FLAME | DISEASE_SWITCH_PLAYERS | DISEASE_FAST_BOMB
| DISEASE_NO_BOMB | DISEASE_EARTHQUAKE.

#[global] Instance Disease_eq_dec : EqDecision Disease.
Proof. solve_decision. Defined.

Record Player : Set := mkPlayer {
  player_position : Coordinate;
  number : Z;
  team_number : Z;
  state : PlayerState;
  state_time : Z;
  speed : Q;
  bombs_left : Z;
  flame_length : Z;
  has_spring : bool;
  has_shoe : bool;
  disease_time_left : Z;
  disease : Disease;
  has_multibomb : bool;
  has_boxing_glove : bool;
  has_throwing_glove : bool;
  boxing : bool;
  detonator_bombs_left : Z;
  detonator_bombs : list nat;  (* references to bombs, pushed at the end *)
  wait_for_special_release : bool;
  wait_for_bomb_release : bool;
  throwing_time_left : Z;
  state_backup : PlayerState;
  jumping_to : option Position;
  teleporting_to : option Position;
  wait_for_tile_transition : bool;
  info_board_update_needed : bool;
  putting_bomb : bool;
  putting_multibomb : bool;
  throwing : bool
}.

Definition INITIAL_SPEED : Q := 3%Q.
Definition SLOW_SPEED : Q := (3 # 2)%Q.
Definition JUMP_DURATION : Z := 2000.
Definition TELEPORT_DURATION : Z := 1500.

(** ** The map *)

Inductive MapState : Set :=
| STATE_WAITING_TO_PLAY | STATE_PLAYING | STATE_FINISHING | STATE_GAME_OVER.

#[global] Instance MapState_eq_dec : EqDecision MapState.
Proof. solve_decision. Defined.

Record GameMap : Type := mkGameMap {
  tiles : list (list MapTile);
  bombs : list nat;            (* [self.bombs]: references into [bomb_heap] *)
  bomb_heap : list Bomb;       (* every Bomb object created so far *)
  players : list Player;
  danger_map : list (list Z);
  danger_map_is_up_to_date : bool;
  number_of_blocks : Z;
  map_state : MapState;
  time_from_start : Z
}.

Definition MAP_SIZE : Position := mkPosition 15 11.
Definition SAFE_DANGER_VALUE : Z := 5000.

Definition default_flight_info : BombFlightInfo :=
  mkFlightInfo 0 0%Q (mkPosition 0 0).
#[global] Instance Bomb_inhabited : Inhabited Bomb :=
  populate (mkBomb (mkCoordinate 0%Q 0%Q) 0 0 0%nat BOMB_EXPLODES_IN 0 false
                   BOMB_NO_MOVEMENT false default_flight_info).
#[global] Instance Player_inhabited : Inhabited Player :=
  populate (mkPlayer (mkCoordinate 0%Q 0%Q) 0 0 STATE_IDLE_DOWN 0 INITIAL_SPEED 1 1
                     false false 0 DISEASE_NONE false false false false 0 []
                     false false 0 STATE_IDLE_UP None None false true
                     false false false).

(** Dereferencing a bomb or player reference. *)
Definition bomb_at (m : GameMap) (b : nat) : Bomb := bomb_heap m !!! b.
Definition player_at (m : GameMap) (p : nat) : Player := players m !!! p.

Definition set_tiles (m : GameMap) (ts : list (list MapTile)) : GameMap :=
  mkGameMap ts (bombs m) (bomb_heap m) (players m) (danger_map m)
            (danger_map_is_up_to_date m) (number_of_blocks m) (map_state m)
            (time_from_start m).
Definition set_bombs (m : GameMap) (bs : list nat) : GameMap :=
  mkGameMap (tiles m) bs (bomb_heap m) (players m) (danger_map m)
            (danger_map_is_up_to_date m) (number_of_blocks m) (map_state m)
            (time_from_start m).
Definition set_bomb_heap (m : GameMap) (h : list Bomb) : GameMap :=
  mkGameMap (tiles m) (bombs m) h (players m) (danger_map m)
            (danger_map_is_up_to_date m) (number_of_blocks m) (map_state m)
            (time_from_start m).
Definition set_players (m : GameMap) (ps : list Player) : GameMap :=
  mkGameMap (tiles m) (bombs m) (bomb_heap m) ps (danger_map m)
            (danger_map_is_up_to_date m) (number_of_blocks m) (map_state m)
            (time_from_start m).
Definition set_danger_map (m : GameMap) (d : list (list Z)) : GameMap :=
  mkGameMap (tiles m) (bombs m) (bomb_heap m) (players m) d
            (danger_map_is_up_to_date m) (number_of_blocks m) (map_state m)
            (time_from_start m).
Definition set_danger_map_is_up_to_date (m : GameMap) (b : bool) : GameMap :=
  mkGameMap (tiles m) (bombs m) (bomb_heap m) (players m) (danger_map m)
            b (number_of_blocks m) (map_state m) (time_from_start m).
Definition set_number_of_blocks (m : GameMap) (n : Z) : GameMap :=
  mkGameMap (tiles m) (bombs m) (bomb_heap m) (players m) (danger_map m)
            (danger_map_is_up_to_date m) n (map_state m) (time_from_start m).

(** Mutating the bomb or player object behind a reference. *)
Definition update_bomb (m : GameMap) (b : nat) (f : Bomb → Bomb) : GameMap :=
  set_bomb_heap m (alter f b (bomb_heap m)).
Definition update_player (m : GameMap) (p : nat) (f : Player → Player) : GameMap :=
  set_players m (alter f p (players m)).

(** *** Field updates

    [set_x v r] is the record [r] after the assignment [r.x = v]. *)

Definition set_time_to_burnout (v : Z) (f : Flame) : Flame :=
  mkFlame (flame_player f) v (flame_direction f).
Definition set_flame_direction (v : FlameDirection) (f : Flame) : Flame :=
  mkFlame (flame_player f) (time_to_burnout f) v.

Definition set_kind (v : TileKind) (t : MapTile) : MapTile :=
  mkMapTile v (flames t) (coordinates t) (to_be_destroyed t) (item t)
    (special_object t) (destination_teleport t).
Definition set_flames (v : list Flame) (t : MapTile) : MapTile :=
  mkMapTile (kind t) v (coordinates t) (to_be_destroyed t) (item t)
    (special_object t) (destination_teleport t).
Definition set_to_be_destroyed (v : bool) (t : MapTile) : MapTile :=
  mkMapTile (kind t) (flames t) (coordinates t) v (item t)
    (special_object t) (destination_teleport t).
Definition set_item (v : option Z) (t : MapTile) : MapTile :=
  mkMapTile (kind t) (flames t) (coordinates t) (to_be_destroyed t) v
    (special_object t) (destination_teleport t).
Definition set_special_object (v : option SpecialObject) (t : MapTile) : MapTile :=
  mkMapTile (kind t) (flames t) (coordinates t) (to_be_destroyed t) (item t)
    v (destination_teleport t).
Definition set_destination_teleport (v : option Position) (t : MapTile) : MapTile :=
  mkMapTile (kind t) (flames t) (coordinates t) (to_be_destroyed t) (item t)
    (special_object t) v.

Definition set_total_distance_to_travel (v : Z) (i : BombFlightInfo) : BombFlightInfo :=
  mkFlightInfo v (distance_travelled i) (flight_direction i).
Definition set_distance_travelled (v : Q) (i : BombFlightInfo) : BombFlightInfo :=
  mkFlightInfo (total_distance_to_travel i) v (flight_direction i).
Definition set_flight_direction (v : Position) (i : BombFlightInfo) : BombFlightInfo :=
  mkFlightInfo (total_distance_to_travel i) (distance_travelled i) v.

Definition set_bomb_position (v : Coordinate) (b : Bomb) : Bomb :=
  mkBomb v (time_of_existence b) (bomb_flame_length b) (bomb_player b)
    (explodes_in b) (detonator_time b) (bomb_has_spring b) (movement b)
    (has_exploded b) (flight_info b).
Definition set_time_of_existence (v : Z) (b : Bomb) : Bomb :=
  mkBomb (bomb_position b) v (bomb_flame_length b) (bomb_player b)
    (explodes_in b) (detonator_time b) (bomb_has_spring b) (movement b)
    (has_exploded b) (flight_info b).
Definition set_bomb_flame_length (v : Z) (b : Bomb) : Bomb :=
  mkBomb (bomb_position b) (time_of_existence b) v (bomb_player b)
    (explodes_in b) (detonator_time b) (bomb_has_spring b) (movement b)
    (has_exploded b) (flight_info b).
Definition set_explodes_in (v : Z) (b : Bomb) : Bomb :=
  mkBomb (bomb_position b) (time_of_existence b) (bomb_flame_length b)
    (bomb_player b) v (detonator_time b) (bomb_has_spring b) (movement b)
    (has_exploded b) (flight_info b).
Definition set_detonator_time (v : Z) (b : Bomb) : Bomb :=
  mkBomb (bomb_position b) (time_of_existence b) (bomb_flame_length b)
    (bomb_player b) (explodes_in b) v (bomb_has_spring b) (movement b)
    (has_exploded b) (flight_info b).
Definition set_movement (v : BombMovement) (b : Bomb) : Bomb :=
  mkBomb (bomb_position b) (time_of_existence b) (bomb_flame_length b)
    (bomb_player b) (explodes_in b) (detonator_time b) (bomb_has_spring b) v
    (has_exploded b) (flight_info b).
Definition set_has_exploded (v : bool) (b : Bomb) : Bomb :=
  mkBomb (bomb_position b) (time_of_existence b) (bomb_flame_length b)
    (bomb_player b) (explodes_in b) (detonator_time b) (bomb_has_spring b)
    (movement b) v (flight_info b).
Definition set_flight_info (v : BombFlightInfo) (b : Bomb) : Bomb :=
  mkBomb (bomb_position b) (time_of_existence b) (bomb_flame_length b)
    (bomb_player b) (explodes_in b) (detonator_time b) (bomb_has_spring b)
    (movement b) (has_exploded b) v.

Definition set_player_position (v : Coordinate) (p : Player) : Player :=
  mkPlayer v (number p) (team_number p) (state p) (state_time p) (speed p)
    (bombs_left p) (flame_length p) (has_spring p) (has_shoe p)
    (disease_time_left p) (disease p) (has_multibomb p) (has_boxing_glove p)
    (has_throwing_glove p) (boxing p) (detonator_bombs_left p)
    (detonator_bombs p) (wait_for_special_release p)
    (wait_for_bomb_release p) (throwing_time_left p) (state_backup p)
    (jumping_to p) (teleporting_to p) (wait_for_tile_transition p)
    (info_board_update_needed p) (putting_bomb p) (putting_multibomb p)
    (throwing p).
Definition set_state (v : PlayerState) (p : Player) : Player :=
  mkPlayer (player_position p) (number p) (team_number p) v (state_time p)
    (speed p) (bombs_left p) (flame_length p) (has_spring p) (has_shoe p)
    (disease_time_left p) (disease p) (has_multibomb p) (has_boxing_glove p)
    (has_throwing_glove p) (boxing p) (detonator_bombs_left p)
    (detonator_bombs p) (wait_for_special_release p)
    (wait_for_bomb_release p) (throwing_time_left p) (state_backup p)
    (jumping_to p) (teleporting_to p) (wait_for_tile_transition p)
    (info_board_update_needed p) (putting_bomb p) (putting_multibomb p)
    (throwing p).
Definition set_state_time (v : Z) (p : Player) : Player :=
  mkPlayer (player_position p) (number p) (team_number p) (state p) v
    (speed p) (bombs_left p) (flame_length p) (has_spring p) (has_shoe p)
    (disease_time_left p) (disease p) (has_multibomb p) (has_boxing_glove p)
    (has_throwing_glove p) (boxing p) (detonator_bombs_left p)
    (detonator_bombs p) (wait_for_special_release p)
    (wait_for_bomb_release p) (throwing_time_left p) (state_backup p)
    (jumping_to p) (teleporting_to p) (wait_for_tile_transition p)
    (info_board_update_needed p) (putting_bomb p) (putting_multibomb p)
    (throwing p).
Definition set_bombs_left (v : Z) (p : Player) : Player :=
  mkPlayer (player_position p) (number p) (team_number p) (state p)
    (state_time p) (speed p) v (flame_length p) (has_spring p) (has_shoe p)
    (disease_time_left p) (disease p) (has_multibomb p) (has_boxing_glove p)
    (has_throwing_glove p) (boxing p) (detonator_bombs_left p)
    (detonator_bombs p) (wait_for_special_release p)
    (wait_for_bomb_release p) (throwing_time_left p) (state_backup p)
    (jumping_to p) (teleporting_to p) (wait_for_tile_transition p)
    (info_board_update_needed p) (putting_bomb p) (putting_multibomb p)
    (throwing p).
Definition set_disease_time_left (v : Z) (p : Player) : Player :=
  mkPlayer (player_position p) (number p) (team_number p) (state p)
    (state_time p) (speed p) (bombs_left p) (flame_length p) (has_spring p)
    (has_shoe p) v (disease p) (has_multibomb p) (has_boxing_glove p)
    (has_throwing_glove p) (boxing p) (detonator_bombs_left p)
    (detonator_bombs p) (wait_for_special_release p)
    (wait_for_bomb_release p) (throwing_time_left p) (state_backup p)
    (jumping_to p) (teleporting_to p) (wait_for_tile_transition p)
    (info_board_update_needed p) (putting_bomb p) (putting_multibomb p)
    (throwing p).
Definition set_disease (v : Disease) (p : Player) : Player :=
  mkPlayer (player_position p) (number p) (team_number p) (state p)
    (state_time p) (speed p) (bombs_left p) (flame_length p) (has_spring p)
    (has_shoe p) (disease_time_left p) v (has_multibomb p)
    (has_boxing_glove p) (has_throwing_glove p) (boxing p)
    (detonator_bombs_left p) (detonator_bombs p)
    (wait_for_special_release p) (wait_for_bomb_release p)
    (throwing_time_left p) (state_backup p) (jumping_to p)
    (teleporting_to p) (wait_for_tile_transition p)
    (info_board_update_needed p) (putting_bomb p) (putting_multibomb p)
    (throwing p).
Definition set_boxing (v : bool) (p : Player) : Player :=
  mkPlayer (player_position p) (number p) (team_number p) (state p)
    (state_time p) (speed p) (bombs_left p) (flame_length p) (has_spring p)
    (has_shoe p) (disease_time_left p) (disease p) (has_multibomb p)
    (has_boxing_glove p) (has_throwing_glove p) v (detonator_bombs_left p)
    (detonator_bombs p) (wait_for_special_release p)
    (wait_for_bomb_release p) (throwing_time_left p) (state_backup p)
    (jumping_to p) (teleporting_to p) (wait_for_tile_transition p)
    (info_board_update_needed p) (putting_bomb p) (putting_multibomb p)
    (throwing p).
Definition set_detonator_bombs_left (v : Z) (p : Player) : Player :=
  mkPlayer (player_position p) (number p) (team_number p) (state p)
    (state_time p) (speed p) (bombs_left p) (flame_length p) (has_spring p)
    (has_shoe p) (disease_time_left p) (disease p) (has_multibomb p)
    (has_boxing_glove p) (has_throwing_glove p) (boxing p) v
    (detonator_bombs p) (wait_for_special_release p)
    (wait_for_bomb_release p) (throwing_time_left p) (state_backup p)
    (jumping_to p) (teleporting_to p) (wait_for_tile_transition p)
    (info_board_update_needed p) (putting_bomb p) (putting_multibomb p)
    (throwing p).
Definition set_detonator_bombs (v : list nat) (p : Player) : Player :=
  mkPlayer (player_position p) (number p) (team_number p) (state p)
    (state_time p) (speed p) (bombs_left p) (flame_length p) (has_spring p)
    (has_shoe p) (disease_time_left p) (disease p) (has_multibomb p)
    (has_boxing_glove p) (has_throwing_glove p) (boxing p)
    (detonator_bombs_left p) v (wait_for_special_release p)
    (wait_for_bomb_release p) (throwing_time_left p) (state_backup p)
    (jumping_to p) (teleporting_to p) (wait_for_tile_transition p)
    (info_board_update_needed p) (putting_bomb p) (putting_multibomb p)
    (throwing p).
Definition set_wait_for_special_release (v : bool) (p : Player) : Player :=
  mkPlayer (player_position p) (number p) (team_number p) (state p)
    (state_time p) (speed p) (bombs_left p) (flame_length p) (has_spring p)
    (has_shoe p) (disease_time_left p) (disease p) (has_multibomb p)
    (has_boxing_glove p) (has_throwing_glove p) (boxing p)
    (detonator_bombs_left p) (detonator_bombs p) v (wait_for_bomb_release p)
    (throwing_time_left p) (state_backup p) (jumping_to p)
    (teleporting_to p) (wait_for_tile_transition p)
    (info_board_update_needed p) (putting_bomb p) (putting_multibomb p)
    (throwing p).
Definition set_wait_for_bomb_release (v : bool) (p : Player) : Player :=
  mkPlayer (player_position p) (number p) (team_number p) (state p)
    (state_time p) (speed p) (bombs_left p) (flame_length p) (has_spring p)
    (has_shoe p) (disease_time_left p) (disease p) (has_multibomb p)
    (has_boxing_glove p) (has_throwing_glove p) (boxing p)
    (detonator_bombs_left p) (detonator_bombs p)
    (wait_for_special_release p) v (throwing_time_left p) (state_backup p)
    (jumping_to p) (teleporting_to p) (wait_for_tile_transition p)
    (info_board_update_needed p) (putting_bomb p) (putting_multibomb p)
    (throwing p).
Definition set_throwing_time_left (v : Z) (p : Player) : Player :=
  mkPlayer (player_position p) (number p) (team_number p) (state p)
    (state_time p) (speed p) (bombs_left p) (flame_length p) (has_spring p)
    (has_shoe p) (disease_time_left p) (disease p) (has_multibomb p)
    (has_boxing_glove p) (has_throwing_glove p) (boxing p)
    (detonator_bombs_left p) (detonator_bombs p)
    (wait_for_special_release p) (wait_for_bomb_release p) v
    (state_backup p) (jumping_to p) (teleporting_to p)
    (wait_for_tile_transition p) (info_board_update_needed p)
    (putting_bomb p) (putting_multibomb p) (throwing p).
Definition set_jumping_to (v : option Position) (p : Player) : Player :=
  mkPlayer (player_position p) (number p) (team_number p) (state p)
    (state_time p) (speed p) (bombs_left p) (flame_length p) (has_spring p)
    (has_shoe p) (disease_time_left p) (disease p) (has_multibomb p)
    (has_boxing_glove p) (has_throwing_glove p) (boxing p)
    (detonator_bombs_left p) (detonator_bombs p)
    (wait_for_special_release p) (wait_for_bomb_release p)
    (throwing_time_left p) (state_backup p) v (teleporting_to p)
    (wait_for_tile_transition p) (info_board_update_needed p)
    (putting_bomb p) (putting_multibomb p) (throwing p).
Definition set_teleporting_to (v : option Position) (p : Player) : Player :=
  mkPlayer (player_position p) (number p) (team_number p) (state p)
    (state_time p) (speed p) (bombs_left p) (flame_length p) (has_spring p)
    (has_shoe p) (disease_time_left p) (disease p) (has_multibomb p)
    (has_boxing_glove p) (has_throwing_glove p) (boxing p)
    (detonator_bombs_left p) (detonator_bombs p)
    (wait_for_special_release p) (wait_for_bomb_release p)
    (throwing_time_left p) (state_backup p) (jumping_to p) v
    (wait_for_tile_transition p) (info_board_update_needed p)
    (putting_bomb p) (putting_multibomb p) (throwing p).
Definition set_wait_for_tile_transition (v : bool) (p : Player) : Player :=
  mkPlayer (player_position p) (number p) (team_number p) (state p)
    (state_time p) (speed p) (bombs_left p) (flame_length p) (has_spring p)
    (has_shoe p) (disease_time_left p) (disease p) (has_multibomb p)
    (has_boxing_glove p) (has_throwing_glove p) (boxing p)
    (detonator_bombs_left p) (detonator_bombs p)
    (wait_for_special_release p) (wait_for_bomb_release p)
    (throwing_time_left p) (state_backup p) (jumping_to p)
    (teleporting_to p) v (info_board_update_needed p) (putting_bomb p)
    (putting_multibomb p) (throwing p).
Definition set_info_board_update_needed (v : bool) (p : Player) : Player :=
  mkPlayer (player_position p) (number p) (team_number p) (state p)
    (state_time p) (speed p) (bombs_left p) (flame_length p) (has_spring p)
    (has_shoe p) (disease_time_left p) (disease p) (has_multibomb p)
    (has_boxing_glove p) (has_throwing_glove p) (boxing p)
    (detonator_bombs_left p) (detonator_bombs p)
    (wait_for_special_release p) (wait_for_bomb_release p)
    (throwing_time_left p) (state_backup p) (jumping_to p)
    (teleporting_to p) (wait_for_tile_transition p) v (putting_bomb p)
    (putting_multibomb p) (throwing p).
Definition set_putting_bomb (v : bool) (p : Player) : Player :=
  mkPlayer (player_position p) (number p) (team_number p) (state p)
    (state_time p) (speed p) (bombs_left p) (flame_length p) (has_spring p)
    (has_shoe p) (disease_time_left p) (disease p) (has_multibomb p)
    (has_boxing_glove p) (has_throwing_glove p) (boxing p)
    (detonator_bombs_left p) (detonator_bombs p)
    (wait_for_special_release p) (wait_for_bomb_release p)
    (throwing_time_left p) (state_backup p) (jumping_to p)
    (teleporting_to p) (wait_for_tile_transition p)
    (info_board_update_needed p) v (putting_multibomb p) (throwing p).
Definition set_putting_multibomb (v : bool) (p : Player) : Player :=
  mkPlayer (player_position p) (number p) (team_number p) (state p)
    (state_time p) (speed p) (bombs_left p) (flame_length p) (has_spring p)
    (has_shoe p) (disease_time_left p) (disease p) (has_multibomb p)
    (has_boxing_glove p) (has_throwing_glove p) (boxing p)
    (detonator_bombs_left p) (detonator_bombs p)
    (wait_for_special_release p) (wait_for_bomb_release p)
    (throwing_time_left p) (state_backup p) (jumping_to p)
    (teleporting_to p) (wait_for_tile_transition p)
    (info_board_update_needed p) (putting_bomb p) v (throwing p).
Definition set_throwing (v : bool) (p : Player) : Player :=
  mkPlayer (player_position p) (number p) (team_number p) (state p)
    (state_time p) (speed p) (bombs_left p) (flame_length p) (has_spring p)
    (has_shoe p) (disease_time_left p) (disease p) (has_multibomb p)
    (has_boxing_glove p) (has_throwing_glove p) (boxing p)
    (detonator_bombs_left p) (detonator_bombs p)
    (wait_for_special_release p) (wait_for_bomb_release p)
    (throwing_time_left p) (state_backup p) (jumping_to p)
    (teleporting_to p) (wait_for_tile_transition p)
    (info_board_update_needed p) (putting_bomb p) (putting_multibomb p) v.

(** *** Tile access *)

(** [g[row][col]] on a list of rows. *)
Definition grid_read {A} (g : list (list A)) (p : Position) : py A :=
  line ← py_get g (pos_row p);
  py_get line (pos_col p).

(** Replacing [g[row][col]] by [f] of it, in place. *)
Definition grid_alter {A} (f : A → A) (g : list (list A)) (p : Position)
    : py (list (list A)) :=
  line ← py_get g (pos_row p);
  t ← py_get line (pos_col p);
  line' ← py_set line (pos_col p) (f t);
  py_set g (pos_row p) line'.

(** [GameMap.get_tile]: [self.tiles[row][col]]. *)
Definition get_tile (m : GameMap) (p : Position) : py MapTile :=
  grid_read (tiles m) p.

(** Mutating the tile object that [get_tile] returns. *)
Definition alter_tile (f : MapTile → MapTile) (m : GameMap) (p : Position) : py GameMap :=
  ts ← grid_alter f (tiles m) p;
  Ok (set_tiles m ts).

(** [GameMap.tile_is_withing_map]:
    [(0, 0) <= tile_coordinates <= (GameMap.MAP_SIZE - 1)]. *)
Definition tile_is_withing_map (p : Position) : bool :=
  position_ge p (mkPosition 0 0) && position_le p (position_sub_int MAP_SIZE 1).

(** [GameMap.get_tile_at]. *)
Definition get_tile_at (m : GameMap) (p : Position) : py (option MapTile) :=
  if tile_is_withing_map p then t ← get_tile m p; Ok (Some t) else Ok None.

(** [Positionable.get_tile_position] for a bomb and for a player. *)
Definition bomb_tile_position (b : Bomb) : Position :=
  position_to_tile (bomb_position b).
Definition player_tile_position (p : Player) : Position :=
  position_to_tile (player_position p).

(** [GameMap.bombs_on_tile], for an argument that is already a tile
    position (the source first applies [position_to_tile]). *)
Definition bombs_on_tile (m : GameMap) (p : Position) : list nat :=
  filter (λ b, movement (bomb_at m b) ≠ BOMB_FLYING
               ∧ bomb_tile_position (bomb_at m b) = p) (bombs m).

(** [GameMap.bomb_on_tile] and [GameMap.tile_has_bomb]. *)
Definition bomb_on_tile (m : GameMap) (p : Position) : option nat :=
  head (bombs_on_tile m p).
Definition tile_has_bomb (m : GameMap) (p : Position) : bool :=
  bool_decide (is_Some (bomb_on_tile m p)).

(** [GameMap.get_players_at_tile] (as player references) and
    [GameMap.tile_has_player]. *)
Definition is_dead (p : Player) : bool := bool_decide (state p = STATE_DEAD).
Definition is_in_air (p : Player) : bool := bool_decide (state p = STATE_IN_AIR).

Definition get_players_at_tile (m : GameMap) (p : Position) : list nat :=
  filter (λ i, is_dead (player_at m i) = false
               ∧ is_in_air (player_at m i) = false
               ∧ player_tile_position (player_at m i) = p)
         (seq 0 (length (players m))).
Definition tile_has_player (m : GameMap) (p : Position) : Z :=
  Z.of_nat (length (get_players_at_tile m p)).

(** [GameMap.tile_has_flame], [tile_has_teleport], [tile_has_lava]. *)
Definition tile_has_flame (m : GameMap) (p : Position) : py bool :=
  if negb (tile_is_withing_map p) then Ok false
  else t ← get_tile m p; Ok (1 <=? Z.of_nat (length (flames t))).

Definition tile_has_teleport (m : GameMap) (p : Position) : py bool :=
  if negb (tile_is_withing_map p) then Ok false
  else t ← get_tile m p;
       Ok (bool_decide (special_object t = Some SPECIAL_OBJECT_TELEPORT_A
                        ∨ special_object t = Some SPECIAL_OBJECT_TELEPORT_B)).

Definition tile_has_lava (m : GameMap) (p : Position) : py bool :=
  if negb (tile_is_withing_map p) then Ok false
  else t ← get_tile m p;
       Ok (bool_decide (special_object t = Some SPECIAL_OBJECT_LAVA)).

(** [GameMap.tile_is_walkable]. *)
Definition tile_is_walkable (m : GameMap) (p : Position) : py bool :=
  if negb (tile_is_withing_map p) then Ok false
  else
    t ← get_tile m p;
    Ok (tile_is_withing_map p
        && (bool_decide (kind t = TILE_FLOOR) || to_be_destroyed t)
        && negb (tile_has_bomb m p)).

(** ** Explosions *)

(** [Player.bomb_exploded]. *)
Definition bomb_exploded (p : Player) : Player :=
  set_bombs_left (bombs_left p + 1) p.

(** [Bomb.explodes], on the bomb behind reference [b]. *)
Definition explodes (m : GameMap) (b : nat) : GameMap :=
  if has_exploded (bomb_at m b) then m
  else
    let m1 := update_player m (bomb_player (bomb_at m b)) bomb_exploded in
    update_bomb m1 b (set_has_exploded true).

(** [self.bombs.remove(bomb)] guarded by [bomb in self.bombs]: the first
    occurrence goes, a list without the bomb is left alone. *)
Fixpoint remove_first (x : nat) (l : list nat) : list nat :=
  match l with
  | [] => []
  | y :: l' => if decide (x = y) then l' else y :: remove_first x l'
  end.

(** The four directions of [bomb_explodes], in the source's order
    0 = up, 1 = right, 2 = down, 3 = left, and its per-direction tables. *)
Inductive Direction : Set := DirUp | DirRight | DirDown | DirLeft.

Definition map_limit (d : Direction) : Z :=
  match d with
  | DirUp => 0
  | DirRight => pos_col MAP_SIZE - 1
  | DirDown => pos_row MAP_SIZE - 1
  | DirLeft => 0
  end.
Definition increment (d : Direction) : Z :=
  match d with DirUp => -1 | DirRight => 1 | DirDown => 1 | DirLeft => -1 end.
Definition goes_horizontally (d : Direction) : bool :=
  match d with DirUp => false | DirRight => true | DirDown => false | DirLeft => true end.
Definition terminal_direction (d : Direction) : FlameDirection :=
  match d with
  | DirUp => dir_up | DirRight => dir_right | DirDown => dir_down | DirLeft => dir_left
  end.

(** One direction's entries of [axis_position], [flame_stop] and
    [previous_flame].  The previous flame is the flame object appended last
    to a tile of this direction; it is named by that tile. *)
Record FlameWalk : Set := mkFlameWalk {
  axis_position : Z;
  flame_stop : bool;
  previous_flame : option Position
}.

Definition append_flame (f : Flame) (t : MapTile) : MapTile :=
  set_flames (flames t ++ [f]) t.

(** [previous_flame[direction].direction = ...] on the last flame of a tile. *)
Definition retag_last (d : FlameDirection) (t : MapTile) : MapTile :=
  set_flames (alter (set_flame_direction d) (pred (length (flames t))) (flames t)) t.

(** The test "flame is inside the map here". *)
Definition inside_limit (d : Direction) (a : Z) : bool :=
  ((increment d =? -1) && (a >=? map_limit d))
  || ((increment d =? 1) && (a <=? map_limit d)).

Definition flame_target (bp : Position) (d : Direction) (a : Z) : Position :=
  if goes_horizontally d then mkPosition a (pos_row bp)
  else mkPosition (pos_col bp) a.

(** The body of [for direction in (0, 1, 2, 3)] for one direction. *)
Definition flame_step (bp : Position) (new_flame : Flame) (d : Direction)
    (m : GameMap) (w : FlameWalk) : py (GameMap * FlameWalk) :=
  '(m', w') ←
    (if flame_stop w then
       match previous_flame w with
       | Some q =>
           m' ← alter_tile (retag_last (terminal_direction d)) m q;
           Ok (m', mkFlameWalk (axis_position w) (flame_stop w) None)
       | None => Ok (m, w)
       end
     else if inside_limit d (axis_position w) then
       let q := flame_target bp d (axis_position w) in
       tile_for_flame ← get_tile m q;
       if decide (kind tile_for_flame = TILE_WALL) then
         Ok (m, mkFlameWalk (axis_position w) true (previous_flame w))
       else
         let new_flame2 :=
           set_flame_direction
             (if goes_horizontally d then dir_horizontal else dir_vertical)
             new_flame in
         m' ← alter_tile (append_flame new_flame2) m q;
         Ok (m', mkFlameWalk (axis_position w)
                   (if decide (kind tile_for_flame = TILE_BLOCK) then true
                    else flame_stop w)
                   (Some q))
     else Ok (m, mkFlameWalk (axis_position w) true (previous_flame w)));
  Ok (m', mkFlameWalk (axis_position w' + increment d) (flame_stop w')
            (previous_flame w')).

Definition FlameWalks : Set := FlameWalk * FlameWalk * FlameWalk * FlameWalk.

Definition stop_walk (w : FlameWalk) : FlameWalk :=
  mkFlameWalk (axis_position w) true (previous_flame w).

(** The body of [for i in range(bomb.flame_length + 1)]. *)
Definition flame_iteration (bp : Position) (new_flame : Flame) (flame_length : Z)
    (i : Z) (s : GameMap * FlameWalks) : py (GameMap * FlameWalks) :=
  let '(m, (w0, w1, w2, w3)) := s in
  let '(w0, w1, w2, w3) :=
    if i >=? flame_length
    then (stop_walk w0, stop_walk w1, stop_walk w2, stop_walk w3)
    else (w0, w1, w2, w3) in
  '(m, w0) ← flame_step bp new_flame DirUp m w0;
  '(m, w1) ← flame_step bp new_flame DirRight m w1;
  '(m, w2) ← flame_step bp new_flame DirDown m w2;
  '(m, w3) ← flame_step bp new_flame DirLeft m w3;
  Ok (m, (w0, w1, w2, w3)).

(** [for i in range(start, start + n)] over a state. *)
Fixpoint for_range {S : Type} (body : Z → S → py S) (start : Z) (n : nat) (s : S) : py S :=
  match n with
  | O => Ok s
  | S n' => s' ← body start s; for_range body (start + 1) n' s'
  end.

(** The walks at the start of [bomb_explodes]: the four neighbours of the
    bomb's tile, nothing stopped, no previous flame. *)
Definition initial_walks (bp : Position) : FlameWalks :=
  (mkFlameWalk (pos_row bp - 1) false None,
   mkFlameWalk (pos_col bp + 1) false None,
   mkFlameWalk (pos_row bp + 1) false None,
   mkFlameWalk (pos_col bp - 1) false None).

(** [GameMap.bomb_explodes]. *)
Definition bomb_explodes (m : GameMap) (b : nat) : py GameMap :=
  let bomb := bomb_at m b in
  let bp := bomb_tile_position bomb in
  let new_flame := mkFlame (bomb_player bomb) 1000 dir_all in
  m ← alter_tile (append_flame new_flame) m bp;
  '(m, _) ← for_range (flame_iteration bp new_flame (bomb_flame_length bomb)) 0
              (Z.to_nat (bomb_flame_length bomb + 1)) (m, initial_walks bp);
  let m := explodes m b in
  Ok (set_bombs m (remove_first b (bombs m))).

(** ** Bomb update *)

Definition Qltb (a b : Q) : bool := if Qlt_le_dec a b then true else false.

(** [dt / 1000.0 * speed]. *)
Definition distance_in (dt : Z) (v : Q) : Q := (inject_Z dt / 1000 * v)%Q.

(** [Bomb.send_flying], for a destination given as a [Position]. *)
Definition send_flying (b : Bomb) (destination : Position) : Bomb :=
  let current_tile := bomb_tile_position b in
  let along_rows := pos_col current_tile =? pos_col destination in   (* axis = 1 *)
  let cur := if along_rows then pos_row current_tile else pos_col current_tile in
  let dst := if along_rows then pos_row destination else pos_col destination in
  let step := if cur >? dst then -1 else 1 in
  let direction := if along_rows then mkPosition 0 step else mkPosition step 0 in
  set_bomb_position
    (tile_center (mkCoordinate (inject_Z (pos_col destination mod pos_col MAP_SIZE))
                               (inject_Z (pos_row destination mod pos_row MAP_SIZE))))
    (set_flight_info (mkFlightInfo (Z.abs (cur - dst)) 0%Q direction)
       (set_movement BOMB_FLYING b)).

(** [Bomb.has_detonator] and [Bomb.time_until_explosion]. *)
Definition has_detonator (b : Bomb) : bool :=
  (detonator_time b >? 0) && (time_of_existence b <? DETONATOR_EXPIRATION_TIME).
Definition time_until_explosion (b : Bomb) : Z :=
  explodes_in b + detonator_time b - time_of_existence b.

(** The landing test of a flying bomb, as the source writes it:
    [not (walkable or has_player or has_teleport)]. *)
Definition keeps_flying (m : GameMap) (bomb_tile : Position) : py bool :=
  walkable ← tile_is_walkable m bomb_tile;
  if (walkable : bool) then Ok false
  else if 0 <? tile_has_player m bomb_tile then Ok false
  else
    teleport ← tile_has_teleport m bomb_tile;
    Ok (negb teleport).

(** The flying branch of [__update_bombs]. *)
Definition update_flying_bomb (m : GameMap) (b : nat) (dt : Z) : py GameMap :=
  let distance_to_travel := distance_in dt FLYING_SPEED in
  let m := update_bomb m b (λ bomb,
             set_flight_info
               (set_distance_travelled
                  (distance_travelled (flight_info bomb) + distance_to_travel)%Q
                  (flight_info bomb)) bomb) in
  let bomb := bomb_at m b in
  if Qle_bool (inject_Z (total_distance_to_travel (flight_info bomb)))
              (distance_travelled (flight_info bomb)) then
    let bomb_tile := bomb_tile_position bomb in
    again ← keeps_flying m bomb_tile;
    if (again : bool) then
      Ok (update_bomb m b (λ bomb,
            send_flying bomb
              (position_add bomb_tile (flight_direction (flight_info bomb)))))
    else  (* bomb lands *)
      let m := update_bomb m b (set_movement BOMB_NO_MOVEMENT) in
      t ← get_tile_at m bomb_tile;
      match t with
      | Some _ => alter_tile (set_item None) m bomb_tile
      | None => Raise AttributeError
      end
  else Ok m.

Definition opposite_rolling (mv : BombMovement) : BombMovement :=
  match mv with
  | BOMB_ROLLING_UP => BOMB_ROLLING_DOWN
  | BOMB_ROLLING_RIGHT => BOMB_ROLLING_LEFT
  | BOMB_ROLLING_DOWN => BOMB_ROLLING_UP
  | BOMB_ROLLING_LEFT => BOMB_ROLLING_RIGHT
  | _ => BOMB_NO_MOVEMENT
  end.

(** The arrow redirection of a rolling bomb that is near its tile centre;
    returns the new movement and position when redirected. *)
Definition arrow_redirect (object_at_tile : option SpecialObject) (bomb : Bomb)
    (bomb_pos : Coordinate) (bomb_tile : Position) : option (BombMovement * Coordinate) :=
  let tc := inject_Z (pos_col bomb_tile) in
  let tr := inject_Z (pos_row bomb_tile) in
  match object_at_tile with
  | Some SPECIAL_OBJECT_ARROW_UP =>
      if decide (movement bomb ≠ BOMB_ROLLING_UP)
      then Some (BOMB_ROLLING_UP, mkCoordinate (tc + half)%Q tr) else None
  | Some SPECIAL_OBJECT_ARROW_RIGHT =>
      if decide (movement bomb ≠ BOMB_ROLLING_RIGHT)
      then Some (BOMB_ROLLING_RIGHT, mkCoordinate (co_col bomb_pos) (tr + half)%Q)
      else None
  | Some SPECIAL_OBJECT_ARROW_DOWN =>
      if decide (movement bomb ≠ BOMB_ROLLING_DOWN)
      then Some (BOMB_ROLLING_DOWN, mkCoordinate (tc + half)%Q (co_row bomb_pos))
      else None
  | Some SPECIAL_OBJECT_ARROW_LEFT =>
      if decide (movement bomb ≠ BOMB_ROLLING_LEFT)
      then Some (BOMB_ROLLING_LEFT, mkCoordinate (co_col bomb_pos) (tr + half)%Q)
      else None
  | _ => None
  end.

(** The rolling branch of [__update_bombs]; [bomb_pos] (the source's local [bomb_position]) and [bomb_tile]
    are the values read at the top of the loop body. *)
Definition update_rolling_bomb (m : GameMap) (b : nat) (dt : Z)
    (bomb_pos : Coordinate) (bomb_tile : Position) : py GameMap :=
  '(m, bomb_pos) ←
    (if near_tile_center (bomb_position (bomb_at m b)) then
       t ← get_tile m bomb_tile;
       match arrow_redirect (special_object t) (bomb_at m b) bomb_pos bomb_tile with
       | Some (mv, c) =>
           Ok (update_bomb m b (λ bomb, set_bomb_position c (set_movement mv bomb)), c)
       | None => Ok (m, bomb_pos)
       end
     else Ok (m, bomb_pos));
  t ← get_tile m bomb_tile;
  m ← (if item t is Some _ then alter_tile (set_item None) m bomb_tile else Ok m);
  let within_col := frac (co_col bomb_pos) in
  let within_row := frac (co_row bomb_pos) in
  let distance_to_travel := distance_in dt ROLLING_SPEED in
  let lo := (5 # 10)%Q in
  let hi := (9 # 10)%Q in
  let lo2 := (1 - hi)%Q in
  let hi2 := (1 - lo)%Q in
  let mv := movement (bomb_at m b) in
  let '(new_position, check_collision, forward_tile) :=
    match mv with
    | BOMB_ROLLING_UP =>
        (Some (mkCoordinate (co_row bomb_pos)
                            (co_col bomb_pos - distance_to_travel)%Q),
         Qltb lo2 within_row && Qltb within_row hi2,
         mkPosition (pos_col bomb_tile) (pos_row bomb_tile - 1))
    | BOMB_ROLLING_RIGHT =>
        (Some (mkCoordinate (co_col bomb_pos + distance_to_travel)%Q
                            (co_row bomb_pos)),
         Qltb lo within_col && Qltb within_col hi,
         mkPosition (pos_col bomb_tile + 1) (pos_row bomb_tile))
    | BOMB_ROLLING_DOWN =>
        (Some (mkCoordinate (co_col bomb_pos)
                            (co_row bomb_pos + distance_to_travel)%Q),
         Qltb lo within_row && Qltb within_row hi,
         mkPosition (pos_col bomb_tile) (pos_row bomb_tile + 1))
    | BOMB_ROLLING_LEFT =>
        (Some (mkCoordinate (co_col bomb_pos - distance_to_travel)%Q
                            (co_row bomb_pos)),
         Qltb lo2 within_col && Qltb within_col hi2,
         mkPosition (pos_col bomb_tile - 1) (pos_row bomb_tile))
    | _ => (None, false, bomb_tile)
    end in
  let m := match new_position with
           | Some c => update_bomb m b (set_bomb_position c)
           | None => m
           end in
  blocked ←
    (if check_collision then
       walkable ← tile_is_walkable m forward_tile;
       if negb (walkable : bool) then Ok true
       else if 0 <? tile_has_player m forward_tile then Ok true
       else tile_has_teleport m forward_tile
     else Ok false);
  if (blocked : bool) then
    Ok (update_bomb m b (λ bomb,
          set_movement
            (if bomb_has_spring bomb then opposite_rolling mv else BOMB_NO_MOVEMENT)
            (set_bomb_position (tile_center (bomb_position bomb)) bomb)))
  else Ok m.

(** The body of the [while i < len(self.bombs)] loop of [__update_bombs] for
    [bomb = self.bombs[i]]: the map after the iteration and the next [i]
    (the same [i] after a [continue] that removed the bomb). *)
Definition update_bombs_body (dt : Z) (i : nat) (b : nat) (m : GameMap)
    : py (GameMap * nat) :=
  if has_exploded (bomb_at m b) then  (* just in case *)
    Ok (set_bombs m (remove_first b (bombs m)), i)
  else
    let m := update_bomb m b (λ bomb,
               set_time_of_existence (time_of_existence bomb + dt) bomb) in
    let bomb := bomb_at m b in
    let bomb_pos := bomb_position bomb in
    let bomb_tile := bomb_tile_position bomb in
    if bool_decide (movement bomb ≠ BOMB_FLYING)
       && (time_of_existence bomb >? explodes_in bomb + detonator_time bomb)
    then
      m ← bomb_explodes m b;
      Ok (m, i)
    else
      on_lava ←
        (if bool_decide (movement bomb ≠ BOMB_FLYING) then
           t ← get_tile m bomb_tile;
           Ok (bool_decide (special_object t = Some SPECIAL_OBJECT_LAVA)
               && near_tile_center bomb_pos)
         else Ok false);
      if (on_lava : bool) then
        m ← bomb_explodes m b;
        Ok (m, i)
      else
        m ←
          (if decide (movement bomb ≠ BOMB_NO_MOVEMENT) then
             if decide (movement bomb = BOMB_FLYING)
             then update_flying_bomb m b dt
             else update_rolling_bomb m b dt bomb_pos bomb_tile
           else Ok m);
        Ok (m, S i).

(** [GameMap.__update_bombs]: the [while i < len(self.bombs)] loop.  Every
    iteration either removes a bomb from the list or advances [i], so
    [len(self.bombs)] iterations are enough; [fuel] counts them. *)
Fixpoint update_bombs_loop (fuel : nat) (dt : Z) (i : nat) (m : GameMap) : py GameMap :=
  match bombs m !! i with
  | None => Ok m
  | Some b =>
      match fuel with
      | O => Raise OutOfFuel
      | S fuel' =>
          '(m', i') ← update_bombs_body dt i b m;
          update_bombs_loop fuel' dt i' m'
      end
  end.

Definition update_bombs (m : GameMap) (dt : Z) : py GameMap :=
  update_bombs_loop (length (bombs m)) dt 0 m.

(** ** The tile pass of [GameMap.update]

    [update(dt)] advances the clock, clears [danger_map_is_up_to_date], gives
    away due items, runs [__update_bombs], then visits every tile (this
    section), then updates the players and the round state. *)

(** [for bomb in bombs_inside_flame: self.bomb_explodes(bomb)]. *)
Fixpoint explode_all (bs : list nat) (m : GameMap) : py GameMap :=
  match bs with
  | [] => Ok m
  | b :: bs' => m' ← bomb_explodes m b; explode_all bs' m'
  end.

(** The [while True] loop over the flames of the tile at grid position [p].
    An iteration advances [i]; the list can only grow by one flame per bomb
    that explodes on the tile, so [len(tile.flames) + len(self.bombs)]
    iterations are enough; [fuel] counts them. *)
Fixpoint update_flames_loop (fuel : nat) (dt : Z) (p : Position) (i : nat)
    (m : GameMap) : py GameMap :=
  tile ← get_tile m p;
  if (length (flames tile) <=? i)%nat then Ok m
  else
    match fuel with
    | O => Raise OutOfFuel
    | S fuel' =>
        m ← (if decide (kind tile = TILE_BLOCK) then
               alter_tile (set_to_be_destroyed true) m p
             else if decide (kind tile = TILE_FLOOR ∧ item tile ≠ None) then
               alter_tile (set_item None) m p
             else Ok m);
        let bombs_inside_flame := bombs_on_tile m (coordinates tile) in
        m ← explode_all bombs_inside_flame m;
        tile ← get_tile m p;
        match flames tile !! i with
        | None => Raise IndexError
        | Some flame =>
            let flame := set_time_to_burnout (time_to_burnout flame - dt) flame in
            m ← alter_tile
                  (set_flames (if time_to_burnout flame <? 0
                               then delete i (flames tile)
                               else <[i := flame]> (flames tile))) m p;
            update_flames_loop fuel' dt p (S i) m
        end
    end.

(** The body of [for tile in line] for the tile at grid position [p]. *)
Definition update_tile (dt : Z) (p : Position) (m : GameMap) : py GameMap :=
  tile ← get_tile m p;
  m ← (if to_be_destroyed tile && bool_decide (kind tile = TILE_BLOCK) then
         has_flame ← tile_has_flame m (coordinates tile);
         if negb (has_flame : bool) then
           m ← alter_tile (λ t, set_to_be_destroyed false (set_kind TILE_FLOOR t)) m p;
           Ok (set_number_of_blocks m (number_of_blocks m - 1))
         else Ok m
       else Ok m);
  tile ← get_tile m p;
  update_flames_loop (length (flames tile) + length (bombs m)) dt p 0 m.


Fixpoint for_each {A S : Type} (body : A → S → py S) (l : list A) (s : S) : py S :=
  match l with
  | [] => Ok s
  | x :: l' => s' ← body x s; for_each body l' s'
  end.


(** ** Danger map *)

(** [GameMap._update_danger_entry]. *)
Definition update_danger_entry (m : GameMap) : list (list Z) :=
  (λ tile_row : list MapTile,
     (λ tile, if should_not_walk tile then 0 else SAFE_DANGER_VALUE) <$> tile_row)
    <$> tiles m.

(** [self.danger_map[row][col]]. *)
Definition danger_read (d : list (list Z)) (p : Position) : py Z :=
  grid_read d p.

(** [self.danger_map[row][col] = min(self.danger_map[row][col], t)]. *)
Definition danger_min (d : list (list Z)) (p : Position) (t : Z) : py (list (list Z)) :=
  v ← danger_read d p;
  grid_alter (λ _, Z.min v t) d p.

(** One direction's [position] and [flame_stop] entry. *)
Record DangerWalk : Set := mkDangerWalk {
  walk_position : Position;
  walk_stop : bool
}.

Definition tile_increment (d : Direction) : Position :=
  match d with
  | DirUp => mkPosition 0 (-1)
  | DirRight => mkPosition 1 0
  | DirDown => mkPosition 0 1
  | DirLeft => mkPosition (-1) 0
  end.

(** The body of [for direction in (0, 1, 2, 3)] of [update_danger_map]. *)
Definition danger_step (t : Z) (d : Direction) (m : GameMap) (w : DangerWalk)
    : py (GameMap * DangerWalk) :=
  if walk_stop w then Ok (m, w)
  else
    walkable ← tile_is_walkable m (walk_position w);
    if negb (walkable : bool) || negb (tile_is_withing_map (walk_position w)) then
      Ok (m, mkDangerWalk (walk_position w) true)
    else
      dm ← danger_min (danger_map m) (walk_position w) t;
      Ok (set_danger_map m dm,
          mkDangerWalk (position_add (walk_position w) (tile_increment d)) (walk_stop w)).

Definition DangerWalks : Set := DangerWalk * DangerWalk * DangerWalk * DangerWalk.

Definition danger_iteration (t : Z) (i : Z) (s : GameMap * DangerWalks)
    : py (GameMap * DangerWalks) :=
  let '(m, (w0, w1, w2, w3)) := s in
  '(m, w0) ← danger_step t DirUp m w0;
  '(m, w1) ← danger_step t DirRight m w1;
  '(m, w2) ← danger_step t DirDown m w2;
  '(m, w3) ← danger_step t DirLeft m w3;
  Ok (m, (w0, w1, w2, w3)).

(** The body of [for bomb in self.bombs]. *)
Definition danger_of_bomb (b : nat) (m : GameMap) : py GameMap :=
  let bomb := bomb_at m b in
  let bomb_tile := bomb_tile_position bomb in
  let t := if has_detonator bomb then 100 else time_until_explosion bomb in
  dm ← danger_min (danger_map m) bomb_tile t;
  let m := set_danger_map m dm in
  let walks :=
    (mkDangerWalk (mkPosition (pos_col bomb_tile) (pos_row bomb_tile - 1)) false,
     mkDangerWalk (mkPosition (pos_col bomb_tile + 1) (pos_row bomb_tile)) false,
     mkDangerWalk (mkPosition (pos_col bomb_tile) (pos_row bomb_tile + 1)) false,
     mkDangerWalk (mkPosition (pos_col bomb_tile - 1) (pos_row bomb_tile)) false) in
  '(m, _) ← for_range (danger_iteration t) 0 (Z.to_nat (bomb_flame_length bomb)) (m, walks);
  Ok m.

(** [GameMap.update_danger_map]. *)
Definition update_danger_map (m : GameMap) : py GameMap :=
  for_each danger_of_bomb (bombs m) (set_danger_map m (update_danger_entry m)).

(** [GameMap.get_danger_value]: the value and the map after the call. *)
Definition get_danger_value (m : GameMap) (p : Position) : py (Z * GameMap) :=
  m ← (if negb (danger_map_is_up_to_date m) then
         m' ← update_danger_map m;
         Ok (set_danger_map_is_up_to_date m' true)
       else Ok m);
  if negb (tile_is_withing_map p) then Ok (0, m)
  else
    v ← danger_read (danger_map m) p;
    Ok (v, m).

(** ** Players *)

Inductive Action : Set :=
| ACTION_UP | ACTION_RIGHT | ACTION_DOWN | ACTION_LEFT
| ACTION_BOMB | ACTION_SPECIAL | ACTION_MENU | ACTION_BOMB_DOUBLE.

#[global] Instance Action_eq_dec : EqDecision Action.
Proof. solve_decision. Defined.

Record PlayerActions : Set := mkPlayerActions { pa_player : Z; pa_action : Action }.

(** [PlayerKeyMaps.get_opposite_action]. *)
Definition get_opposite_action (a : Action) : Action :=
  match a with
  | ACTION_UP => ACTION_DOWN
  | ACTION_RIGHT => ACTION_LEFT
  | ACTION_DOWN => ACTION_UP
  | ACTION_LEFT => ACTION_RIGHT
  | _ => a
  end.

Inductive Collision : Set :=
| COLLISION_BORDER_UP | COLLISION_BORDER_RIGHT | COLLISION_BORDER_DOWN
| COLLISION_BORDER_LEFT | COLLISION_TOTAL | COLLISION_NONE.

Definition WALL_MARGIN_HORIZONTAL : Q := (2 # 10)%Q.
Definition WALL_MARGIN_VERTICAL : Q := (4 # 10)%Q.

(** [GameMap.get_position_collision_type]. *)
Definition get_position_collision_type (m : GameMap) (position : Coordinate) : py Collision :=
  let tile_coordinates := position_to_tile position in
  let up := mkPosition (pos_col tile_coordinates) (pos_row tile_coordinates - 1) in
  let down := mkPosition (pos_col tile_coordinates) (pos_row tile_coordinates + 1) in
  let left := mkPosition (pos_col tile_coordinates - 1) (pos_row tile_coordinates) in
  let right := mkPosition (pos_col tile_coordinates + 1) (pos_row tile_coordinates) in
  walkable ← tile_is_walkable m tile_coordinates;
  if negb (walkable : bool) then Ok COLLISION_TOTAL
  else
    let within_col := frac (co_col position) in
    let within_row := frac (co_row position) in
    vertical ←
      (if Qltb within_row WALL_MARGIN_HORIZONTAL then
         w ← tile_is_walkable m up;
         Ok (if negb (w : bool) then Some COLLISION_BORDER_UP else None)
       else if Qltb (1 - WALL_MARGIN_HORIZONTAL)%Q within_row then
         w ← tile_is_walkable m down;
         Ok (if negb (w : bool) then Some COLLISION_BORDER_DOWN else None)
       else Ok None);
    match vertical with
    | Some c => Ok c
    | None =>
        if Qltb within_col WALL_MARGIN_VERTICAL then
          w ← tile_is_walkable m left;
          Ok (if negb (w : bool) then COLLISION_BORDER_LEFT else COLLISION_NONE)
        else if Qltb (1 - WALL_MARGIN_VERTICAL)%Q within_col then
          w ← tile_is_walkable m right;
          Ok (if negb (w : bool) then COLLISION_BORDER_RIGHT else COLLISION_NONE)
        else Ok COLLISION_NONE
    end.

(** [Bomb.__init__] for the player behind reference [owner]. *)
Definition new_bomb (owner : nat) (p : Player) : Bomb :=
  mkBomb (tile_center (player_position p)) 0 (flame_length p) owner
         BOMB_EXPLODES_IN 0 (has_spring p) BOMB_NO_MOVEMENT false default_flight_info.

(** [Player.lay_bomb]; the new bomb object is allocated at the end of the
    heap and [add_bomb] appends its reference to [self.bombs]. *)
Definition lay_bomb (m : GameMap) (pi : nat) (tile_coordinates : option Position) : GameMap :=
  let self := player_at m pi in
  let bomb := new_bomb pi self in
  let bomb :=
    match tile_coordinates with
    | Some tc => set_bomb_position (tile_center (coordinate_of_position tc)) bomb
    | None => bomb
    end in
  let bomb :=
    if decide (disease self = DISEASE_SHORT_FLAME) then set_bomb_flame_length 1 bomb
    else if decide (disease self = DISEASE_FAST_BOMB) then set_explodes_in EXPLODES_IN_QUICK bomb
    else bomb in
  let armed := detonator_bombs_left self >? 0 in
  let bomb := if armed then set_detonator_time DETONATOR_EXPIRATION_TIME bomb else bomb in
  let ref := length (bomb_heap m) in
  let m := set_bombs (set_bomb_heap m (bomb_heap m ++ [bomb])) (bombs m ++ [ref]) in
  update_player m pi (λ self,
    let self := set_bombs_left (bombs_left self - 1) self in
    if armed then
      set_detonator_bombs_left (detonator_bombs_left self - 1)
        (set_detonator_bombs (detonator_bombs self ++ [ref]) self)
    else self).

(** [Player.get_direction_vector] and [get_forward_tile_position]. *)
Definition get_direction_vector (p : Player) : Position :=
  match state p with
  | STATE_WALKING_UP | STATE_IDLE_UP => mkPosition 0 (-1)
  | STATE_WALKING_RIGHT | STATE_IDLE_RIGHT => mkPosition 1 0
  | STATE_WALKING_DOWN | STATE_IDLE_DOWN => mkPosition 0 1
  | _ => mkPosition (-1) 0
  end.
Definition get_forward_tile_position (p : Player) : Position :=
  position_add (player_tile_position p) (get_direction_vector p).

(** The [while len(self.detonator_bombs) != 0] loop of the special action.
    The loop only pops, so it is a recursion over the stack of references,
    newest first; every pop is written back to the player.  The result says
    whether a bomb was detonated. *)
Fixpoint detonate_loop (pi : nat) (stack : list nat) (m : GameMap) : py (GameMap * bool) :=
  match stack with
  | [] => Ok (m, false)
  | bomb_to_check :: rest =>
      let m := update_player m pi (λ self,
                 set_detonator_bombs (rev rest) (set_info_board_update_needed true self)) in
      let bomb := bomb_at m bomb_to_check in
      if has_detonator bomb && negb (has_exploded bomb)
         && bool_decide (movement bomb ≠ BOMB_FLYING)
      then
        m ← bomb_explodes m bomb_to_check;
        Ok (update_player m pi (set_wait_for_special_release true), true)
      else detonate_loop pi rest m
  end.

(** The locals of [__manage_input_actions]. *)
Record InputLocals : Set := mkInputLocals {
  moved : bool;
  detonator_triggered : bool;
  special_was_pressed : bool;
  bomb_was_pressed : bool
}.

(** The body of [for item in input_actions]. *)
Definition manage_input_action (pi : nat) (distance_to_travel : Q)
    (it : PlayerActions) (s : GameMap * InputLocals) : py (GameMap * InputLocals) :=
  let '(m, loc) := s in
  if decide (pa_player it ≠ number (player_at m pi)) then Ok s
  else
    let input_action :=
      if decide (disease (player_at m pi) = DISEASE_REVERSE_CONTROLS)
      then get_opposite_action (pa_action it) else pa_action it in
    (* movement along one axis only *)
    let walk (delta : Coordinate) (minus : bool) (st : PlayerState) :=
      (update_player m pi (λ self,
         set_state st
           (set_player_position
              (if minus then coordinate_sub (player_position self) delta
               else coordinate_add (player_position self) delta) self)),
       mkInputLocals true (detonator_triggered loc) (special_was_pressed loc)
                     (bomb_was_pressed loc)) in
    let '(m, loc) :=
      if negb (moved loc) then
        match input_action with
        | ACTION_UP => walk (mkCoordinate 0%Q distance_to_travel) true STATE_WALKING_UP
        | ACTION_DOWN => walk (mkCoordinate 0%Q distance_to_travel) false STATE_WALKING_DOWN
        | ACTION_RIGHT => walk (mkCoordinate distance_to_travel 0%Q) false STATE_WALKING_RIGHT
        | ACTION_LEFT => walk (mkCoordinate distance_to_travel 0%Q) true STATE_WALKING_LEFT
        | _ => (m, loc)
        end
      else (m, loc) in
    (* bomb *)
    let '(m, loc) :=
      if decide (input_action = ACTION_BOMB) then
        let self := player_at m pi in
        let m :=
          if negb (wait_for_bomb_release self)
             && (bombs_left self >=? 1)
             && negb (tile_has_bomb m (position_to_tile (player_position self)))
             && negb (bool_decide (disease self = DISEASE_NO_BOMB))
          then update_player m pi (set_putting_bomb true) else m in
        (m, mkInputLocals (moved loc) (detonator_triggered loc)
                          (special_was_pressed loc) true)
      else (m, loc) in
    (* multibomb or throw *)
    let m :=
      if decide (input_action = ACTION_BOMB_DOUBLE) then
        if has_throwing_glove (player_at m pi) then update_player m pi (set_throwing true)
        else if has_multibomb (player_at m pi)
             then update_player m pi (set_putting_multibomb true)
             else m
      else m in
    (* special *)
    if decide (input_action = ACTION_SPECIAL) then
      let loc := mkInputLocals (moved loc) (detonator_triggered loc) true
                               (bomb_was_pressed loc) in
      if negb (wait_for_special_release (player_at m pi)) then
        '(m, triggered) ← detonate_loop pi (rev (detonator_bombs (player_at m pi))) m;
        let loc := mkInputLocals (moved loc) (detonator_triggered loc || triggered)
                                 (special_was_pressed loc) (bomb_was_pressed loc) in
        let m :=
          if negb (detonator_triggered loc) && has_boxing_glove (player_at m pi)
          then update_player m pi (set_boxing true) else m in
        Ok (m, loc)
      else Ok (m, loc)
    else Ok (m, loc).

(** [Player.__manage_input_actions]. *)
Definition manage_input_actions (m : GameMap) (pi : nat) (input_actions : list PlayerActions)
    (distance_to_travel : Q) : py GameMap :=
  '(m, loc) ← for_each (manage_input_action pi distance_to_travel) input_actions
                (m, mkInputLocals false false false false);
  let m := if negb (special_was_pressed loc)
           then update_player m pi (set_wait_for_special_release false) else m in
  let m := if negb (bomb_was_pressed loc)
           then update_player m pi (set_wait_for_bomb_release false) else m in
  Ok m.

(** [Player.__manage_kick_box]. *)
Definition manage_kick_box (m : GameMap) (pi : nat) (collision_happened : bool) : GameMap :=
  if collision_happened then
    let self := player_at m pi in
    let bomb_movement :=
      match state self with
      | STATE_WALKING_UP => BOMB_ROLLING_UP
      | STATE_WALKING_RIGHT => BOMB_ROLLING_RIGHT
      | STATE_WALKING_DOWN => BOMB_ROLLING_DOWN
      | STATE_WALKING_LEFT => BOMB_ROLLING_LEFT
      | _ => BOMB_NO_MOVEMENT
      end in
    let direction_vector := get_direction_vector self in
    let forward_tile := get_forward_tile_position self in
    if (has_shoe self || has_boxing_glove self) && tile_has_bomb m forward_tile then
      match bomb_on_tile m forward_tile with
      | Some bomb_hit =>
          if boxing self then
            update_bomb m bomb_hit (λ bomb,
              send_flying bomb (position_add forward_tile (position_mul_int direction_vector 3)))
          else if has_shoe self then
            update_bomb m bomb_hit (λ bomb,
              let bp := bomb_position bomb in
              set_movement bomb_movement
                (set_bomb_position
                   (if bool_decide (bomb_movement = BOMB_ROLLING_LEFT
                                    ∨ bomb_movement = BOMB_ROLLING_RIGHT)
                    then mkCoordinate (inject_Z (Qfloor (co_col bp)) + half)%Q (co_row bp)
                    else mkCoordinate (inject_Z (Qfloor (co_col bp))) (co_row bp + half)%Q)
                   bomb))
          else m
      | None => m
      end
    else m
  else m.

(** [Player.__resolve_collisions]: the map after the call and whether a
    collision happened. *)
Definition resolve_collisions (m : GameMap) (pi : nat) (distance_to_travel : Q)
    (previous_position : Coordinate) : py (GameMap * bool) :=
  let self := player_at m pi in
  collision_type ← get_position_collision_type m (player_position self);
  let against_or_along (against : PlayerState) (along1 along2 : PlayerState)
        (shift : Coordinate) :=
    if decide (state self = against) then
      (update_player m pi (set_player_position previous_position), true)
    else if decide (state self = along1 ∨ state self = along2) then
      (update_player m pi (λ self,
         set_player_position (coordinate_add (player_position self) shift) self), false)
    else (m, false) in
  Ok match collision_type with
     | COLLISION_TOTAL =>
         (update_player m pi (set_player_position previous_position), true)
     | COLLISION_BORDER_UP =>
         against_or_along STATE_WALKING_UP STATE_WALKING_LEFT STATE_WALKING_RIGHT
           (mkCoordinate distance_to_travel 0%Q)
     | COLLISION_BORDER_DOWN =>
         against_or_along STATE_WALKING_DOWN STATE_WALKING_LEFT STATE_WALKING_RIGHT
           (mkCoordinate (-1 * distance_to_travel)%Q 0%Q)
     | COLLISION_BORDER_RIGHT =>
         against_or_along STATE_WALKING_RIGHT STATE_WALKING_UP STATE_WALKING_DOWN
           (mkCoordinate 0%Q (- 1 * distance_to_travel)%Q)
     | COLLISION_BORDER_LEFT =>
         against_or_along STATE_WALKING_LEFT STATE_WALKING_UP STATE_WALKING_DOWN
           (mkCoordinate 0%Q distance_to_travel)
     | COLLISION_NONE => (m, false)
     end.

(** The [while self.bombs_left > 0] loop of the multibomb.  Every iteration
    that does not break lays one bomb and so lowers [bombs_left] by one: the
    loop is a recursion on [n = bombs_left] (no iteration when it is not
    positive). *)
Fixpoint multibomb_loop (n : nat) (pi : nat) (current_tile tile_increment : Position)
    (i : Z) (m : GameMap) : py GameMap :=
  match n with
  | O => Ok m
  | S n' =>
      let next_tile := position_add current_tile (position_mul_int tile_increment i) in
      walkable ← tile_is_walkable m next_tile;
      if negb (walkable : bool) || (0 <? tile_has_player m next_tile) then Ok m
      else multibomb_loop n' pi current_tile tile_increment (i + 1)
             (lay_bomb m pi (Some next_tile))
  end.

Definition idle_state (s : PlayerState) : PlayerState :=
  match s with
  | STATE_WALKING_UP | STATE_IDLE_UP => STATE_IDLE_UP
  | STATE_WALKING_RIGHT | STATE_IDLE_RIGHT => STATE_IDLE_RIGHT
  | STATE_WALKING_DOWN | STATE_IDLE_DOWN => STATE_IDLE_DOWN
  | _ => STATE_IDLE_LEFT
  end.

(** The stages of [Player.react_to_inputs], in the order of the source. *)

(** A player in the air or in a teleport: the state time runs, and the
    player is back when it has run out; the result says whether
    [react_to_inputs] goes on. *)
Definition react_air (m : GameMap) (pi : nat) (dt : Z) : GameMap * bool :=
  let self := player_at m pi in
  if bool_decide (state self = STATE_IN_AIR ∨ state self = STATE_TELEPORTING) then
    let m := update_player m pi (λ self, set_state_time (state_time self + dt) self) in
    let self := player_at m pi in
    if state_time self >=?
         (if decide (state self = STATE_IN_AIR) then JUMP_DURATION else TELEPORT_DURATION)
    then (update_player m pi (λ self,
            set_teleporting_to None (set_jumping_to None
              (set_state_time 0 (set_state (state_backup self) self)))), true)
    else (m, false)
  else (m, true).

(** The throwing time runs, the state becomes idle, the intents of the tick
    are cleared. *)
Definition react_reset (m : GameMap) (pi : nat) (dt : Z) : GameMap :=
  update_player m pi (λ self,
    set_boxing false (set_throwing false (set_putting_multibomb false
      (set_putting_bomb false
         (set_state (idle_state (state self))
            (set_throwing_time_left
               (Z.max 0 (throwing_time_left self - dt)) self)))))).

(** The collision check; [current_tile] is the player's tile after the
    inputs. *)
Definition react_collisions (m : GameMap) (pi : nat) (distance_to_travel : Q)
    (previous_position : Coordinate) (current_tile : Position) : py (GameMap * bool) :=
  let previous_tile := position_to_tile previous_position in
  let transitioning_tiles := negb (position_eqb current_tile previous_tile) in
  let m := if transitioning_tiles
           then update_player m pi (set_wait_for_tile_transition false) else m in
  let check_collisions :=
    negb (tile_has_bomb m current_tile && negb transitioning_tiles) in
  if check_collisions
  then resolve_collisions m pi distance_to_travel previous_position
  else Ok (m, false).

(** [if self.putting_bomb and not tile_has_bomb(...) and not
    tile_has_teleport(...): self.lay_bomb(game_map)]. *)
Definition react_lay (m : GameMap) (pi : nat) : py GameMap :=
  if putting_bomb (player_at m pi)
     && negb (tile_has_bomb m (player_tile_position (player_at m pi)))
  then
    teleport ← tile_has_teleport m (position_to_tile (player_position (player_at m pi)));
    Ok (if negb (teleport : bool) then lay_bomb m pi None else m)
  else Ok m.

(** The throw of the bomb on [current_tile], or else the multibomb. *)
Definition react_throw (m : GameMap) (pi : nat) (current_tile : Position) : py GameMap :=
  if throwing (player_at m pi) then
    match bomb_on_tile m current_tile with
    | Some bomb_thrown =>
        let self := player_at m pi in
        let forward_tile := get_forward_tile_position self in
        let direction_vector := get_direction_vector self in
        let m := update_bomb m bomb_thrown (λ bomb,
                   send_flying bomb
                     (position_add forward_tile (position_mul_int direction_vector 3))) in
        Ok (update_player m pi (λ self,
              set_throwing_time_left 200 (set_wait_for_bomb_release true self)))
    | None => Ok m
    end
  else if putting_multibomb (player_at m pi) then
    let self := player_at m pi in
    multibomb_loop (Z.to_nat (bombs_left self)) pi (player_tile_position self)
      (get_direction_vector self) 1 m
  else Ok m.

(** The disease runs out. *)
Definition react_disease (m : GameMap) (pi : nat) (dt : Z) : GameMap :=
  if decide (disease (player_at m pi) ≠ DISEASE_NONE) then
    let m := update_player m pi (λ self,
               set_disease_time_left (Z.max 0 (disease_time_left self - dt)) self) in
    if disease_time_left (player_at m pi) =? 0
    then update_player m pi (λ self,
           set_info_board_update_needed true (set_disease DISEASE_NONE self))
    else m
  else m.

(** [if old_state == self.state: self.state_time += dt] and its [else], the
    reset of the state time. *)
Definition react_state_time (m : GameMap) (pi : nat) (dt : Z) (old_state : PlayerState)
    : GameMap :=
  update_player m pi (λ self,
    if decide (old_state = state self)
    then set_state_time (state_time self + dt) self
    else set_state_time 0 self).

(** [Player.react_to_inputs] for the player behind reference [pi]: the map
    after the call and the input list, to which a diarrhea bomb action may
    have been appended. *)
Definition react_to_inputs (m : GameMap) (pi : nat) (input_actions : list PlayerActions)
    (dt : Z) : py (GameMap * list PlayerActions) :=
  let self := player_at m pi in
  if bool_decide (state self = STATE_DEAD) || bool_decide (map_state m = STATE_WAITING_TO_PLAY)
  then Ok (m, input_actions)
  else
    let '(m, go_on) := react_air m pi dt in
    if negb go_on then Ok (m, input_actions)
    else
      let self := player_at m pi in
      let current_speed :=
        if decide (disease self ≠ DISEASE_SLOW) then speed self else SLOW_SPEED in
      let distance_to_travel := distance_in dt current_speed in
      let old_state := state self in
      let previous_position := player_position self in
      let m := react_reset m pi dt in
      let input_actions :=
        if decide (disease (player_at m pi) = DISEASE_DIARRHEA)
        then input_actions ++ [mkPlayerActions (number (player_at m pi)) ACTION_BOMB]
        else input_actions in
      m ← manage_input_actions m pi input_actions distance_to_travel;
      let current_tile := player_tile_position (player_at m pi) in
      '(m, collision_happened) ←
        react_collisions m pi distance_to_travel previous_position current_tile;
      m ← react_lay m pi;
      let m := manage_kick_box m pi collision_happened in
      m ← react_throw m pi current_tile;
      let m := react_disease m pi dt in
      let m := react_state_time m pi dt old_state in
      Ok (m, input_actions).

(** ** Map construction

    [GameMap.__init__] up to and including the placement of the map items:
    the parse of the tile characters ([string_split[3]]) and the loop over
    the item letters ([string_split[2]]).  The constructor goes on to build
    the danger map, the players and their starting items; an exception
    raised here leaves it before that. *)

(** [GameMap.letter_to_item]. *)
Definition letter_to_item (c : ascii) : Z :=
  if Ascii.eqb c "f" then 1          (* ITEM_FLAME *)
  else if Ascii.eqb c "F" then 2     (* ITEM_SUPERFLAME *)
  else if Ascii.eqb c "b" then 0     (* ITEM_BOMB *)
  else if Ascii.eqb c "k" then 7     (* ITEM_SHOE *)
  else if Ascii.eqb c "s" then 3     (* ITEM_SPEEDUP *)
  else if Ascii.eqb c "p" then 6     (* ITEM_SPRING *)
  else if Ascii.eqb c "m" then 8     (* ITEM_MULTIBOMB *)
  else if Ascii.eqb c "d" then 4     (* ITEM_DISEASE *)
  else if Ascii.eqb c "r" then 5     (* ITEM_RANDOM *)
  else if Ascii.eqb c "x" then 9     (* ITEM_BOXING_GLOVE *)
  else if Ascii.eqb c "e" then 10    (* ITEM_DETONATOR *)
  else if Ascii.eqb c "t" then 11    (* ITEM_THROWING_GLOVE *)
  else -1.

Definition char_in (c : ascii) (cs : list ascii) : bool :=
  existsb (Ascii.eqb c) cs.

(** [str.islower] and [str.lower] on one ASCII character. *)
Definition is_lower (c : ascii) : bool :=
  (97 <=? Z.of_nat (nat_of_ascii c)) && (Z.of_nat (nat_of_ascii c) <=? 122).
Definition to_lower (c : ascii) : ascii :=
  if (65 <=? Z.of_nat (nat_of_ascii c)) && (Z.of_nat (nat_of_ascii c) <=? 90)
  then ascii_of_nat (nat_of_ascii c + 32) else c.

(** The state of the parse loop. *)
Record ParseState : Set := mkParseState {
  ps_tiles : list (list MapTile);
  ps_line : Z;
  ps_column : Z;
  teleport_a_tile : option Position;
  teleport_b_tile : option Position;
  ps_number_of_blocks : Z;
  block_tiles : list Position;       (* the Block tile objects, by position *)
  starting_positions : list Coordinate
}.

(** A teleport tile: the first instance is remembered, a later one is
    linked with it both ways. *)
Definition pair_teleport (pending : option Position) (tile : MapTile)
    (ts : list (list MapTile)) : py (MapTile * list (list MapTile) * option Position) :=
  match pending with
  | None => Ok (tile, ts, Some (coordinates tile))
  | Some other =>
      ts' ← grid_alter (set_destination_teleport (Some (coordinates tile))) ts other;
      Ok (set_destination_teleport (Some other) tile, ts', pending)
  end.

(** The body of [for i in range(len(string_split[3]))]. *)
Definition parse_tile (i : Z) (tile_character : ascii) (s : ParseState) : py ParseState :=
  let new_row := i mod pos_col MAP_SIZE =? 0 in
  let line := if new_row then ps_line s + 1 else ps_line s in
  let column := if new_row then 0 else ps_column s in
  let ts := if new_row then ps_tiles s ++ [[]] else ps_tiles s in
  let tile := new_tile (mkPosition column line) in
  '(tile, ts, ta, tb, blocks, tile_character) ←
    (if Ascii.eqb tile_character "x" then
       Ok (set_kind TILE_BLOCK tile, ts, teleport_a_tile s, teleport_b_tile s,
           block_tiles s ++ [coordinates tile], tile_character)
     else if Ascii.eqb tile_character "#" then
       Ok (set_kind TILE_WALL tile, ts, teleport_a_tile s, teleport_b_tile s,
           block_tiles s, tile_character)
     else if char_in tile_character ["u"; "r"; "d"; "l"; "U"; "R"; "D"; "L"]%char then
       let tile := set_kind (if is_lower tile_character then TILE_FLOOR else TILE_BLOCK)
                            tile in
       let tile_character := to_lower tile_character in
       let tile :=
         set_special_object
           (Some (if Ascii.eqb tile_character "u" then SPECIAL_OBJECT_ARROW_UP
                  else if Ascii.eqb tile_character "r" then SPECIAL_OBJECT_ARROW_RIGHT
                  else if Ascii.eqb tile_character "d" then SPECIAL_OBJECT_ARROW_DOWN
                  else SPECIAL_OBJECT_ARROW_LEFT)) tile in
       Ok (tile, ts, teleport_a_tile s, teleport_b_tile s, block_tiles s, tile_character)
     else if Ascii.eqb tile_character "A" then
       '(tile, ts, ta) ← pair_teleport (teleport_a_tile s)
                           (set_special_object (Some SPECIAL_OBJECT_TELEPORT_A) tile) ts;
       Ok (tile, ts, ta, teleport_b_tile s, block_tiles s, tile_character)
     else if Ascii.eqb tile_character "B" then
       '(tile, ts, tb) ← pair_teleport (teleport_b_tile s)
                           (set_special_object (Some SPECIAL_OBJECT_TELEPORT_A) tile) ts;
       Ok (tile, ts, teleport_a_tile s, tb, block_tiles s, tile_character)
     else if Ascii.eqb tile_character "T" then
       Ok (set_special_object (Some SPECIAL_OBJECT_TRAMPOLINE) tile, ts,
           teleport_a_tile s, teleport_b_tile s, block_tiles s, tile_character)
     else if Ascii.eqb tile_character "V" then
       Ok (set_special_object (Some SPECIAL_OBJECT_LAVA) tile, ts,
           teleport_a_tile s, teleport_b_tile s, block_tiles s, tile_character)
     else
       Ok (tile, ts, teleport_a_tile s, teleport_b_tile s, block_tiles s, tile_character));
  let blocks_count :=
    if decide (kind tile = TILE_BLOCK)
    then ps_number_of_blocks s + 1 else ps_number_of_blocks s in
  let ts := alter (λ row, row ++ [tile]) (pred (length ts)) ts in
  let code := Z.of_nat (nat_of_ascii tile_character) in
  starts ←
    (if (48 <=? code) && (code <=? 57) then
       py_set (starting_positions s) (code - 48)
              (mkCoordinate (inject_Z column) (inject_Z line))
     else Ok (starting_positions s));
  Ok (mkParseState ts line (column + 1) ta tb blocks_count blocks starts).

Fixpoint parse_tiles (i : Z) (cs : list ascii) (s : ParseState) : py ParseState :=
  match cs with
  | [] => Ok s
  | c :: cs' => s' ← parse_tile i c s; parse_tiles (i + 1) cs' s'
  end.

(** [random.choice(l)] with the generator's next draw [r]: IndexError on an
    empty list, otherwise the element at [r mod len(l)]. *)
Definition random_choice {A} (r : nat) (l : list A) : py (nat * A) :=
  match l !! (r mod length l)%nat with
  | Some x => Ok ((r mod length l)%nat, x)
  | None => Raise IndexError
  end.

(** The loop [for i in range(len(string_split[2]))] that places the items
    under the block tiles; [rnd k] is the generator's [k]-th draw. *)
Fixpoint place_items (rnd : nat → nat) (k : nat) (items : list ascii)
    (blocks : list Position) (ts : list (list MapTile)) : py (list (list MapTile)) :=
  match items with
  | [] => Ok ts
  | letter :: items' =>
      '(j, random_tile) ← random_choice (rnd k) blocks;
      ts' ← grid_alter (set_item (Some (letter_to_item letter))) ts random_tile;
      place_items rnd (S k) items' (delete j blocks) ts'
  end.

Definition initial_parse_state : ParseState :=
  mkParseState [] (-1) 0 None None 0 [] (replicate 10 (mkCoordinate 0%Q 0%Q)).

(** The tiles of a new map: the parse followed by the item placement. *)
Definition init_tiles (rnd : nat → nat) (map_items tile_characters : string)
    : py (ParseState * list (list MapTile)) :=
  s ← parse_tiles 0 (list_ascii_of_string tile_characters) initial_parse_state;
  ts ← place_items rnd 0 (list_ascii_of_string map_items) (block_tiles s) (ps_tiles s);
  Ok (s, ts).

(** ** Well-formed grids *)

(** The grid has [MAP_SIZE] rows and columns, as built from a map string of
    the right length. *)
Definition grid_ok {A} (g : list (list A)) : bool :=
  (Z.of_nat (length g) =? pos_row MAP_SIZE)
  && forallb (λ line : list A, Z.of_nat (length line) =? pos_col MAP_SIZE) g.

(** The cell at an in-map position, as a total function. *)
Definition cell {A} (dflt : A) (g : list (list A)) (p : Position) : A :=
  default dflt (g !! Z.to_nat (pos_row p) ≫= λ line, line !! Z.to_nat (pos_col p)).

(** The grid after the cell at [p] has been replaced by [f] of it. *)
Definition grid_update {A} (f : A → A) (g : list (list A)) (p : Position)
    : list (list A) :=
  alter (alter f (Z.to_nat (pos_col p))) (Z.to_nat (pos_row p)) g.

Definition tile_of (ts : list (list MapTile)) (p : Position) : MapTile :=
  cell (new_tile p) ts p.

(** ** Sample states

    Concrete maps on which the theorems below are instantiated. *)

Definition sample_tile_characters : string :=
  "..............." ++
  ".#x............" ++
  "..............." ++
  "......x...V...." ++
  "..............." ++
  "..A.......A...." ++
  "..............." ++
  "..............." ++
  "..............." ++
  "..............." ++
  "...............".

(** The tiles parsed from [sample_tile_characters], without map items. *)
Definition sample_tiles : list (list MapTile) :=
  match init_tiles (λ _, 0%nat) "" sample_tile_characters with
  | Ok (_, ts) => ts
  | Raise _ => []
  end.

(** [Player.__init__], then [set_number] and [move_to_tile_center]. *)
Definition new_player (n : Z) (team : Z) (start : Coordinate) : Player :=
  mkPlayer (tile_center start) n team STATE_IDLE_DOWN 0 INITIAL_SPEED 1 1
           false false 0 DISEASE_NONE false false false false 0 []
           false false 0 STATE_IDLE_UP (Some (mkPosition 0 0)) (Some (mkPosition 0 0))
           false true false false false.

(** A stationary bomb of player 0 at the centre of tile (col, row). *)
Definition bomb_on (col row : Z) : Bomb :=
  set_bomb_position (tile_center (coordinate_of_position (mkPosition col row)))
    (new_bomb 0 (new_player 0 0 (mkCoordinate 0%Q 0%Q))).

(** A map in play with the sample tiles, the given bombs (all of them live)
    and players. *)
Definition sample_map (bs : list Bomb) (ps : list Player) : GameMap :=
  mkGameMap sample_tiles (seq 0 (length bs)) bs ps
            (replicate 11 (replicate 15 SAFE_DANGER_VALUE)) false 2 STATE_PLAYING 3000.

(** ** Notions used in the statements *)

(** Every live bomb has its tile position inside the map. *)
Definition bombs_in_map (m : GameMap) : bool :=
  forallb (λ b, tile_is_withing_map (bomb_tile_position (bomb_at m b))) (bombs m).

(** The time that [update_danger_map] spreads for a bomb. *)
Definition danger_time (b : Bomb) : Z :=
  if has_detonator b then 100 else time_until_explosion b.

(** The danger grid after [d[row][col] = min(d[row][col], t)] at [q]. *)
Definition min_write (t : Z) (d : list (list Z)) (q : Position) : list (list Z) :=
  grid_update (λ _, Z.min (cell 0 d q) t) d q.

(** [Q] is preserved by every min-write of the time [t] at an in-map
    position. *)
Definition preserved_by (Q : list (list Z) → Prop) (t : Z) : Prop :=
  ∀ d q, grid_ok d = true → tile_is_withing_map q = true → Q d → Q (min_write t d q).

(** [m] is [m0] with another danger grid, which is well-formed and has [Q]. *)
Definition danger_state (Q : list (list Z) → Prop) (m0 m : GameMap) : Prop :=
  m = set_danger_map m0 (danger_map m)
  ∧ grid_ok (danger_map m) = true ∧ Q (danger_map m).

(** A bomb of player 0 that is flying over tile (col, row) and whose fuse
    ran out 100 ms ago. *)
Definition expired_flying_bomb (col row : Z) : Bomb :=
  set_time_of_existence 3100 (set_movement BOMB_FLYING (bomb_on col row)).

(** ** The flame footprint, in the words of the specification

    "For each of the 4 axis directions independently, walk outward up to
    flame_length tiles.  For each step: if the next tile is out of map
    bounds, stop that direction; if it is a Wall, stop without placing
    flame; otherwise place a flame there and, if the tile is a Block, stop
    that direction; flame continues past Floor tiles."  [k] gives the kind
    of a tile. *)

Definition neighbour (p : Position) (d : Direction) : Position :=
  position_add p (tile_increment d).

Fixpoint flame_ray (k : Position → TileKind) (p : Position) (d : Direction) (n : nat)
    : list Position :=
  match n with
  | O => []
  | S n' =>
      let q := neighbour p d in
      if tile_is_withing_map q then
        match k q with
        | TILE_WALL => []
        | TILE_BLOCK => [q]
        | TILE_FLOOR => q :: flame_ray k q d n'
        end
      else []
  end.

(** The tiles that receive a flame, with multiplicity: the bomb's own tile
    and the four rays. *)
Definition flame_footprint (k : Position → TileKind) (bp : Position) (n : nat)
    : list Position :=
  bp :: flame_ray k bp DirUp n ++ flame_ray k bp DirRight n
     ++ flame_ray k bp DirDown n ++ flame_ray k bp DirLeft n.

(** The tile [j] steps from [p] in direction [d]. *)
Definition ray_tile (p : Position) (d : Direction) (j : Z) : Position :=
  position_add p (position_mul_int (tile_increment d) j).

Definition kind_at (ts : list (list MapTile)) (q : Position) : TileKind :=
  kind (tile_of ts q).

Definition flame_count (ts : list (list MapTile)) (p : Position) : nat :=
  length (flames (tile_of ts p)).

Definition occurrences (p : Position) (l : list Position) : nat :=
  length (filter (λ q, q = p) l).

(** A tile without its flames: what an explosion leaves untouched. *)
Definition strip (t : MapTile) : MapTile := set_flames [] t.

(** ** The flame walk of [bomb_explodes], direction by direction *)

(** The flames that a walk at axis position [a] still places in [n] more
    iterations. *)
Fixpoint walk_rest (k : Position → TileKind) (bp : Position) (d : Direction) (a : Z)
    (n : nat) : list Position :=
  match n with
  | O => []
  | S n' =>
      if inside_limit d a then
        let q := flame_target bp d a in
        match k q with
        | TILE_WALL => []
        | TILE_BLOCK => [q]
        | TILE_FLOOR => q :: walk_rest k bp d (a + increment d) n'
        end
      else []
  end.

Definition walk_todo (k : Position → TileKind) (bp : Position) (d : Direction)
    (w : FlameWalk) (n : nat) : list Position :=
  if flame_stop w then [] else walk_rest k bp d (axis_position w) n.

(** The coordinate of [p] along the axis of direction [d]. *)
Definition axis_of (p : Position) (d : Direction) : Z :=
  if goes_horizontally d then pos_col p else pos_row p.

(** A walk stays on its side of the bomb and remembers only in-map tiles. *)
Definition walk_ok (bp : Position) (d : Direction) (w : FlameWalk) : Prop :=
  (if increment d =? -1 then axis_position w < axis_of bp d
   else axis_of bp d < axis_position w)
  ∧ ∀ q, previous_flame w = Some q → tile_is_withing_map q = true.

(** [m] is [m0] with other flames on its tiles. *)
Definition flames_changed (m0 m : GameMap) : Prop :=
  m = set_tiles m0 (tiles m)
  ∧ grid_ok (tiles m) = true
  ∧ ∀ q, tile_is_withing_map q = true →
         strip (tile_of (tiles m) q) = strip (tile_of (tiles m0) q).

Definition walks_todo (k : Position → TileKind) (bp : Position) (ws : FlameWalks)
    (n : nat) : list Position :=
  let '(w0, w1, w2, w3) := ws in
  walk_todo k bp DirUp w0 n ++ walk_todo k bp DirRight w1 n
    ++ walk_todo k bp DirDown w2 n ++ walk_todo k bp DirLeft w3 n.

Definition walks_ok (bp : Position) (ws : FlameWalks) : Prop :=
  let '(w0, w1, w2, w3) := ws in
  walk_ok bp DirUp w0 ∧ walk_ok bp DirRight w1
  ∧ walk_ok bp DirDown w2 ∧ walk_ok bp DirLeft w3.

(** A flame from a bomb at [bp] with flame length [n] reaches [p] along
    direction [d]: [p] is at most [n] steps away on that axis, inside the
    map and no Wall, and every tile before it is inside the map and Floor. *)
Definition flame_reaches (k : Position → TileKind) (bp : Position) (n : Z)
    (d : Direction) (p : Position) : Prop :=
  ∃ j, 1 <= j <= n ∧ p = ray_tile bp d j
       ∧ tile_is_withing_map p = true ∧ k p ≠ TILE_WALL
       ∧ ∀ i, 1 <= i < j →
              tile_is_withing_map (ray_tile bp d i) = true
              ∧ k (ray_tile bp d i) = TILE_FLOOR.

(** Two sample players: number 0 at tile (3, 4) and number 1 at (8, 8). *)
Definition sample_players : list Player :=
  [new_player 0 0 (coordinate_of_position (mkPosition 3 4));
   new_player 1 1 (coordinate_of_position (mkPosition 8 8))].

(** No Wall tile inside the map carries a flame. *)
Definition walls_bare (ts : list (list MapTile)) : Prop :=
  ∀ p, tile_is_withing_map p = true → kind_at ts p = TILE_WALL → flame_count ts p = 0%nat.

(** The four unit vectors along an axis. *)
Definition is_unit_direction (d : Position) : Prop :=
  d = mkPosition 0 (-1) ∨ d = mkPosition 1 0 ∨ d = mkPosition 0 1 ∨ d = mkPosition (-1) 0.

(** ** Frames for the bomb update *)

(** A bomb without its position, movement and flight data, and a tile
    without its item: what moving a bomb leaves untouched. *)
Definition strip_motion (b : Bomb) : Bomb :=
  set_bomb_position (mkCoordinate 0%Q 0%Q)
    (set_movement BOMB_NO_MOVEMENT (set_flight_info default_flight_info b)).
Definition strip_item (t : MapTile) : MapTile := set_item None t.

(** [m'] is [m] after bomb [b] has moved: only the motion data of [b] and
    the items of tiles may differ. *)
Definition bomb_moved (b : nat) (m m' : GameMap) : Prop :=
  m' = set_tiles (set_bomb_heap m (bomb_heap m')) (tiles m')
  ∧ length (bomb_heap m') = length (bomb_heap m)
  ∧ (∀ b', b' ≠ b → bomb_at m' b' = bomb_at m b')
  ∧ strip_motion (bomb_at m' b) = strip_motion (bomb_at m b)
  ∧ grid_ok (tiles m') = true
  ∧ ∀ p, tile_is_withing_map p = true →
         strip_item (tile_of (tiles m') p) = strip_item (tile_of (tiles m) p).

(** Kinds and special objects of the in-map tiles agree. *)
Definition same_layout (ts ts' : list (list MapTile)) : Prop :=
  ∀ p, tile_is_withing_map p = true →
       kind (tile_of ts' p) = kind (tile_of ts p)
       ∧ special_object (tile_of ts' p) = special_object (tile_of ts p).

(** The two tests of [__update_bombs] that make a bomb explode, on the
    bomb as it is before the update adds [dt] to its age. *)
Definition fuse_is_up (dt : Z) (bomb : Bomb) : bool :=
  bool_decide (movement bomb ≠ BOMB_FLYING)
  && (time_of_existence bomb + dt >? explodes_in bomb + detonator_time bomb).
Definition burns_on_lava (ts : list (list MapTile)) (bomb : Bomb) : bool :=
  bool_decide (movement bomb ≠ BOMB_FLYING)
  && bool_decide (special_object (tile_of ts (bomb_tile_position bomb))
                  = Some SPECIAL_OBJECT_LAVA)
  && near_tile_center (bomb_position bomb).

(** The bomb after [bomb.time_of_existence += dt]. *)
Definition aged (dt : Z) (bomb : Bomb) : Bomb :=
  set_time_of_existence (time_of_existence bomb + dt) bomb.

(** The loop of [__update_bombs] is about to look at index [i]: the grid is
    well formed, no bomb is listed twice, and the bombs from [i] on are
    inside the map. *)
Definition bombs_pending_ok (i : nat) (m : GameMap) : Prop :=
  grid_ok (tiles m) = true ∧ NoDup (bombs m)
  ∧ ∀ j b, (i ≤ j)%nat → bombs m !! j = Some b →
           tile_is_withing_map (bomb_tile_position (bomb_at m b)) = true.

(** Every reference in the list of live bombs points into the heap. *)
Definition bomb_refs_ok (m : GameMap) : bool :=
  forallb (λ b, (b <? length (bomb_heap m))%nat) (bombs m).

(** The invariant of the loop of [__update_bombs] started on [m0], at index
    [i] and map [m]. *)
Definition update_bombs_inv (m0 : GameMap) (i : nat) (m : GameMap) : Prop :=
  bombs_pending_ok i m
  ∧ (∀ b, b ∈ bombs m → (b < length (bomb_heap m))%nat)
  ∧ same_layout (tiles m0) (tiles m)
  ∧ bombs m `sublist_of` bombs m0
  ∧ length (bomb_heap m) = length (bomb_heap m0).

(** What [__update_bombs], run on [m0] for [dt] ms, has done to the bomb
    [b0] in the map [m]. *)
Definition bomb_outcome (dt : Z) (m0 : GameMap) (b0 : nat) (m : GameMap) : Prop :=
  let test := fuse_is_up dt (bomb_at m0 b0) || burns_on_lava (tiles m0) (bomb_at m0 b0) in
  has_exploded (bomb_at m b0) = test
  ∧ (b0 ∈ bombs m ↔ test = false)
  ∧ (test = false → strip_motion (bomb_at m b0) = strip_motion (aged dt (bomb_at m0 b0))).

(** Bomb [b0] is still to be looked at by the loop at index [i]. *)
Definition bomb_pending (b0 : nat) (i : nat) (m : GameMap) : Prop :=
  ∃ j, (i ≤ j)%nat ∧ bombs m !! j = Some b0.

Definition update_bombs_inv_for (dt : Z) (m0 : GameMap) (b0 : nat) (i : nat)
    (m : GameMap) : Prop :=
  update_bombs_inv m0 i m
  ∧ ((bomb_pending b0 i m ∧ bomb_at m b0 = bomb_at m0 b0)
     ∨ (¬ bomb_pending b0 i m ∧ bomb_outcome dt m0 b0 m)).

(** ** Frames for the tile pass *)

(** A tile without its flames, its [to_be_destroyed] mark and its item: what
    the flame loop of the tile pass leaves untouched on its own tile. *)
Definition strip_burn (t : MapTile) : MapTile :=
  set_flames [] (set_to_be_destroyed false (set_item None t)).

(** The test of the tile pass that turns a tile into Floor. *)
Definition block_burnt_out (t : MapTile) : bool :=
  to_be_destroyed t && bool_decide (kind t = TILE_BLOCK) && bool_decide (flames t = []).

Definition has_flames (t : MapTile) : bool := negb (bool_decide (flames t = [])).

(** The sample map with no bombs and the Block tile at (2, 1) marked
    [to_be_destroyed]. *)
Definition burnt_block_map : GameMap :=
  set_tiles (sample_map [] sample_players)
    (grid_update (set_to_be_destroyed true) sample_tiles (mkPosition 2 1)).

(** ** The rebuilt danger grid

    What [update_danger_map] computes, tile by tile.  The walk of a bomb in
    one direction goes on while the tile is walkable and inside the map,
    for at most [flame_length] tiles. *)

Definition walkable_at (m : GameMap) (p : Position) : bool :=
  match tile_is_walkable m p with
  | Ok w => w && tile_is_withing_map p
  | Raise _ => false
  end.

Fixpoint danger_ray (m : GameMap) (p : Position) (d : Direction) (n : nat)
    : list Position :=
  match n with
  | O => []
  | S n' =>
      if walkable_at m p then p :: danger_ray m (neighbour p d) d n' else []
  end.

(** The tiles on which [update_danger_map] min-merges the time of bomb
    [b]: its own tile and the four walks from its neighbours. *)
Definition danger_reach (m : GameMap) (b : nat) : list Position :=
  let bomb_tile := bomb_tile_position (bomb_at m b) in
  let n := Z.to_nat (bomb_flame_length (bomb_at m b)) in
  bomb_tile
    :: danger_ray m (neighbour bomb_tile DirUp) DirUp n
    ++ danger_ray m (neighbour bomb_tile DirRight) DirRight n
    ++ danger_ray m (neighbour bomb_tile DirDown) DirDown n
    ++ danger_ray m (neighbour bomb_tile DirLeft) DirLeft n.

(** The value of tile [q] after a rebuild: the reset value, lowered to the
    time of every live bomb that reaches [q]. *)
Definition lower_by (m : GameMap) (q : Position) (v : Z) (b : nat) : Z :=
  if bool_decide (q ∈ danger_reach m b) then Z.min v (danger_time (bomb_at m b)) else v.

Definition rebuilt_danger (m : GameMap) (q : Position) : Z :=
  foldl (lower_by m q)
    (if should_not_walk (tile_of (tiles m) q) then 0 else SAFE_DANGER_VALUE)
    (bombs m).

(** What a walk of [update_danger_map] still writes in [n] iterations. *)
Definition danger_todo (m : GameMap) (d : Direction) (w : DangerWalk) (n : nat)
    : list Position :=
  if walk_stop w then [] else danger_ray m (walk_position w) d n.

Definition danger_todos (m : GameMap) (ws : DangerWalks) (n : nat) : list Position :=
  let '(w0, w1, w2, w3) := ws in
  danger_todo m DirUp w0 n ++ danger_todo m DirRight w1 n
    ++ danger_todo m DirDown w2 n ++ danger_todo m DirLeft w3 n.

(** The grid after min-writes of [t] at the positions [qs], in order. *)
Definition min_writes (t : Z) (d : list (list Z)) (qs : list Position) : list (list Z) :=
  foldl (min_write t) d qs.

(** ** Counting replenishments *)

(** An explosion of bomb [b] in the map [m] gives player [pl] a bomb back:
    [pl] owns the bomb and the bomb has not exploded yet. *)
Definition replenishes (m : GameMap) (pl : nat) (b : nat) : Prop :=
  bomb_player (bomb_at m b) = pl ∧ has_exploded (bomb_at m b) = false.

#[global] Instance replenishes_dec m pl b : Decision (replenishes m pl b).
Proof. unfold replenishes. apply _. Defined.


(** ** Notions for the tile pass as a whole *)




(** The tile at [q] was a Block in [ts] and is Floor in [ts']. *)
Definition converted (ts ts' : list (list MapTile)) (q : Position) : Prop :=
  kind (tile_of ts q) = TILE_BLOCK ∧ kind (tile_of ts' q) = TILE_FLOOR.

#[global] Instance converted_dec ts ts' q : Decision (converted ts ts' q).
Proof. unfold converted. apply _. Defined.




(** ** Notions for the inputs of a tick *)

(** The actions that the inputs hold for the player with number [n]. *)
Definition own_actions (n : Z) (input_actions : list PlayerActions) : list Action :=
  pa_action <$> filter (λ it, pa_player it = n) input_actions.

(** The list of live bombs and every player's allowance are as before. *)
Definition same_allowance (m0 m : GameMap) : Prop :=
  bombs m = bombs m0
  ∧ ∀ pl, bombs_left (player_at m pl) = bombs_left (player_at m0 pl).

(** [m] is [m0] up to fields of players other than [bombs_left] and
    [number], and the player [pi] has [K]. *)
Definition input_inv (K : Player → Prop) (m0 : GameMap) (pi : nat) (m : GameMap) : Prop :=
  tiles m = tiles m0 ∧ bomb_heap m = bomb_heap m0 ∧ same_allowance m0 m
  ∧ (∀ pl, number (player_at m pl) = number (player_at m0 pl))
  ∧ K (player_at m pi).

(** A player update that leaves the allowance and the number alone. *)
Definition quiet (f : Player → Player) : Prop :=
  ∀ p, bombs_left (f p) = bombs_left p ∧ number (f p) = number p.

(** The player raises no bomb: what the inputs keep when the allowance is
    used up. *)
Definition no_bomb_intent (p : Player) : Prop := putting_bomb p = false.

(** The player stands still at [c] and raises no bomb, multibomb or throw. *)
Definition stands_still (c : Coordinate) (p : Player) : Prop :=
  putting_bomb p = false ∧ putting_multibomb p = false ∧ throwing p = false
  ∧ player_position p = c.

(** The player [pl0] of the sample maps with the multibomb item and an
    allowance of two bombs, standing on tile (3, 4). *)
Definition multibomb_player : Player :=
  mkPlayer (tile_center (coordinate_of_position (mkPosition 3 4))) 0 0 STATE_IDLE_DOWN 0
    INITIAL_SPEED 2 1 false false 0 DISEASE_NONE true false false false 0 [] false false 0
    STATE_IDLE_UP (Some (mkPosition 0 0)) (Some (mkPosition 0 0)) false true false false false.

(** A player update that leaves allowance, number, position and the three
    intents of the tick alone, and a property of players that only depends
    on the position and those intents. *)
Definition gentle (f : Player → Player) : Prop :=
  ∀ p, bombs_left (f p) = bombs_left p ∧ number (f p) = number p
       ∧ player_position (f p) = player_position p
       ∧ putting_bomb (f p) = putting_bomb p
       ∧ putting_multibomb (f p) = putting_multibomb p
       ∧ throwing (f p) = throwing p.

Definition respects (K : Player → Prop) : Prop :=
  ∀ p p', player_position p' = player_position p →
          putting_bomb p' = putting_bomb p →
          putting_multibomb p' = putting_multibomb p →
          throwing p' = throwing p → K p → K p'.

(** A player on tile (3, 4) with no allowance left whose bomb 0 carries a
    detonator. *)
Definition detonator_player : Player :=
  mkPlayer (tile_center (coordinate_of_position (mkPosition 3 4))) 0 0 STATE_IDLE_DOWN 0
    INITIAL_SPEED 0 1 false false 0 DISEASE_NONE false false false false 0 [0%nat] false false 0
    STATE_IDLE_UP (Some (mkPosition 0 0)) (Some (mkPosition 0 0)) false true false false false.
(** * Properties *)

(** ** The grid *)

Lemma within_bounds p :
  tile_is_withing_map p = true ↔
  0 <= pos_col p <= 14 ∧ 0 <= pos_row p <= 10.
Proof.
  unfold tile_is_withing_map, position_ge, position_le, position_sub_int, MAP_SIZE.
  cbn. rewrite !andb_true_iff, !Z.geb_le, !Z.leb_le. lia.
Qed.

Lemma within_bounds_false p :
  tile_is_withing_map p = false ↔
  ¬ (0 <= pos_col p <= 14 ∧ 0 <= pos_row p <= 10).
Proof.
  rewrite <- within_bounds. destruct (tile_is_withing_map p); split; congruence.
Qed.

Lemma py_index_nonneg len i :
  0 <= i < Z.of_nat len → py_index len i = Ok (Z.to_nat i).
Proof.
  intros H. unfold py_index.
  destruct (Z.leb_spec 0 i); [|lia]. destruct (Z.ltb_spec i (Z.of_nat len)); [|lia].
  reflexivity.
Qed.

Lemma py_get_lookup {A} (l : list A) i x :
  l !! Z.to_nat i = Some x → 0 <= i → py_get l i = Ok x.
Proof.
  intros Hl Hi. unfold py_get.
  rewrite py_index_nonneg.
  - cbn. rewrite Hl. reflexivity.
  - apply lookup_lt_Some in Hl. lia.
Qed.

Lemma py_set_nonneg {A} (l : list A) i x :
  0 <= i < Z.of_nat (length l) → py_set l i x = Ok (<[Z.to_nat i := x]> l).
Proof. intros H. unfold py_set. rewrite py_index_nonneg by done. reflexivity. Qed.

Lemma grid_ok_rows {A} (g : list (list A)) :
  grid_ok g = true → length g = 11%nat.
Proof.
  unfold grid_ok, MAP_SIZE. cbn. rewrite andb_true_iff, Z.eqb_eq. lia.
Qed.

Lemma grid_ok_line {A} (g : list (list A)) r line :
  grid_ok g = true → g !! r = Some line → length line = 15%nat.
Proof.
  unfold grid_ok, MAP_SIZE. cbn. rewrite andb_true_iff, forallb_forall.
  intros [_ H] Hl. apply list_elem_of_lookup_2, list_elem_of_In, H in Hl.
  apply Z.eqb_eq in Hl. lia.
Qed.

Lemma grid_lookup {A} (dflt : A) (g : list (list A)) p :
  grid_ok g = true → tile_is_withing_map p = true →
  ∃ line, g !! Z.to_nat (pos_row p) = Some line
          ∧ line !! Z.to_nat (pos_col p) = Some (cell dflt g p).
Proof.
  intros Hg Hp. apply within_bounds in Hp.
  destruct (lookup_lt_is_Some_2 g (Z.to_nat (pos_row p))) as [line Hl].
  { rewrite (grid_ok_rows _ Hg). lia. }
  exists line. split; [done|].
  destruct (lookup_lt_is_Some_2 line (Z.to_nat (pos_col p))) as [t Ht].
  { rewrite (grid_ok_line _ _ _ Hg Hl). lia. }
  unfold cell. rewrite Hl. cbn. rewrite Ht. done.
Qed.

Lemma grid_read_within {A} (dflt : A) (g : list (list A)) p :
  grid_ok g = true → tile_is_withing_map p = true →
  grid_read g p = Ok (cell dflt g p).
Proof.
  intros Hg Hp. destruct (grid_lookup dflt _ _ Hg Hp) as (line & Hl & Ht).
  apply within_bounds in Hp. unfold grid_read.
  rewrite (py_get_lookup _ _ _ Hl) by lia. cbn.
  apply py_get_lookup; [done|lia].
Qed.

Lemma grid_alter_within {A} (f : A → A) (g : list (list A)) p :
  grid_ok g = true → tile_is_withing_map p = true →
  grid_alter f g p = Ok (grid_update f g p).
Proof.
  intros Hg Hp.
  destruct (lookup_lt_is_Some_2 g (Z.to_nat (pos_row p))) as [line Hl].
  { apply within_bounds in Hp. rewrite (grid_ok_rows _ Hg). lia. }
  destruct (lookup_lt_is_Some_2 line (Z.to_nat (pos_col p))) as [t Ht].
  { apply within_bounds in Hp. rewrite (grid_ok_line _ _ _ Hg Hl). lia. }
  apply within_bounds in Hp. unfold grid_alter.
  rewrite (py_get_lookup _ _ _ Hl) by lia. cbn.
  rewrite (py_get_lookup _ _ _ Ht) by lia. cbn.
  rewrite py_set_nonneg by (rewrite (grid_ok_line _ _ _ Hg Hl); lia). cbn.
  rewrite py_set_nonneg by (rewrite (grid_ok_rows _ Hg); lia).
  f_equal. unfold grid_update.
  apply list_eq. intros i.
  destruct (decide (i = Z.to_nat (pos_row p))) as [->|Hne].
  - rewrite list_lookup_insert_eq by (apply lookup_lt_Some in Hl; done).
    rewrite list_lookup_alter_eq, Hl. cbn. f_equal.
    apply list_eq. intros j.
    destruct (decide (j = Z.to_nat (pos_col p))) as [->|Hne].
    + rewrite list_lookup_insert_eq by (apply lookup_lt_Some in Ht; done).
      rewrite list_lookup_alter_eq, Ht. done.
    + rewrite list_lookup_insert_ne, list_lookup_alter_ne by done. done.
  - rewrite list_lookup_insert_ne, list_lookup_alter_ne by done. done.
Qed.

Lemma grid_update_ok {A} (f : A → A) (g : list (list A)) p :
  grid_ok (grid_update f g p) = grid_ok g.
Proof.
  unfold grid_ok, grid_update. rewrite length_alter. f_equal.
  generalize (Z.to_nat (pos_row p)) as r. induction g as [|line g IH]; intros r.
  - done.
  - destruct r; cbn.
    + rewrite length_alter. done.
    + rewrite IH. done.
Qed.

Lemma cell_update {A} (dflt dflt' : A) (f : A → A) (g : list (list A)) p q :
  grid_ok g = true → tile_is_withing_map p = true → tile_is_withing_map q = true →
  cell dflt (grid_update f g p) q
  = if decide (q = p) then f (cell dflt' g p) else cell dflt g q.
Proof.
  intros Hg Hp Hq. destruct (grid_lookup dflt' _ _ Hg Hp) as (line & Hl & Ht).
  destruct (grid_lookup dflt _ _ Hg Hq) as (line' & Hl' & Ht').
  apply within_bounds in Hp. apply within_bounds in Hq.
  unfold cell at 1. unfold grid_update.
  destruct (decide (Z.to_nat (pos_row q) = Z.to_nat (pos_row p))) as [Hr|Hr].
  - rewrite Hr, list_lookup_alter_eq, Hl. cbn.
    rewrite Hr, Hl in Hl'. injection Hl' as <-.
    destruct (decide (Z.to_nat (pos_col q) = Z.to_nat (pos_col p))) as [Hc|Hc].
    + rewrite Hc, list_lookup_alter_eq, Ht. cbn.
      destruct (decide (q = p)) as [->|Hne]; [done|].
      destruct p, q; cbn in *. exfalso. apply Hne. f_equal; lia.
    + rewrite list_lookup_alter_ne, Ht' by done. cbn.
      destruct (decide (q = p)) as [->|Hne]; [done|done].
  - rewrite list_lookup_alter_ne, Hl' by done. cbn. rewrite Ht'. cbn.
    destruct (decide (q = p)) as [->|Hne]; [done|done].
Qed.

Lemma cell_default {A} (d1 d2 : A) (g : list (list A)) p :
  grid_ok g = true → tile_is_withing_map p = true → cell d1 g p = cell d2 g p.
Proof.
  intros Hg Hp. destruct (grid_lookup d1 _ _ Hg Hp) as (line & Hl & Ht).
  unfold cell at 2. rewrite Hl. cbn. rewrite Ht. done.
Qed.

Lemma get_tile_within m p :
  grid_ok (tiles m) = true → tile_is_withing_map p = true →
  get_tile m p = Ok (tile_of (tiles m) p).
Proof. intros. by apply grid_read_within. Qed.

Lemma tile_of_update f ts p q :
  grid_ok ts = true → tile_is_withing_map p = true → tile_is_withing_map q = true →
  tile_of (grid_update f ts p) q
  = if decide (q = p) then f (tile_of ts p) else tile_of ts q.
Proof. intros. unfold tile_of. by apply cell_update. Qed.

Lemma alter_tile_within f m p :
  grid_ok (tiles m) = true → tile_is_withing_map p = true →
  alter_tile f m p = Ok (set_tiles m (grid_update f (tiles m) p)).
Proof.
  intros Hg Hp. unfold alter_tile. rewrite grid_alter_within by done. done.
Qed.

(** ** Walkability *)

Lemma tile_has_bomb_false m p :
  tile_has_bomb m p = false ↔
  ∀ b, b ∈ bombs m → movement (bomb_at m b) ≠ BOMB_FLYING →
       bomb_tile_position (bomb_at m b) ≠ p.
Proof.
  unfold tile_has_bomb, bomb_on_tile, bombs_on_tile.
  rewrite bool_decide_eq_false, head_is_Some. split.
  - intros H b Hb Hfly Hat. apply H. intros Hnil.
    apply (filter_nil_not_elem_of _ _ b Hnil); [split; done|done].
  - intros H Hne.
    destruct (filter _ (bombs m)) as [|b l] eqn:E; [done|].
    assert (Hb : b ∈ b :: l) by left. rewrite <- E in Hb.
    apply list_elem_of_filter in Hb as [[Hfly Hat] Hb]. by eapply H.
Qed.

(** C6. [tile_is_walkable] never raises on a well-formed grid; it answers
    False outside the map, and inside the map it answers True exactly when
    the tile is Floor or marked to be destroyed and no bomb that is not
    flying has its tile position there. *)
Theorem tile_is_walkable_spec (m : GameMap) (p : Position) :
  grid_ok (tiles m) = true →
  ∃ w, tile_is_walkable m p = Ok w
       ∧ (tile_is_withing_map p = false → w = false)
       ∧ (tile_is_withing_map p = true →
          ∃ t, get_tile m p = Ok t
               ∧ (w = true ↔
                  (kind t = TILE_FLOOR ∨ to_be_destroyed t = true)
                  ∧ ∀ b, b ∈ bombs m → movement (bomb_at m b) ≠ BOMB_FLYING →
                         bomb_tile_position (bomb_at m b) ≠ p)).
Proof.
  intros Hg. unfold tile_is_walkable.
  destruct (tile_is_withing_map p) eqn:Hp; cbn.
  - rewrite get_tile_within by done. cbn. eexists. split; [done|].
    split; [done|]. intros _. eexists. split; [done|].
    rewrite !andb_true_iff, orb_true_iff, bool_decide_eq_true, negb_true_iff,
      tile_has_bomb_false. tauto.
  - exists false. split; [done|]. split; [done|]. done.
Qed.

Lemma tile_is_walkable_spec_witness :
  ∃ w, tile_is_walkable (sample_map [bomb_on 3 2] []) (mkPosition 3 2) = Ok w
       ∧ w = false.
Proof.
  destruct (tile_is_walkable_spec (sample_map [bomb_on 3 2] []) (mkPosition 3 2))
    as (w & Hw & _ & Hin); [vm_compute; reflexivity|].
  exists w. split; [exact Hw|].
  destruct (Hin ltac:(vm_compute; reflexivity)) as (t & _ & Hiff).
  destruct w; [|reflexivity].
  destruct (proj1 Hiff eq_refl) as [_ Hb].
  exfalso. apply (Hb 0%nat); [left | vm_compute; discriminate | vm_compute; reflexivity].
Defined.

(** ** Map construction *)

Lemma py_index_raises len i e : py_index len i = Raise e → e = IndexError.
Proof. unfold py_index. repeat case_match; congruence. Qed.

Lemma py_get_raises {A} (l : list A) i e : py_get l i = Raise e → e = IndexError.
Proof.
  unfold py_get. destruct (py_index (length l) i) eqn:E; cbn.
  - case_match; congruence.
  - intros [= <-]. by eapply py_index_raises.
Qed.

Lemma py_set_raises {A} (l : list A) i x e : py_set l i x = Raise e → e = IndexError.
Proof.
  unfold py_set. destruct (py_index (length l) i) eqn:E; cbn; [done|].
  intros [= <-]. by eapply py_index_raises.
Qed.

Lemma grid_alter_raises {A} (f : A → A) ts p e :
  grid_alter f ts p = Raise e → e = IndexError.
Proof.
  unfold grid_alter.
  destruct (py_get ts (pos_row p)) as [line|e1] eqn:E1; cbn;
    [|intros [= <-]; by eapply py_get_raises].
  destruct (py_get line (pos_col p)) as [t|e2] eqn:E2; cbn;
    [|intros [= <-]; by eapply py_get_raises].
  destruct (py_set line (pos_col p) (f t)) as [line'|e3] eqn:E3; cbn;
    [|intros [= <-]; by eapply py_set_raises].
  apply py_set_raises.
Qed.

Lemma place_items_surplus rnd k items blocks ts :
  (length blocks < length items)%nat →
  place_items rnd k items blocks ts = Raise IndexError.
Proof.
  revert k blocks ts. induction items as [|letter items IH]; intros k blocks ts Hlen.
  - cbn in Hlen. lia.
  - cbn. unfold random_choice.
    destruct (blocks !! (rnd k mod length blocks)%nat) as [q|] eqn:Hq; cbn; [|done].
    destruct (grid_alter _ ts q) as [ts'|e] eqn:Ha; cbn.
    + apply IH. apply lookup_lt_Some in Hq.
      rewrite length_delete by (by apply lookup_lt_is_Some_2). cbn in Hlen. lia.
    + f_equal. by eapply grid_alter_raises.
Qed.

(** C9. The constructor does not drop surplus map items: when the item
    string is longer than the list of Block tiles that the parse collected,
    [random.choice] is reached with an empty list and the construction
    raises IndexError, whatever the random draws are. *)
Theorem init_tiles_surplus_raises (rnd : nat → nat) (map_items tile_characters : string)
    (s : ParseState) :
  parse_tiles 0 (list_ascii_of_string tile_characters) initial_parse_state = Ok s →
  (length (block_tiles s) < length (list_ascii_of_string map_items))%nat →
  init_tiles rnd map_items tile_characters = Raise IndexError.
Proof.
  intros Hparse Hlen. unfold init_tiles. rewrite Hparse. cbn.
  rewrite place_items_surplus by done. done.
Qed.

Lemma init_tiles_surplus_raises_witness :
  init_tiles (λ _, 0%nat) "fbk" sample_tile_characters = Raise IndexError.
Proof.
  eapply (init_tiles_surplus_raises (λ _, 0%nat) "fbk" sample_tile_characters).
  - vm_compute. reflexivity.
  - vm_compute. lia.
Defined.

(** ** Loops *)

Lemma bind_Ok {A B} (a : A) (f : A → py B) : (Ok a ≫= f) = f a.
Proof. done. Qed.

Lemma for_range_inv {S} (body : Z → S → py S) (I : S → Prop) :
  (∀ i s, I s → ∃ s', body i s = Ok s' ∧ I s') →
  ∀ n start s, I s → ∃ s', for_range body start n s = Ok s' ∧ I s'.
Proof.
  intros Hbody n. induction n as [|n IH]; intros start s Hs; cbn.
  - by exists s.
  - destruct (Hbody start s Hs) as (s1 & -> & Hs1). cbn. by apply IH.
Qed.

Lemma for_each_inv {A S} (body : A → S → py S) (I : S → Prop) (l : list A) :
  (∀ x s, x ∈ l → I s → ∃ s', body x s = Ok s' ∧ I s') →
  ∀ s, I s → ∃ s', for_each body l s = Ok s' ∧ I s'.
Proof.
  induction l as [|x l IH]; intros Hbody s Hs; cbn.
  - by exists s.
  - destruct (Hbody x s ltac:(left) Hs) as (s1 & -> & Hs1). cbn.
    apply IH; [|done]. intros y s2 Hy. apply Hbody. by right.
Qed.

(** ** Danger map *)

Lemma set_danger_map_id m : set_danger_map m (danger_map m) = m.
Proof. by destruct m. Qed.

Lemma tile_is_walkable_ok m p :
  grid_ok (tiles m) = true →
  ∃ w, tile_is_walkable m p = Ok w ∧ (w = true → tile_is_withing_map p = true).
Proof.
  intros Hg. unfold tile_is_walkable.
  destruct (tile_is_withing_map p) eqn:Hp; cbn.
  - rewrite get_tile_within by done. cbn. eexists. split; [done|done].
  - exists false. done.
Qed.

Lemma update_danger_entry_ok m :
  grid_ok (tiles m) = true → grid_ok (update_danger_entry m) = true.
Proof.
  unfold grid_ok, update_danger_entry. rewrite !andb_true_iff, length_fmap.
  intros [Hr Hc]. split; [done|].
  rewrite forallb_forall in *. intros line Hin.
  apply list_elem_of_In, list_elem_of_fmap in Hin as (row & -> & Hrow).
  rewrite length_fmap. apply Hc. by apply list_elem_of_In.
Qed.

Lemma update_danger_entry_cell m p :
  grid_ok (tiles m) = true → tile_is_withing_map p = true →
  cell 0 (update_danger_entry m) p
  = if should_not_walk (tile_of (tiles m) p) then 0 else SAFE_DANGER_VALUE.
Proof.
  intros Hg Hp. destruct (grid_lookup (new_tile p) _ _ Hg Hp) as (line & Hl & Ht).
  unfold cell at 1, update_danger_entry.
  rewrite list_lookup_fmap, Hl. cbn. rewrite list_lookup_fmap, Ht. done.
Qed.

Lemma danger_min_within d p t :
  grid_ok d = true → tile_is_withing_map p = true →
  danger_min d p t = Ok (min_write t d p).
Proof.
  intros Hg Hp. unfold danger_min, danger_read.
  rewrite (grid_read_within 0) by done. cbn.
  by rewrite grid_alter_within.
Qed.

Lemma min_write_ok t d q : grid_ok (min_write t d q) = grid_ok d.
Proof. apply grid_update_ok. Qed.

Lemma min_write_cell t d q p :
  grid_ok d = true → tile_is_withing_map q = true → tile_is_withing_map p = true →
  cell 0 (min_write t d q) p
  = if decide (p = q) then Z.min (cell 0 d q) t else cell 0 d p.
Proof. intros. unfold min_write. by rewrite (cell_update 0 0). Qed.

Section danger_invariant.
(** A property [Q] of danger grids that every min-write of the time [t]
    at an in-map position preserves. *)
Variable Q : list (list Z) → Prop.

Local Abbreviation preserved_by := (preserved_by Q).
Local Abbreviation danger_state := (danger_state Q).

Lemma danger_step_inv t dir m0 m w :
  grid_ok (tiles m0) = true → preserved_by t → danger_state m0 m →
  ∃ m' w', danger_step t dir m w = Ok (m', w') ∧ danger_state m0 m'.
Proof.
  intros Hg HQ (Hm & Hd & Hq). unfold danger_step.
  destruct (walk_stop w); [by exists m, w|].
  destruct (tile_is_walkable_ok m (walk_position w)) as (wk & -> & Hwk).
  { rewrite Hm. done. }
  cbn. destruct wk; cbn.
  - rewrite Hwk by done. cbn.
    rewrite danger_min_within by auto. cbn.
    eexists _, _. split; [done|]. split; [|split]; cbn.
    + rewrite Hm. done.
    + by rewrite min_write_ok.
    + apply HQ; auto.
  - by eexists _, _.
Qed.

Lemma danger_iteration_inv t m0 i (s : GameMap * DangerWalks) :
  grid_ok (tiles m0) = true → preserved_by t → danger_state m0 s.1 →
  ∃ s', danger_iteration t i s = Ok s' ∧ danger_state m0 s'.1.
Proof.
  intros Hg HQ Hs. destruct s as [m [[[w0 w1] w2] w3]]. cbn in *.
  destruct (danger_step_inv t DirUp m0 m w0 Hg HQ Hs) as (m1 & w0' & -> & H1). cbn.
  destruct (danger_step_inv t DirRight m0 m1 w1 Hg HQ H1) as (m2 & w1' & -> & H2). cbn.
  destruct (danger_step_inv t DirDown m0 m2 w2 Hg HQ H2) as (m3 & w2' & -> & H3). cbn.
  destruct (danger_step_inv t DirLeft m0 m3 w3 Hg HQ H3) as (m4 & w3' & -> & H4). cbn.
  by eexists.
Qed.

Lemma danger_of_bomb_inv m0 b m :
  grid_ok (tiles m0) = true →
  tile_is_withing_map (bomb_tile_position (bomb_at m0 b)) = true →
  preserved_by (danger_time (bomb_at m0 b)) → danger_state m0 m →
  ∃ m', danger_of_bomb b m = Ok m' ∧ danger_state m0 m'.
Proof.
  intros Hg Hb HQ (Hm & Hd & Hq). unfold danger_of_bomb.
  assert (Hbomb : bomb_at m b = bomb_at m0 b) by (rewrite Hm; done).
  rewrite Hbomb. fold (danger_time (bomb_at m0 b)).
  rewrite danger_min_within by done. cbn.
  edestruct (for_range_inv (danger_iteration (danger_time (bomb_at m0 b)))
               (λ s, danger_state m0 s.1)) as (s' & -> & Hs').
  - intros i s Hs. by apply danger_iteration_inv.
  - cbn. split; [|split]; cbn.
    + rewrite Hm. done.
    + by rewrite min_write_ok.
    + by apply HQ.
  - cbn. destruct s' as [m' ws]. cbn. by exists m'.
Qed.

Lemma update_danger_map_inv m :
  grid_ok (tiles m) = true → bombs_in_map m = true →
  (∀ b, b ∈ bombs m → preserved_by (danger_time (bomb_at m b))) →
  Q (update_danger_entry m) →
  ∃ m', update_danger_map m = Ok m' ∧ danger_state m m'.
Proof.
  intros Hg Hb HQ Hq. unfold update_danger_map.
  apply (for_each_inv danger_of_bomb (danger_state m)).
  - intros b s Hin Hs. apply danger_of_bomb_inv; auto.
    unfold bombs_in_map in Hb. rewrite forallb_forall in Hb.
    apply Hb. by apply list_elem_of_In.
  - split; [|split]; cbn; [done| |done]. by apply update_danger_entry_ok.
Qed.
End danger_invariant.

Lemma get_danger_value_up_to_date m q :
  danger_map_is_up_to_date m = true → grid_ok (danger_map m) = true →
  get_danger_value m q
  = Ok (if tile_is_withing_map q then cell 0 (danger_map m) q else 0, m).
Proof.
  intros Hf Hd. unfold get_danger_value. rewrite Hf. cbn.
  destruct (tile_is_withing_map q) eqn:Hq; cbn; [|done].
  unfold danger_read. rewrite (grid_read_within 0) by done. done.
Qed.

(** ** The rebuilt danger grid *)

Lemma min_writes_ok t qs : ∀ d, grid_ok (min_writes t d qs) = grid_ok d.
Proof.
  induction qs as [|x qs IH]; intros d; [done|].
  unfold min_writes in *. cbn [foldl]. by rewrite IH, min_write_ok.
Qed.

Lemma min_writes_app t d qs1 qs2 :
  min_writes t d (qs1 ++ qs2) = min_writes t (min_writes t d qs1) qs2.
Proof. unfold min_writes. apply foldl_app. Qed.

Lemma min_writes_cell t qs : ∀ d q,
  grid_ok d = true → Forall (λ x, tile_is_withing_map x = true) qs →
  tile_is_withing_map q = true →
  cell 0 (min_writes t d qs) q
  = if bool_decide (q ∈ qs) then Z.min (cell 0 d q) t else cell 0 d q.
Proof.
  induction qs as [|x qs IH]; intros d q Hg Hall Hq.
  - rewrite bool_decide_eq_false_2 by apply not_elem_of_nil. done.
  - apply Forall_cons in Hall as [Hx Hall]. unfold min_writes in *. cbn [foldl].
    rewrite IH by (by rewrite ?min_write_ok). rewrite min_write_cell by done.
    destruct (decide (q = x)) as [->|Hne].
    + rewrite (bool_decide_eq_true_2 (x ∈ x :: qs)) by left.
      case_bool_decide; lia.
    + rewrite (bool_decide_ext (q ∈ x :: qs) (q ∈ qs)); [done|].
      rewrite elem_of_cons. split; [by intros [?|?]|by right].
Qed.

Lemma neighbour_up p : mkPosition (pos_col p) (pos_row p - 1) = neighbour p DirUp.
Proof. unfold neighbour, position_add. cbn. f_equal; lia. Qed.
Lemma neighbour_right p : mkPosition (pos_col p + 1) (pos_row p) = neighbour p DirRight.
Proof. unfold neighbour, position_add. cbn. f_equal; lia. Qed.
Lemma neighbour_down p : mkPosition (pos_col p) (pos_row p + 1) = neighbour p DirDown.
Proof. unfold neighbour, position_add. cbn. f_equal; lia. Qed.
Lemma neighbour_left p : mkPosition (pos_col p - 1) (pos_row p) = neighbour p DirLeft.
Proof. unfold neighbour, position_add. cbn. f_equal; lia. Qed.

(** One direction of one iteration of [update_danger_map]: what it writes
    and what is left of the walk. *)
Lemma danger_step_spec t d m0 m w :
  grid_ok (tiles m0) = true →
  m = set_danger_map m0 (danger_map m) → grid_ok (danger_map m) = true →
  ∃ m' w' wr,
    danger_step t d m w = Ok (m', w')
    ∧ m' = set_danger_map m0 (danger_map m')
    ∧ danger_map m' = min_writes t (danger_map m) wr
    ∧ Forall (λ x, tile_is_withing_map x = true) wr
    ∧ ∀ n, danger_todo m0 d w (S n) = wr ++ danger_todo m0 d w' n.
Proof.
  intros Hg Hm Hd. unfold danger_step, danger_todo.
  destruct (walk_stop w) eqn:Hs.
  { exists m, w, []. split; [done|]. split; [done|]. split; [done|]. split; [done|].
    intros n. by rewrite Hs. }
  assert (Hw0 : tile_is_walkable m (walk_position w)
                = tile_is_walkable m0 (walk_position w)) by (by rewrite Hm).
  destruct (tile_is_walkable_ok m0 (walk_position w) Hg) as (wk & Hwk & Hin).
  rewrite Hw0, Hwk, bind_Ok.
  cbn [danger_ray]. unfold walkable_at. rewrite Hwk.
  destruct wk; cbn [negb orb andb].
  - rewrite Hin by done. cbn [negb].
    rewrite danger_min_within by auto. rewrite bind_Ok.
    eexists _, _, [walk_position w]. split; [done|]. cbn [danger_map set_danger_map].
    split; [by rewrite Hm|]. split; [done|].
    split; [by apply Forall_singleton, Hin|].
    intros n. cbn [walk_stop walk_position]. done.
  - exists m, (mkDangerWalk (walk_position w) true), []. by repeat split.
Qed.

Lemma danger_iteration_spec t m0 i (s : GameMap * DangerWalks) :
  grid_ok (tiles m0) = true →
  s.1 = set_danger_map m0 (danger_map s.1) → grid_ok (danger_map s.1) = true →
  ∃ s' wr,
    danger_iteration t i s = Ok s'
    ∧ s'.1 = set_danger_map m0 (danger_map s'.1)
    ∧ danger_map s'.1 = min_writes t (danger_map s.1) wr
    ∧ Forall (λ x, tile_is_withing_map x = true) wr
    ∧ ∀ n q, q ∈ danger_todos m0 s.2 (S n) ↔ q ∈ wr ++ danger_todos m0 s'.2 n.
Proof.
  intros Hg Hm Hd. destruct s as [m [[[w0 w1] w2] w3]]. cbn [fst snd] in *.
  unfold danger_iteration.
  destruct (danger_step_spec t DirUp m0 m w0 Hg Hm Hd)
    as (m1 & w0' & wr0 & -> & Hm1 & Hd1 & Hin0 & Ht0).
  rewrite bind_Ok.
  assert (Hg1 : grid_ok (danger_map m1) = true) by (by rewrite Hd1, min_writes_ok).
  destruct (danger_step_spec t DirRight m0 m1 w1 Hg Hm1 Hg1)
    as (m2 & w1' & wr1 & -> & Hm2 & Hd2 & Hin1 & Ht1).
  rewrite bind_Ok.
  assert (Hg2 : grid_ok (danger_map m2) = true) by (by rewrite Hd2, min_writes_ok).
  destruct (danger_step_spec t DirDown m0 m2 w2 Hg Hm2 Hg2)
    as (m3 & w2' & wr2 & -> & Hm3 & Hd3 & Hin2 & Ht2).
  rewrite bind_Ok.
  assert (Hg3 : grid_ok (danger_map m3) = true) by (by rewrite Hd3, min_writes_ok).
  destruct (danger_step_spec t DirLeft m0 m3 w3 Hg Hm3 Hg3)
    as (m4 & w3' & wr3 & -> & Hm4 & Hd4 & Hin3 & Ht3).
  rewrite bind_Ok.
  exists (m4, (w0', w1', w2', w3')), (wr0 ++ wr1 ++ wr2 ++ wr3).
  split; [done|]. cbn [fst snd]. split; [done|].
  split. { rewrite !min_writes_app. congruence. }
  split. { rewrite !Forall_app. done. }
  intros n q. unfold danger_todos. rewrite Ht0, Ht1, Ht2, Ht3.
  rewrite !elem_of_app. tauto.
Qed.

Lemma danger_todos_0 m ws q : q ∉ danger_todos m ws 0.
Proof.
  destruct ws as [[[w0 w1] w2] w3]. unfold danger_todos, danger_todo.
  destruct (walk_stop w0), (walk_stop w1), (walk_stop w2), (walk_stop w3);
    cbn; apply not_elem_of_nil.
Qed.

Lemma danger_walks_spec t m0 n : ∀ start (s : GameMap * DangerWalks),
  grid_ok (tiles m0) = true →
  s.1 = set_danger_map m0 (danger_map s.1) → grid_ok (danger_map s.1) = true →
  ∃ s' W,
    for_range (danger_iteration t) start n s = Ok s'
    ∧ s'.1 = set_danger_map m0 (danger_map s'.1)
    ∧ danger_map s'.1 = min_writes t (danger_map s.1) W
    ∧ Forall (λ x, tile_is_withing_map x = true) W
    ∧ ∀ q, q ∈ W ↔ q ∈ danger_todos m0 s.2 n.
Proof.
  induction n as [|n IH]; intros start s Hg Hm Hd; cbn [for_range].
  - exists s, []. split; [done|]. split; [done|]. split; [done|]. split; [done|].
    intros q. split; [by intros ?%elem_of_nil|]. intros Hq. by apply danger_todos_0 in Hq.
  - destruct (danger_iteration_spec t m0 start s Hg Hm Hd)
      as (s1 & wr & -> & Hm1 & Hd1 & Hin1 & Ht1).
    rewrite bind_Ok.
    destruct (IH (start + 1) s1 Hg Hm1) as (s' & W & -> & Hm' & Hd' & Hin' & Ht').
    { by rewrite Hd1, min_writes_ok. }
    exists s', (wr ++ W). split; [done|]. split; [done|].
    split. { rewrite min_writes_app. congruence. }
    split. { by apply Forall_app. }
    intros q. rewrite Ht1, !elem_of_app, Ht'. done.
Qed.

(** The body of [for bomb in self.bombs] lowers the value of exactly the
    tiles that the bomb reaches. *)
Lemma danger_of_bomb_spec m0 b m :
  grid_ok (tiles m0) = true →
  tile_is_withing_map (bomb_tile_position (bomb_at m0 b)) = true →
  m = set_danger_map m0 (danger_map m) → grid_ok (danger_map m) = true →
  ∃ m', danger_of_bomb b m = Ok m'
    ∧ m' = set_danger_map m0 (danger_map m')
    ∧ grid_ok (danger_map m') = true
    ∧ ∀ q, tile_is_withing_map q = true →
           cell 0 (danger_map m') q = lower_by m0 q (cell 0 (danger_map m) q) b.
Proof.
  intros Hg Hb Hm Hd. unfold danger_of_bomb.
  assert (Hbomb : bomb_at m b = bomb_at m0 b) by (by rewrite Hm).
  rewrite Hbomb. fold (danger_time (bomb_at m0 b)).
  set (bt := bomb_tile_position (bomb_at m0 b)) in *.
  rewrite danger_min_within by done. rewrite bind_Ok.
  rewrite neighbour_up, neighbour_right, neighbour_down, neighbour_left.
  set (ws := (_, _, _, _)).
  destruct (danger_walks_spec (danger_time (bomb_at m0 b)) m0
              (Z.to_nat (bomb_flame_length (bomb_at m0 b))) 0
              (set_danger_map m (min_write (danger_time (bomb_at m0 b)) (danger_map m) bt), ws))
    as ([m' ws'] & W & -> & Hm' & Hd' & Hin & HW).
  { done. }
  { cbn. by rewrite Hm. }
  { cbn. by rewrite min_write_ok. }
  rewrite bind_Ok. cbn [fst snd danger_map set_danger_map] in *.
  exists m'. split; [done|]. split; [done|].
  assert (Hgrid : danger_map m'
                  = min_writes (danger_time (bomb_at m0 b)) (danger_map m) (bt :: W)) by done.
  split. { by rewrite Hgrid, min_writes_ok. }
  intros q Hq. rewrite Hgrid, min_writes_cell; [|done|by apply Forall_cons|done].
  unfold lower_by. apply (f_equal (λ c : bool, if c then _ else _)).
  apply bool_decide_ext. unfold danger_reach. fold bt.
  rewrite !elem_of_cons, HW. done.
Qed.

Lemma danger_of_bombs_spec m0 l : ∀ s,
  grid_ok (tiles m0) = true →
  (∀ b, b ∈ l → tile_is_withing_map (bomb_tile_position (bomb_at m0 b)) = true) →
  s = set_danger_map m0 (danger_map s) → grid_ok (danger_map s) = true →
  ∃ s', for_each danger_of_bomb l s = Ok s'
    ∧ s' = set_danger_map m0 (danger_map s')
    ∧ grid_ok (danger_map s') = true
    ∧ ∀ q, tile_is_withing_map q = true →
           cell 0 (danger_map s') q = foldl (lower_by m0 q) (cell 0 (danger_map s) q) l.
Proof.
  induction l as [|b l IH]; intros s Hg Hl Hs Hd; cbn [for_each foldl].
  - by exists s.
  - destruct (danger_of_bomb_spec m0 b s Hg) as (s1 & -> & Hs1 & Hd1 & Hc1);
      [apply Hl; by left|done|done|].
    rewrite bind_Ok.
    destruct (IH s1 Hg) as (s' & -> & Hs' & Hd' & Hc'); [|done|done|].
    { intros b' Hb'. apply Hl. by right. }
    exists s'. split; [done|]. split; [done|]. split; [done|].
    intros q Hq. by rewrite Hc', Hc1.
Qed.

(** [update_danger_map] replaces the danger grid, and nothing else, by the
    grid rebuilt from the tiles and the live bombs. *)
Lemma update_danger_map_spec m :
  grid_ok (tiles m) = true → bombs_in_map m = true →
  ∃ m', update_danger_map m = Ok m'
    ∧ m' = set_danger_map m (danger_map m')
    ∧ grid_ok (danger_map m') = true
    ∧ ∀ q, tile_is_withing_map q = true →
           cell 0 (danger_map m') q = rebuilt_danger m q.
Proof.
  intros Hg Hb. unfold update_danger_map.
  destruct (danger_of_bombs_spec m (bombs m) (set_danger_map m (update_danger_entry m)))
    as (m' & Hrun & Hm' & Hd' & Hc'); [done| |done|by apply update_danger_entry_ok|].
  { intros b Hin. unfold bombs_in_map in Hb. rewrite forallb_forall in Hb.
    apply Hb. by apply list_elem_of_In. }
  exists m'. split; [done|]. split; [done|]. split; [done|].
  intros q Hq. rewrite Hc' by done. unfold rebuilt_danger.
  cbn [danger_map set_danger_map]. by rewrite update_danger_entry_cell.
Qed.

(** C8. On a well-formed map the first [get_danger_value] returns and
    leaves the grid marked up to date; from then on every call, on any
    tile, returns what is stored in the grid and leaves the map as it is
    (no rebuild): in particular a second call on the same tile returns the
    same value.  When the grid was not up to date, the first call changes
    the danger grid and the flag and nothing else, and the grid it leaves is
    the one rebuilt from the tiles and the live bombs: on every tile the
    reset value (0 where [should_not_walk], 5000 elsewhere) lowered to the
    time of each live bomb whose walk reaches the tile.  When the grid was
    up to date, the call leaves the map as it is. *)
Theorem get_danger_value_idempotent (m : GameMap) (p : Position) :
  grid_ok (tiles m) = true → bombs_in_map m = true → grid_ok (danger_map m) = true →
  ∃ v m1,
    get_danger_value m p = Ok (v, m1)
    ∧ danger_map_is_up_to_date m1 = true
    ∧ get_danger_value m1 p = Ok (v, m1)
    ∧ (∀ q, get_danger_value m1 q
            = Ok (if tile_is_withing_map q then cell 0 (danger_map m1) q else 0, m1))
    ∧ (if danger_map_is_up_to_date m then m1 = m
       else m1 = set_danger_map_is_up_to_date (set_danger_map m (danger_map m1)) true
            ∧ ∀ q, tile_is_withing_map q = true →
                   cell 0 (danger_map m1) q = rebuilt_danger m q).
Proof.
  intros Hg Hb Hd.
  assert (∃ m1, (if negb (danger_map_is_up_to_date m)
                 then m' ← update_danger_map m; Ok (set_danger_map_is_up_to_date m' true)
                 else Ok m) = Ok m1
                ∧ danger_map_is_up_to_date m1 = true
                ∧ grid_ok (danger_map m1) = true
                ∧ (if danger_map_is_up_to_date m then m1 = m
                   else m1 = set_danger_map_is_up_to_date
                               (set_danger_map m (danger_map m1)) true
                        ∧ ∀ q, tile_is_withing_map q = true →
                               cell 0 (danger_map m1) q = rebuilt_danger m q))
    as (m1 & Hm1 & Hf & Hd1 & Hnew).
  { destruct (danger_map_is_up_to_date m) eqn:Hf; cbn [negb].
    - by exists m.
    - destruct (update_danger_map_spec m Hg Hb) as (m' & -> & Hm' & Hd' & Hc').
      rewrite bind_Ok. eexists. split; [done|]. cbn.
      split; [done|]. split; [done|]. split; [|done]. by rewrite Hm' at 1. }
  assert (Hread : ∀ q, get_danger_value m1 q
            = Ok (if tile_is_withing_map q then cell 0 (danger_map m1) q else 0, m1))
    by (intros q; by apply get_danger_value_up_to_date).
  exists (if tile_is_withing_map p then cell 0 (danger_map m1) p else 0), m1.
  split; [|by auto].
  unfold get_danger_value. rewrite Hm1. cbn.
  destruct (tile_is_withing_map p) eqn:Hp; cbn; [|done].
  unfold danger_read. rewrite (grid_read_within 0) by done. done.
Qed.

Lemma get_danger_value_idempotent_witness :
  ∃ m1,
    get_danger_value (sample_map [bomb_on 3 2] []) (mkPosition 3 3) = Ok (3000, m1)
    ∧ get_danger_value m1 (mkPosition 3 3) = Ok (3000, m1).
Proof.
  destruct (get_danger_value_idempotent (sample_map [bomb_on 3 2] []) (mkPosition 3 3))
    as (v & m1 & H1 & _ & H2 & Hread & Hnew); [vm_compute; reflexivity ..|].
  assert (Hv : v = 3000).
  { specialize (Hread (mkPosition 3 3)). rewrite H2 in Hread.
    injection Hread as Hv. destruct Hnew as [_ Hc].
    rewrite (Hc (mkPosition 3 3)) in Hv by (vm_compute; reflexivity).
    rewrite Hv. vm_compute. reflexivity. }
  exists m1. rewrite <-Hv. split; [exact H1|exact H2].
Defined.

(** C10, as amended.  After a rebuild of the danger grid, every in-map
    tile that [should_not_walk] has a danger value of at most 0, because the
    reset puts 0 exactly on those tiles and 5000 on all others and bombs
    only lower a value; the value is exactly 0 when no live bomb spreads a
    negative time, in particular when there is no live bomb. *)
Theorem danger_value_of_blocked_tile (m : GameMap) (p : Position) :
  grid_ok (tiles m) = true → bombs_in_map m = true →
  danger_map_is_up_to_date m = false →
  tile_is_withing_map p = true →
  should_not_walk (tile_of (tiles m) p) = true →
  (∀ q, tile_is_withing_map q = true →
        cell 0 (update_danger_entry m) q
        = if should_not_walk (tile_of (tiles m) q) then 0 else SAFE_DANGER_VALUE)
  ∧ ∃ v m1,
      get_danger_value m p = Ok (v, m1)
      ∧ v <= 0
      ∧ ((∀ b, b ∈ bombs m → 0 <= danger_time (bomb_at m b)) → v = 0).
Proof.
  intros Hg Hb Hf Hp Hs. split.
  { intros q Hq. by apply update_danger_entry_cell. }
  set (Q := λ d : list (list Z),
         cell 0 d p <= 0
         ∧ ((∀ b, b ∈ bombs m → 0 <= danger_time (bomb_at m b)) → cell 0 d p = 0)).
  destruct (update_danger_map_inv Q m Hg Hb) as (m' & Hm' & _ & Hd & Hle & Heq).
  - intros b Hin d q Hd Hq [Hle Heq]. unfold Q.
    rewrite min_write_cell by done.
    destruct (decide (p = q)) as [<-|Hne]; [|done].
    split; [lia|]. intros Hall. specialize (Heq Hall). specialize (Hall b Hin). lia.
  - unfold Q. rewrite update_danger_entry_cell, Hs by done. done.
  - unfold get_danger_value. rewrite Hf. cbn. rewrite Hm'. cbn. rewrite Hp. cbn.
    unfold danger_read. rewrite (grid_read_within 0) by done. cbn.
    eexists _, _. split; [done|]. done.
Qed.

Lemma danger_value_of_blocked_tile_witness :
  ∃ v m1,
    get_danger_value (sample_map [bomb_on 2 2] []) (mkPosition 2 1) = Ok (v, m1)
    ∧ v = 0.
Proof.
  destruct (danger_value_of_blocked_tile (sample_map [bomb_on 2 2] []) (mkPosition 2 1))
    as (_ & v & m1 & H1 & _ & H0); [vm_compute; reflexivity ..|].
  exists v, m1. split; [exact H1|].
  apply H0. intros b Hb. apply list_elem_of_In in Hb.
  destruct Hb as [<-|[]]. vm_compute. discriminate.
Defined.

(** Counterexample to C10 as stated: a bomb thrown when its fuse was about
    to run out is flying over the Wall tile (1, 1) with 100 ms overtime; the
    rebuilt grid gives that in-map Wall tile the danger value -100, not 0. *)
Lemma danger_value_of_wall_negative :
  tile_is_withing_map (mkPosition 1 1) = true
  ∧ kind (tile_of sample_tiles (mkPosition 1 1)) = TILE_WALL
  ∧ ∃ m1, get_danger_value (sample_map [expired_flying_bomb 1 1] []) (mkPosition 1 1)
          = Ok (-100, m1).
Proof.
  split; [reflexivity|]. split; [vm_compute; reflexivity|].
  eexists. vm_compute. reflexivity.
Qed.

(** ** Explosions *)

Lemma occurrences_nil p : occurrences p [] = 0%nat.
Proof. done. Qed.

Lemma occurrences_cons p q l :
  occurrences p (q :: l) = ((if decide (q = p) then 1 else 0) + occurrences p l)%nat.
Proof.
  unfold occurrences. rewrite filter_cons. by destruct (decide (q = p)).
Qed.

Lemma occurrences_app p l1 l2 :
  occurrences p (l1 ++ l2) = (occurrences p l1 + occurrences p l2)%nat.
Proof. unfold occurrences. by rewrite filter_app, length_app. Qed.

Lemma flames_changed_refl m : grid_ok (tiles m) = true → flames_changed m m.
Proof. intros Hg. split; [by destruct m|]. split; [done|]. done. Qed.

Lemma flames_changed_kind m0 m q :
  flames_changed m0 m → tile_is_withing_map q = true →
  kind_at (tiles m) q = kind_at (tiles m0) q.
Proof.
  intros (_ & _ & H) Hq. unfold kind_at.
  change (kind (tile_of (tiles m) q)) with (kind (strip (tile_of (tiles m) q))).
  by rewrite H.
Qed.

(** Mutating only the flames of the tile at [q]. *)
Lemma flames_changed_alter m0 m q (f : MapTile → MapTile) :
  (∀ t, strip (f t) = strip t) →
  flames_changed m0 m → tile_is_withing_map q = true →
  ∃ m', alter_tile f m q = Ok m'
        ∧ flames_changed m0 m'
        ∧ ∀ p, tile_is_withing_map p = true →
               tile_of (tiles m') p
               = if decide (p = q) then f (tile_of (tiles m) q) else tile_of (tiles m) p.
Proof.
  intros Hf (Hm & Hg & Hs) Hq. rewrite alter_tile_within by done.
  eexists. split; [done|]. split.
  - split; [|split]; cbn.
    + rewrite Hm. done.
    + by rewrite grid_update_ok.
    + intros p Hp. rewrite tile_of_update by done.
      destruct (decide (p = q)) as [->|]; [|by apply Hs]. rewrite Hf. by apply Hs.
  - intros p Hp. cbn. by rewrite tile_of_update.
Qed.

Lemma strip_append_flame f t : strip (append_flame f t) = strip t.
Proof. done. Qed.

Lemma strip_retag_last d t : strip (retag_last d t) = strip t.
Proof. done. Qed.

Lemma flame_target_within bp d a :
  tile_is_withing_map bp = true → inside_limit d a = true →
  (if increment d =? -1 then a < axis_of bp d else axis_of bp d < a) →
  tile_is_withing_map (flame_target bp d a) = true.
Proof.
  rewrite !within_bounds. unfold inside_limit, flame_target, axis_of, map_limit, MAP_SIZE.
  destruct d; cbn; rewrite ?Z.geb_le, ?Z.leb_le; lia.
Qed.

Lemma flame_step_spec k bp nf d m0 m w :
  tile_is_withing_map bp = true →
  (∀ q, tile_is_withing_map q = true → kind_at (tiles m0) q = k q) →
  flames_changed m0 m → walk_ok bp d w →
  ∃ m' w',
    flame_step bp nf d m w = Ok (m', w')
    ∧ flames_changed m0 m' ∧ walk_ok bp d w'
    ∧ ∀ p n, tile_is_withing_map p = true →
        (flame_count (tiles m') p + occurrences p (walk_todo k bp d w' n)
         = flame_count (tiles m) p + occurrences p (walk_todo k bp d w (S n)))%nat.
Proof.
  intros Hbp Hk Hm [Hside Hprev]. unfold flame_step.
  assert (Hside' : ∀ s pf,
    (∀ q, pf = Some q → tile_is_withing_map q = true) →
    walk_ok bp d (mkFlameWalk (axis_position w + increment d) s pf)).
  { intros s pf Hpf. split; [|done]. cbn. destruct d; cbn in *; lia. }
  destruct (flame_stop w) eqn:Hstop.
  - (* the walk has stopped: only the previous flame is retagged *)
    destruct (previous_flame w) as [q0|] eqn:Hq0.
    + destruct (flames_changed_alter m0 m q0 (retag_last (terminal_direction d)))
        as (m' & -> & Hm' & Ht); [done|done|by apply Hprev|].
      cbn. eexists _, _. split; [done|]. split; [done|]. split; [by apply Hside'|].
      intros p n Hp. unfold walk_todo. cbn. rewrite Hstop.
      unfold flame_count. rewrite Ht by done.
      destruct (decide (p = q0)) as [->|]; [|done].
      unfold retag_last. cbn. by rewrite length_alter.
    + cbn. eexists _, _. split; [done|]. split; [done|].
      split; [apply Hside'; intros q0; rewrite ?Hq0; done|].
      intros p n Hp. unfold walk_todo. cbn. by rewrite Hstop.
  - destruct (inside_limit d (axis_position w)) eqn:Hin.
    + (* inside the map *)
      set (q := flame_target bp d (axis_position w)).
      assert (Hq : tile_is_withing_map q = true) by (by apply flame_target_within).
      destruct Hm as (Hm1 & Hg & Hs).
      rewrite get_tile_within by done. cbn.
      assert (Hkq : kind (tile_of (tiles m) q) = k q).
      { rewrite <- Hk by done. by apply (flames_changed_kind m0 m). }
      rewrite Hkq.
      destruct (decide (k q = TILE_WALL)) as [Hwall|Hwall].
      * cbn. eexists _, _. split; [done|]. split; [done|]. split; [by apply Hside'|].
        intros p n Hp. unfold walk_todo. cbn. rewrite Hstop. cbn. rewrite Hin.
        fold q. by rewrite Hwall.
      * edestruct (flames_changed_alter m0 m q) as (m' & -> & Hm' & Ht);
          [apply strip_append_flame|done|done|].
        cbn. eexists _, _. split; [done|]. split; [done|].
        split; [apply Hside'; by intros ? [= <-]|].
        intros p n Hp. unfold walk_todo. cbn. rewrite Hstop. cbn. rewrite Hin.
        fold q. unfold flame_count. rewrite Ht by done.
        destruct (k q) eqn:Ek; [| |done].
        -- destruct (decide (TILE_FLOOR = TILE_BLOCK)) as [?|_]; [done|].
           rewrite occurrences_cons.
           destruct (decide (p = q)) as [->|Hne].
           ++ rewrite decide_True by done. unfold append_flame, occurrences. cbn.
              rewrite length_app. cbn. lia.
           ++ rewrite decide_False by done. unfold occurrences. lia.
        -- destruct (decide (TILE_BLOCK = TILE_BLOCK)) as [_|?]; [|done].
           rewrite occurrences_cons, !occurrences_nil.
           destruct (decide (p = q)) as [->|Hne].
           ++ rewrite decide_True by done. unfold append_flame, occurrences. cbn.
              rewrite length_app. cbn. lia.
           ++ rewrite decide_False by done. cbn. lia.
    + cbn. eexists _, _. split; [done|]. split; [done|]. split; [by apply Hside'|].
      intros p n Hp. unfold walk_todo. cbn. rewrite Hstop. cbn. by rewrite Hin.
Qed.

Lemma for_range_inv_idx {St} (body : Z → St → py St) (I : Z → St → Prop) :
  (∀ i s, I i s → ∃ s', body i s = Ok s' ∧ I (i + 1) s') →
  ∀ n start s, I start s →
    ∃ s', for_range body start n s = Ok s' ∧ I (start + Z.of_nat n) s'.
Proof.
  intros Hbody n. induction n as [|n IH]; intros start s Hs; cbn [for_range].
  - exists s. split; [done|]. by replace (start + Z.of_nat 0) with start by lia.
  - destruct (Hbody start s Hs) as (s1 & -> & Hs1). cbn.
    destruct (IH (start + 1) s1 Hs1) as (s' & -> & Hs').
    exists s'. split; [done|].
    by replace (start + Z.of_nat (S n)) with (start + 1 + Z.of_nat n) by lia.
Qed.

Lemma walk_todo_stop k bp d w n : walk_todo k bp d (stop_walk w) n = [].
Proof. done. Qed.

Lemma walk_todo_0 k bp d w : walk_todo k bp d w 0 = [].
Proof. unfold walk_todo. by destruct (flame_stop w). Qed.

Lemma walk_ok_stop bp d w : walk_ok bp d w → walk_ok bp d (stop_walk w).
Proof. done. Qed.

Lemma flame_iteration_spec k bp nf N i m0 (s : GameMap * FlameWalks) :
  tile_is_withing_map bp = true →
  (∀ q, tile_is_withing_map q = true → kind_at (tiles m0) q = k q) →
  flames_changed m0 s.1 → walks_ok bp s.2 →
  ∃ s',
    flame_iteration bp nf N i s = Ok s'
    ∧ flames_changed m0 s'.1 ∧ walks_ok bp s'.2
    ∧ ∀ p, tile_is_withing_map p = true →
        (flame_count (tiles s'.1) p
           + occurrences p (walks_todo k bp s'.2 (Z.to_nat (N - (i + 1))))
         = flame_count (tiles s.1) p
           + occurrences p (walks_todo k bp s.2 (Z.to_nat (N - i))))%nat.
Proof.
  intros Hbp Hk Hm Hw. destruct s as [m [[[w0 w1] w2] w3]].
  cbn in Hm, Hw. destruct Hw as (H0 & H1 & H2 & H3).
  unfold flame_iteration.
  set (n := Z.to_nat (N - (i + 1))).
  set (pre := if i >=? N
              then (stop_walk w0, stop_walk w1, stop_walk w2, stop_walk w3)
              else (w0, w1, w2, w3)).
  assert (Hpre : walks_ok bp pre
                 ∧ walks_todo k bp pre (S n) = walks_todo k bp (w0, w1, w2, w3) (Z.to_nat (N - i))).
  { subst pre. destruct (Z.geb_spec i N).
    - split; [done|]. replace (Z.to_nat (N - i)) with 0%nat by lia.
      cbn. by rewrite !walk_todo_0.
    - split; [done|]. subst n. by replace (Z.to_nat (N - i)) with (S (Z.to_nat (N - (i + 1)))) by lia. }
  destruct pre as [[[v0 v1] v2] v3]. destruct Hpre as ((G0 & G1 & G2 & G3) & Htodo).
  destruct (flame_step_spec k bp nf DirUp m0 m v0 Hbp Hk Hm G0)
    as (m1 & u0 & -> & Hm1 & K0 & E0). cbn.
  destruct (flame_step_spec k bp nf DirRight m0 m1 v1 Hbp Hk Hm1 G1)
    as (m2 & u1 & -> & Hm2 & K1 & E1). cbn.
  destruct (flame_step_spec k bp nf DirDown m0 m2 v2 Hbp Hk Hm2 G2)
    as (m3 & u2 & -> & Hm3 & K2 & E2). cbn.
  destruct (flame_step_spec k bp nf DirLeft m0 m3 v3 Hbp Hk Hm3 G3)
    as (m4 & u3 & -> & Hm4 & K3 & E3). cbn.
  eexists. split; [done|]. split; [done|]. split; [done|].
  intros p Hp. cbn [fst snd walks_todo] in Htodo |- *.
  specialize (E0 p n Hp). specialize (E1 p n Hp).
  specialize (E2 p n Hp). specialize (E3 p n Hp).
  unfold occurrences in *. rewrite <- Htodo.
  rewrite !filter_app, !length_app. lia.
Qed.

Lemma flame_spread_spec k bp nf N m0 m :
  tile_is_withing_map bp = true →
  (∀ q, tile_is_withing_map q = true → kind_at (tiles m0) q = k q) →
  flames_changed m0 m →
  ∃ m' ws,
    for_range (flame_iteration bp nf N) 0 (Z.to_nat (N + 1)) (m, initial_walks bp)
    = Ok (m', ws)
    ∧ flames_changed m0 m'
    ∧ ∀ p, tile_is_withing_map p = true →
        flame_count (tiles m') p
        = (flame_count (tiles m) p
           + occurrences p (walks_todo k bp (initial_walks bp) (Z.to_nat N)))%nat.
Proof.
  intros Hbp Hk Hm.
  destruct (for_range_inv_idx (flame_iteration bp nf N)
    (λ i s, flames_changed m0 s.1 ∧ walks_ok bp s.2
            ∧ ∀ p, tile_is_withing_map p = true →
                (flame_count (tiles s.1) p
                   + occurrences p (walks_todo k bp s.2 (Z.to_nat (N - i)))
                 = flame_count (tiles m) p
                   + occurrences p (walks_todo k bp (initial_walks bp) (Z.to_nat N)))%nat)
    ) with (n := Z.to_nat (N + 1)) (start := 0) (s := (m, initial_walks bp))
    as ([m' ws] & Hrun & Hm' & _ & Hcount).
  - intros i s (Hs & Hw & Hc).
    destruct (flame_iteration_spec k bp nf N i m0 s Hbp Hk Hs Hw)
      as (s' & -> & Hs' & Hw' & Hc').
    exists s'. split; [done|]. split; [done|]. split; [done|].
    intros p Hp. rewrite Hc' by done. by apply Hc.
  - split; [done|]. split.
    + unfold initial_walks, walks_ok, walk_ok, axis_of. cbn.
      repeat split; (lia || done).
    + intros p Hp. cbn [fst snd]. by rewrite Z.sub_0_r.
  - exists m', ws. split; [done|]. split; [done|].
    intros p Hp. specialize (Hcount p Hp). cbn [fst snd] in Hcount.
    replace (Z.to_nat (N - (0 + Z.of_nat (Z.to_nat (N + 1))))) with 0%nat in Hcount by lia.
    destruct ws as [[[w0 w1] w2] w3]. cbn [walks_todo] in Hcount.
    rewrite !walk_todo_0 in Hcount.
    change (occurrences p ([] ++ [] ++ [] ++ [])) with 0%nat in Hcount. lia.
Qed.

Lemma inside_limit_within bp d a :
  tile_is_withing_map bp = true →
  (if increment d =? -1 then a < axis_of bp d else axis_of bp d < a) →
  inside_limit d a = tile_is_withing_map (flame_target bp d a).
Proof.
  intros Hbp Hside.
  destruct (inside_limit d a) eqn:Hin.
  - symmetry. by apply flame_target_within.
  - symmetry. apply within_bounds_false. apply within_bounds in Hbp.
    revert Hin Hside. unfold inside_limit, flame_target, axis_of, map_limit, MAP_SIZE.
    destruct d; cbn; rewrite ?Z.geb_leb, ?Z.leb_gt; lia.
Qed.

Lemma walk_rest_ray k bp d p n :
  tile_is_withing_map bp = true →
  (if goes_horizontally d then pos_row p = pos_row bp else pos_col p = pos_col bp) →
  (if increment d =? -1 then axis_of p d <= axis_of bp d
   else axis_of bp d <= axis_of p d) →
  walk_rest k bp d (axis_of p d + increment d) n = flame_ray k p d n.
Proof.
  intros Hbp. revert p. induction n as [|n IH]; intros p Hline Hside; [done|].
  cbn [walk_rest flame_ray].
  assert (Hq : flame_target bp d (axis_of p d + increment d) = neighbour p d).
  { unfold flame_target, neighbour, position_add, axis_of in *.
    destruct d; cbn in *; f_equal; lia. }
  rewrite (inside_limit_within bp) by (done || destruct d; cbn in *; lia).
  rewrite Hq. destruct (tile_is_withing_map (neighbour p d)); [|done].
  destruct (k (neighbour p d)); [|done|done].
  f_equal.
  replace (axis_of p d + increment d) with (axis_of (neighbour p d) d)
    by (unfold neighbour, position_add, axis_of; destruct d; cbn; lia).
  apply IH.
  - unfold neighbour, position_add. destruct d; cbn in *; lia.
  - unfold neighbour, position_add, axis_of in *. destruct d; cbn in *; lia.
Qed.

Lemma initial_walks_todo k bp n :
  tile_is_withing_map bp = true →
  bp :: walks_todo k bp (initial_walks bp) n = flame_footprint k bp n.
Proof.
  intros Hbp. unfold flame_footprint, initial_walks, walks_todo, walk_todo. cbn.
  rewrite <- (walk_rest_ray k bp DirUp bp n) by (done || cbn; lia).
  rewrite <- (walk_rest_ray k bp DirRight bp n) by (done || cbn; lia).
  rewrite <- (walk_rest_ray k bp DirDown bp n) by (done || cbn; lia).
  rewrite <- (walk_rest_ray k bp DirLeft bp n) by (done || cbn; lia).
  done.
Qed.

Lemma explodes_bombs m b : bombs (explodes m b) = bombs m.
Proof. unfold explodes. by destruct (has_exploded (bomb_at m b)). Qed.

Lemma explodes_tiles m b : tiles (explodes m b) = tiles m.
Proof. unfold explodes. by destruct (has_exploded (bomb_at m b)). Qed.

(** What [bomb_explodes] does to a well-formed map: the tiles keep
    everything but their flames, each tile gains as many flames as it occurs
    in the footprint, the bomb is told that it explodes and leaves the list
    of live bombs. *)
Lemma bomb_explodes_spec m b :
  grid_ok (tiles m) = true →
  tile_is_withing_map (bomb_tile_position (bomb_at m b)) = true →
  ∃ m1,
    bomb_explodes m b
    = Ok (set_bombs (explodes m1 b) (remove_first b (bombs m)))
    ∧ flames_changed m m1
    ∧ ∀ p, tile_is_withing_map p = true →
        flame_count (tiles m1) p
        = (flame_count (tiles m) p
           + occurrences p
               (flame_footprint (kind_at (tiles m))
                  (bomb_tile_position (bomb_at m b))
                  (Z.to_nat (bomb_flame_length (bomb_at m b)))))%nat.
Proof.
  intros Hg Hbp. unfold bomb_explodes.
  set (bp := bomb_tile_position (bomb_at m b)) in *.
  set (nf := mkFlame _ _ _).
  destruct (flames_changed_alter m m bp (append_flame nf))
    as (m0 & -> & Hm0 & Ht0); [done|by apply flames_changed_refl|done|].
  rewrite bind_Ok.
  destruct (flame_spread_spec (kind_at (tiles m)) bp nf
              (bomb_flame_length (bomb_at m b)) m m0)
    as (m1 & ws & Hrun & Hm1 & Hcount); [done|done|done|].
  rewrite Hrun, bind_Ok.
  exists m1. split.
  - rewrite explodes_bombs. destruct Hm1 as (-> & _ & _). done.
  - split; [done|]. intros p Hp. rewrite Hcount by done.
    rewrite <- initial_walks_todo by done. rewrite occurrences_cons.
    unfold flame_count at 1. rewrite Ht0 by done.
    destruct (decide (p = bp)) as [->|Hne].
    + rewrite decide_True by done. unfold append_flame, flame_count. cbn [flames set_flames].
      rewrite length_app. cbn [length]. lia.
    + rewrite decide_False by done. unfold flame_count. lia.
Qed.

(** *** The rays of a footprint *)

Lemma ray_tile_neighbour p d j : ray_tile (neighbour p d) d j = ray_tile p d (j + 1).
Proof.
  unfold ray_tile, neighbour, position_add, position_mul_int.
  destruct d; cbn; f_equal; lia.
Qed.

Lemma ray_tile_1 p d : ray_tile p d 1 = neighbour p d.
Proof.
  unfold ray_tile, neighbour, position_add, position_mul_int.
  destruct d, p; cbn; f_equal; lia.
Qed.

Lemma flame_ray_elem k p d n q :
  q ∈ flame_ray k p d n ↔ flame_reaches k p (Z.of_nat n) d q.
Proof.
  revert p. induction n as [|n IH]; intros p.
  - cbn. split; [by intros ?%elem_of_nil|]. intros (j & Hj & _). lia.
  - cbn [flame_ray]. unfold flame_reaches.
    destruct (tile_is_withing_map (neighbour p d)) eqn:Hw.
    + destruct (k (neighbour p d)) eqn:Hk.
      * (* Floor: the flame goes on *)
        rewrite elem_of_cons, IH. split.
        -- intros [->|(j & Hj & -> & Hq & Hnw & Hbefore)].
           ++ exists 1. rewrite ray_tile_1. split; [lia|]. split; [done|].
              split; [done|]. split; [congruence|]. intros i Hi. lia.
           ++ exists (j + 1). rewrite <- ray_tile_neighbour. split; [lia|].
              split; [done|]. split; [done|]. split; [done|].
              intros i Hi. destruct (decide (i = 1)) as [->|Hne].
              ** by rewrite ray_tile_1.
              ** replace i with ((i - 1) + 1) by lia. rewrite <- ray_tile_neighbour.
                 apply Hbefore. lia.
        -- intros (j & Hj & -> & Hq & Hnw & Hbefore).
           destruct (decide (j = 1)) as [->|Hne].
           ++ left. by rewrite ray_tile_1.
           ++ right. exists (j - 1). split; [lia|].
              rewrite ray_tile_neighbour. replace (j - 1 + 1) with j by lia.
              split; [done|]. split; [done|]. split; [done|].
              intros i Hi. rewrite ray_tile_neighbour. apply Hbefore. lia.
      * (* Block: the flame is placed and stops *)
        rewrite list_elem_of_singleton. split.
        -- intros ->. exists 1. rewrite ray_tile_1. split; [lia|]. split; [done|].
           split; [done|]. split; [congruence|]. intros i Hi. lia.
        -- intros (j & Hj & -> & Hq & Hnw & Hbefore).
           destruct (decide (j = 1)) as [->|Hne]; [by rewrite ray_tile_1|].
           destruct (Hbefore 1 ltac:(lia)) as [_ Hf]. rewrite ray_tile_1 in Hf. congruence.
      * (* Wall: nothing is placed *)
        split; [by intros ?%elem_of_nil|].
        intros (j & Hj & -> & Hq & Hnw & Hbefore).
        destruct (decide (j = 1)) as [->|Hne]; [by rewrite ray_tile_1 in Hnw|].
        destruct (Hbefore 1 ltac:(lia)) as [_ Hf]. rewrite ray_tile_1 in Hf. congruence.
    + (* the map edge *)
      split; [by intros ?%elem_of_nil|].
      intros (j & Hj & -> & Hq & Hnw & Hbefore).
      destruct (decide (j = 1)) as [->|Hne]; [rewrite ray_tile_1 in Hq; congruence|].
      destruct (Hbefore 1 ltac:(lia)) as [Hf _]. rewrite ray_tile_1 in Hf. congruence.
Qed.

Lemma ray_tile_inj bp d d' j j' :
  1 <= j → 1 <= j' → ray_tile bp d j = ray_tile bp d' j' → d = d' ∧ j = j'.
Proof.
  unfold ray_tile, position_add, position_mul_int.
  intros Hj Hj' [= Hc Hr]. destruct d, d'; cbn in *; (split; [done || lia | lia]).
Qed.

Lemma ray_tile_not_origin bp d j : 1 <= j → ray_tile bp d j ≠ bp.
Proof.
  unfold ray_tile, position_add, position_mul_int. intros Hj.
  destruct bp as [c r]. intros [= Hc Hr]. destruct d; cbn in *; lia.
Qed.

Lemma flame_ray_NoDup k p d n : NoDup (flame_ray k p d n).
Proof.
  revert p. induction n as [|n IH]; intros p; cbn [flame_ray]; [constructor|].
  destruct (tile_is_withing_map (neighbour p d)); [|constructor].
  destruct (k (neighbour p d)).
  - constructor; [|apply IH].
    intros (j & Hj & Hq & _)%flame_ray_elem.
    symmetry in Hq. by apply ray_tile_not_origin in Hq; [|lia].
  - apply NoDup_singleton.
  - constructor.
Qed.

Lemma occurrences_not_elem p l : p ∉ l → occurrences p l = 0%nat.
Proof.
  induction l as [|q l IH]; [done|]. rewrite not_elem_of_cons. intros [Hne Hnin].
  rewrite occurrences_cons, decide_False by done. by rewrite IH.
Qed.

Lemma occurrences_NoDup p l : NoDup l → p ∈ l → occurrences p l = 1%nat.
Proof.
  induction 1 as [|q l Hq Hl IH]; [by intros ?%elem_of_nil|].
  rewrite elem_of_cons, occurrences_cons. intros [->|Hin].
  - rewrite decide_True by done. by rewrite occurrences_not_elem.
  - rewrite decide_False by (intros ->; done). by rewrite IH.
Qed.

Lemma occurrences_ray k bp n d p :
  flame_reaches k bp (Z.of_nat n) d p →
  occurrences p (flame_ray k bp d n) = 1%nat
  ∧ ∀ d', d' ≠ d → occurrences p (flame_ray k bp d' n) = 0%nat.
Proof.
  intros Hr. split.
  - apply occurrences_NoDup; [apply flame_ray_NoDup|]. by apply flame_ray_elem.
  - intros d' Hne. apply occurrences_not_elem.
    intros (j' & Hj' & Hq' & _)%flame_ray_elem.
    destruct Hr as (j & Hj & Hq & _). rewrite Hq in Hq'.
    apply ray_tile_inj in Hq' as [-> _]; [done|lia|lia].
Qed.

(** How often a tile occurs in the footprint: once for the bomb's tile and
    for a tile that a ray reaches, never otherwise. *)
Lemma occurrences_footprint k bp n p :
  (p = bp → occurrences p (flame_footprint k bp n) = 1%nat)
  ∧ ((∃ d, flame_reaches k bp (Z.of_nat n) d p) →
     occurrences p (flame_footprint k bp n) = 1%nat)
  ∧ (p ≠ bp → (∀ d, ¬ flame_reaches k bp (Z.of_nat n) d p) →
     occurrences p (flame_footprint k bp n) = 0%nat).
Proof.
  unfold flame_footprint. rewrite occurrences_cons, !occurrences_app.
  split; [|split].
  - intros ->. rewrite decide_True by done.
    rewrite !occurrences_not_elem; [done|..];
      intros (j & Hj & Hq & _)%flame_ray_elem; symmetry in Hq;
      by apply ray_tile_not_origin in Hq; [|lia].
  - intros [d Hr]. rewrite decide_False.
    + destruct (occurrences_ray k bp n d p Hr) as [H1 H0].
      destruct d; rewrite H1, !H0 by done; done.
    + destruct Hr as (j & Hj & -> & _). intros Heq. symmetry in Heq.
      by apply ray_tile_not_origin in Heq; [|lia].
  - intros Hne Hno. rewrite decide_False by (intros ->; done).
    rewrite !occurrences_not_elem; [done|..];
      intros Hin%flame_ray_elem; by eapply Hno.
Qed.

Lemma flame_reaches_to_nat k bp n d p :
  flame_reaches k bp (Z.of_nat (Z.to_nat n)) d p ↔ flame_reaches k bp n d p.
Proof.
  unfold flame_reaches. split; intros (j & Hj & H); exists j; (split; [lia|done]).
Qed.

(** X1. [bomb_explodes] on a well-formed map, for a bomb whose tile is
    inside the map: it returns; every tile keeps its kind, item, flags and
    special object; the bomb's own tile gains exactly one flame, and so does
    every tile that lies at most [flame_length] steps away on one of the
    four axes, is no Wall, and has only in-map Floor tiles between it and
    the bomb; no other tile gains a flame. *)
Theorem bomb_explodes_flames (m : GameMap) (b : nat) :
  grid_ok (tiles m) = true →
  tile_is_withing_map (bomb_tile_position (bomb_at m b)) = true →
  ∃ m',
    bomb_explodes m b = Ok m'
    ∧ grid_ok (tiles m') = true
    ∧ ∀ p, tile_is_withing_map p = true →
        let bp := bomb_tile_position (bomb_at m b) in
        let reached d :=
          flame_reaches (kind_at (tiles m)) bp (bomb_flame_length (bomb_at m b)) d p in
        strip (tile_of (tiles m') p) = strip (tile_of (tiles m) p)
        ∧ (p = bp → flame_count (tiles m') p = S (flame_count (tiles m) p))
        ∧ ((∃ d, reached d) → flame_count (tiles m') p = S (flame_count (tiles m) p))
        ∧ (p ≠ bp → (∀ d, ¬ reached d) → flame_count (tiles m') p = flame_count (tiles m) p).
Proof.
  intros Hg Hbp.
  destruct (bomb_explodes_spec m b Hg Hbp) as (m1 & -> & (_ & Hg1 & Hs) & Hc).
  eexists. split; [done|]. cbn [tiles set_bombs]. rewrite explodes_tiles.
  split; [done|]. intros p Hp.
  split; [by apply Hs|]. rewrite Hc by done.
  destruct (occurrences_footprint (kind_at (tiles m)) (bomb_tile_position (bomb_at m b))
              (Z.to_nat (bomb_flame_length (bomb_at m b))) p) as (H1 & H2 & H3).
  split; [|split].
  - intros Heq. rewrite H1 by done. lia.
  - intros [d Hd]. rewrite H2; [lia|]. exists d. exact (proj2 (flame_reaches_to_nat _ _ _ _ _) Hd).
  - intros Hne Hno. rewrite H3; [lia|done|].
    intros d Hd. apply (Hno d). exact (proj1 (flame_reaches_to_nat _ _ _ _ _) Hd).
Qed.

Lemma bomb_explodes_flames_witness :
  ∃ m', bomb_explodes (sample_map [bomb_on 3 2] sample_players) 0 = Ok m'
        ∧ flame_count (tiles m') (mkPosition 3 1) = 1%nat.
Proof.
  destruct (bomb_explodes_flames (sample_map [bomb_on 3 2] sample_players) 0)
    as (m' & Hrun & _ & Hp); [vm_compute; reflexivity ..|].
  exists m'. split; [exact Hrun|].
  destruct (Hp (mkPosition 3 1) ltac:(vm_compute; reflexivity)) as (_ & _ & Hr & _).
  rewrite Hr; [vm_compute; reflexivity|].
  exists DirUp, 1. split; [vm_compute; split; discriminate|].
  split; [vm_compute; reflexivity|]. split; [vm_compute; reflexivity|].
  split; [vm_compute; discriminate|]. intros i Hi. lia.
Defined.

(** X2. Walls stay bare: when no in-map Wall tile carries a flame and the
    exploding bomb does not itself sit on a Wall tile, no in-map Wall tile
    carries a flame after [bomb_explodes]. *)
Theorem bomb_explodes_keeps_walls_bare (m : GameMap) (b : nat) :
  grid_ok (tiles m) = true →
  tile_is_withing_map (bomb_tile_position (bomb_at m b)) = true →
  kind_at (tiles m) (bomb_tile_position (bomb_at m b)) ≠ TILE_WALL →
  walls_bare (tiles m) →
  ∃ m', bomb_explodes m b = Ok m' ∧ walls_bare (tiles m').
Proof.
  intros Hg Hbp Hnw Hbare.
  destruct (bomb_explodes_spec m b Hg Hbp) as (m1 & -> & Hm1 & Hc).
  eexists. split; [done|]. cbn [tiles set_bombs]. rewrite explodes_tiles.
  intros p Hp Hk. rewrite (flames_changed_kind m m1) in Hk by done.
  rewrite Hc, Hbare by done.
  destruct (occurrences_footprint (kind_at (tiles m)) (bomb_tile_position (bomb_at m b))
              (Z.to_nat (bomb_flame_length (bomb_at m b))) p) as (_ & _ & H3).
  rewrite H3; [done|congruence|]. intros d (j & _ & _ & _ & Hnot & _). done.
Qed.

Lemma no_flames_walls_bare ts :
  forallb (λ line : list MapTile,
    forallb (λ t, (length (flames t) =? 0)%nat) line) ts = true →
  walls_bare ts.
Proof.
  intros Hall p Hp Hk. unfold flame_count, tile_of, cell.
  destruct (ts !! Z.to_nat (pos_row p)) as [line|] eqn:Hl; [|done].
  cbn. destruct (line !! Z.to_nat (pos_col p)) as [t|] eqn:Ht; [|done].
  cbn. rewrite forallb_forall in Hall.
  apply list_elem_of_lookup_2, list_elem_of_In, Hall in Hl.
  rewrite forallb_forall in Hl.
  apply list_elem_of_lookup_2, list_elem_of_In, Hl in Ht.
  by apply Nat.eqb_eq in Ht.
Qed.

Lemma bomb_explodes_keeps_walls_bare_witness :
  ∃ m', bomb_explodes (sample_map [bomb_on 1 2] sample_players) 0 = Ok m'
        ∧ flame_count (tiles m') (mkPosition 1 1) = 0%nat.
Proof.
  destruct (bomb_explodes_keeps_walls_bare (sample_map [bomb_on 1 2] sample_players) 0)
    as (m' & Hrun & Hbare); [vm_compute; reflexivity ..| | |].
  - vm_compute. discriminate.
  - apply no_flames_walls_bare. vm_compute. reflexivity.
  - exists m'. split; [exact Hrun|].
    apply Hbare; [vm_compute; reflexivity|].
    destruct (bomb_explodes_spec (sample_map [bomb_on 1 2] sample_players) 0)
      as (m1 & Hrun1 & Hm1 & _); [vm_compute; reflexivity ..|].
    rewrite Hrun1 in Hrun. injection Hrun as <-.
    cbn [tiles set_bombs]. rewrite explodes_tiles.
    rewrite (flames_changed_kind _ m1) by (done || vm_compute; reflexivity).
    vm_compute. reflexivity.
Defined.

(** *** The bomb allowance *)

Lemma player_at_update_player m i f j :
  player_at (update_player m i f) j
  = if decide (i = j ∧ (i < length (players m))%nat) then f (player_at m i)
    else player_at m j.
Proof. unfold player_at, update_player. cbn. apply list_lookup_total_alter. Qed.

Lemma bomb_at_update_bomb m i f j :
  bomb_at (update_bomb m i f) j
  = if decide (i = j ∧ (i < length (bomb_heap m))%nat) then f (bomb_at m i)
    else bomb_at m j.
Proof. unfold bomb_at, update_bomb. cbn. apply list_lookup_total_alter. Qed.

Lemma explodes_bomb_at m b b' :
  (b < length (bomb_heap m))%nat →
  bomb_at (explodes m b) b'
  = if decide (b' = b) then set_has_exploded true (bomb_at m b) else bomb_at m b'.
Proof.
  intros Hb. unfold explodes. destruct (has_exploded (bomb_at m b)) eqn:He.
  - destruct (decide (b' = b)) as [->|]; [|done]. destruct (bomb_at m b); cbn in *.
    by rewrite He.
  - rewrite bomb_at_update_bomb. cbn.
    destruct (decide (b' = b)) as [->|Hne].
    + by rewrite decide_True.
    + rewrite decide_False; [done|]. intros [Heq _]. congruence.
Qed.

Lemma explodes_player_at m b pl :
  (bomb_player (bomb_at m b) < length (players m))%nat →
  bombs_left (player_at (explodes m b) pl)
  = bombs_left (player_at m pl)
    + (if bool_decide (pl = bomb_player (bomb_at m b)) && negb (has_exploded (bomb_at m b))
       then 1 else 0).
Proof.
  intros Hp. unfold explodes. destruct (has_exploded (bomb_at m b)) eqn:He.
  - rewrite andb_false_r. lia.
  - rewrite andb_true_r.
    change (player_at (update_bomb ?m1 b ?f) pl) with (player_at m1 pl).
    rewrite player_at_update_player.
    destruct (decide (pl = bomb_player (bomb_at m b))) as [->|Hne].
    + rewrite decide_True, bool_decide_eq_true_2 by done. done.
    + rewrite decide_False by (intros [Heq _]; congruence).
      rewrite bool_decide_eq_false_2 by done. lia.
Qed.

(** X3. A bomb replenishes its owner's allowance exactly once.  The first
    [bomb_explodes] of a bomb that has not exploded adds 1 to the
    [bombs_left] of its owner and of nobody else, marks the bomb exploded
    and takes it off the list of live bombs; [bomb_explodes] of a bomb that
    has already exploded, such as a second call, leaves every player as it
    was. *)
Theorem bomb_explodes_replenishes_once (m : GameMap) (b : nat) :
  grid_ok (tiles m) = true →
  tile_is_withing_map (bomb_tile_position (bomb_at m b)) = true →
  (b < length (bomb_heap m))%nat →
  (bomb_player (bomb_at m b) < length (players m))%nat →
  ∃ m' m'',
    bomb_explodes m b = Ok m' ∧ bomb_explodes m' b = Ok m''
    ∧ has_exploded (bomb_at m' b) = true
    ∧ bombs m' = remove_first b (bombs m)
    ∧ (∀ pl, bombs_left (player_at m' pl)
             = bombs_left (player_at m pl)
               + (if bool_decide (pl = bomb_player (bomb_at m b))
                     && negb (has_exploded (bomb_at m b))
                  then 1 else 0))
    ∧ players m'' = players m'.
Proof.
  intros Hg Hbp Hb Hpl.
  destruct (bomb_explodes_spec m b Hg Hbp) as (m1 & H1 & (Hm1 & Hg1 & _) & _).
  set (m' := set_bombs (explodes m1 b) (remove_first b (bombs m))) in *.
  assert (Hheap : bomb_heap m1 = bomb_heap m) by (rewrite Hm1; done).
  assert (Hplayers : players m1 = players m) by (rewrite Hm1; done).
  assert (Hat : bomb_at m' b = set_has_exploded true (bomb_at m b)).
  { unfold m'. change (bomb_at (set_bombs ?x ?l) b) with (bomb_at x b).
    rewrite explodes_bomb_at, decide_True by (done || by rewrite Hheap).
    unfold bomb_at. by rewrite Hheap. }
  destruct (bomb_explodes_spec m' b) as (m2 & H2 & (Hm2 & _ & _) & _).
  { unfold m'. cbn [tiles set_bombs]. by rewrite explodes_tiles. }
  { by rewrite Hat. }
  eexists _, _. split; [exact H1|]. split; [exact H2|].
  split; [by rewrite Hat|]. split; [done|]. split.
  - intros pl. unfold m'. change (player_at (set_bombs ?x ?l) pl) with (player_at x pl).
    rewrite explodes_player_at.
    + unfold player_at, bomb_at. by rewrite Hheap, Hplayers.
    + unfold bomb_at. by rewrite Hheap, Hplayers.
  - cbn [players set_bombs]. unfold explodes.
    assert (Hat2 : bomb_at m2 b = bomb_at m' b) by (rewrite Hm2; done).
    rewrite Hat2, Hat. cbn. rewrite Hm2. done.
Qed.

Lemma bomb_explodes_replenishes_once_witness :
  ∃ m', bomb_explodes (sample_map [bomb_on 3 2] sample_players) 0 = Ok m'
        ∧ bombs_left (player_at m' 0) = 2 ∧ bombs_left (player_at m' 1) = 1.
Proof.
  destruct (bomb_explodes_replenishes_once (sample_map [bomb_on 3 2] sample_players) 0)
    as (m' & m'' & H1 & _ & _ & _ & Hleft & _);
    [vm_compute; reflexivity | vm_compute; reflexivity | vm_compute; lia
    | vm_compute; lia |].
  exists m'. split; [exact H1|].
  rewrite (Hleft 0%nat), (Hleft 1%nat). split; vm_compute; reflexivity.
Defined.

(** ** Positions *)

Lemma Qfloor_half z : Qfloor (inject_Z z + half) = z.
Proof.
  unfold Qfloor, Qplus, inject_Z, half. cbn.
  symmetry. apply (Z.div_unique _ _ _ 1); lia.
Qed.

Lemma frac_half z : (frac (inject_Z z + half) == half)%Q.
Proof.
  unfold frac. rewrite Qfloor_half. unfold half. ring.
Qed.

Lemma position_to_tile_center c : position_to_tile (tile_center c) = position_to_tile c.
Proof.
  unfold position_to_tile, tile_center. cbn [co_col co_row]. by rewrite !Qfloor_half.
Qed.

Lemma near_tile_center_center c : near_tile_center (tile_center c) = true.
Proof.
  unfold near_tile_center, tile_center. cbn [co_col co_row]. cbv zeta.
  assert (H1 : ∀ z, (2 # 10 < frac (inject_Z z + half))%Q)
    by (intros z; rewrite frac_half; reflexivity).
  assert (H2 : ∀ z, (frac (inject_Z z + half) < 1 - (2 # 10))%Q)
    by (intros z; rewrite frac_half; reflexivity).
  repeat match goal with
  | |- context [Qlt_le_dec ?a ?b] =>
      destruct (Qlt_le_dec a b) as [?|Hle]; cbn;
      [|exfalso; first [ eapply Qlt_not_le; [apply H1|exact Hle]
                       | eapply Qlt_not_le; [apply H2|exact Hle] ]]
  end.
  reflexivity.
Qed.

(** X4. [move_to_tile_center] keeps an object on its tile and puts it where
    [is_near_tile_center] holds; in particular a freshly laid bomb sits on
    its owner's tile, near the centre. *)
Theorem move_to_tile_center_spec (c : Coordinate) (owner : nat) (p : Player) :
  position_to_tile (tile_center c) = position_to_tile c
  ∧ near_tile_center (tile_center c) = true
  ∧ bomb_tile_position (new_bomb owner p) = player_tile_position p
  ∧ near_tile_center (bomb_position (new_bomb owner p)) = true.
Proof.
  split; [apply position_to_tile_center|]. split; [apply near_tile_center_center|].
  split; [apply position_to_tile_center|]. apply near_tile_center_center.
Qed.

Lemma send_flying_tile b destination :
  bomb_tile_position (send_flying b destination)
  = mkPosition (pos_col destination mod pos_col MAP_SIZE)
               (pos_row destination mod pos_row MAP_SIZE).
Proof.
  unfold send_flying, bomb_tile_position. cbn [bomb_position set_bomb_position].
  rewrite position_to_tile_center. unfold position_to_tile. cbn [co_col co_row].
  unfold Qfloor, inject_Z. by rewrite !Z.div_1_r.
Qed.

(** X5. [send_flying] always leaves the bomb flying at the centre of a tile
    inside the map (the destination wrapped modulo the map size), with
    nothing travelled yet and a non-negative distance to go; when the
    destination is the next tile in a unit direction from the bomb's tile
    (the rebound of [__update_bombs]), the distance is one tile and the
    flight direction is that direction. *)
Theorem send_flying_spec (b : Bomb) (destination : Position) (d : Position) :
  let b' := send_flying b destination in
  movement b' = BOMB_FLYING
  ∧ tile_is_withing_map (bomb_tile_position b') = true
  ∧ bomb_tile_position b'
    = mkPosition (pos_col destination mod 15) (pos_row destination mod 11)
  ∧ near_tile_center (bomb_position b') = true
  ∧ (distance_travelled (flight_info b') == 0)%Q
  ∧ 0 <= total_distance_to_travel (flight_info b')
  ∧ (is_unit_direction d →
     flight_info (send_flying b (position_add (bomb_tile_position b) d))
     = mkFlightInfo 1 0%Q d).
Proof.
  cbn zeta. split; [done|]. rewrite send_flying_tile.
  split.
  { apply within_bounds. cbn.
    pose proof (Z.mod_pos_bound (pos_col destination) 15 ltac:(lia)).
    pose proof (Z.mod_pos_bound (pos_row destination) 11 ltac:(lia)). lia. }
  split; [done|]. split; [apply near_tile_center_center|].
  split; [reflexivity|]. split; [cbn; lia|].
  intros Hd. unfold send_flying. cbn [flight_info set_bomb_position set_flight_info].
  destruct (bomb_tile_position b) as [c r].
  destruct Hd as [-> | [-> | [-> | ->]]]; cbn;
    rewrite ?Z.add_0_r, ?Z.eqb_refl;
    repeat match goal with
    | |- context [?a =? ?b] => destruct (Z.eqb_spec a b); try lia
    | |- context [?a >? ?b] => destruct (Z.gtb_spec a b); try lia
    end; f_equal; lia.
Qed.

Lemma send_flying_spec_witness :
  flight_info (send_flying (bomb_on 14 5)
                 (position_add (bomb_tile_position (bomb_on 14 5)) (mkPosition 1 0)))
  = mkFlightInfo 1 0%Q (mkPosition 1 0).
Proof.
  apply (send_flying_spec (bomb_on 14 5) (mkPosition 0 0) (mkPosition 1 0)).
  right. left. reflexivity.
Defined.

(** ** Bomb update *)

Lemma bomb_moved_refl b m : grid_ok (tiles m) = true → bomb_moved b m m.
Proof. intros Hg. split; [by destruct m|]. done. Qed.

Lemma bomb_moved_trans b m1 m2 m3 :
  bomb_moved b m1 m2 → bomb_moved b m2 m3 → bomb_moved b m1 m3.
Proof.
  intros (E1 & L1 & O1 & S1 & G1 & T1) (E2 & L2 & O2 & S2 & G2 & T2).
  split; [|split; [|split; [|split; [|split]]]].
  - rewrite E2. rewrite E1 at 1. done.
  - congruence.
  - intros b' Hb'. rewrite O2, O1; done.
  - congruence.
  - done.
  - intros p Hp. rewrite T2, T1; done.
Qed.

Lemma bomb_moved_update b m f :
  (∀ x, strip_motion (f x) = strip_motion x) →
  grid_ok (tiles m) = true → bomb_moved b m (update_bomb m b f).
Proof.
  intros Hf Hg. split; [|split; [|split; [|split; [|split]]]]; cbn.
  - done.
  - by rewrite length_alter.
  - intros b' Hb'. rewrite bomb_at_update_bomb, decide_False; [done|].
    intros [Heq _]. congruence.
  - rewrite bomb_at_update_bomb. case_decide; [apply Hf|done].
  - done.
  - done.
Qed.

Lemma bomb_moved_item b m p :
  grid_ok (tiles m) = true → tile_is_withing_map p = true →
  ∃ m', alter_tile (set_item None) m p = Ok m' ∧ bomb_moved b m m'.
Proof.
  intros Hg Hp. rewrite alter_tile_within by done. eexists. split; [done|].
  split; [|split; [|split; [|split; [|split]]]]; cbn; try done.
  - by rewrite grid_update_ok.
  - intros q Hq. rewrite tile_of_update by done. by case_decide; subst.
Qed.

Lemma bomb_moved_layout b m m' : bomb_moved b m m' → same_layout (tiles m) (tiles m').
Proof.
  intros (_ & _ & _ & _ & _ & Ht) p Hp. specialize (Ht p Hp).
  split.
  - change (kind (strip_item (tile_of (tiles m') p)) = kind (strip_item (tile_of (tiles m) p))).
    by rewrite Ht.
  - change (special_object (strip_item (tile_of (tiles m') p))
            = special_object (strip_item (tile_of (tiles m) p))).
    by rewrite Ht.
Qed.

Lemma tile_has_teleport_ok m p :
  grid_ok (tiles m) = true → ∃ w, tile_has_teleport m p = Ok w.
Proof.
  intros Hg. unfold tile_has_teleport.
  destruct (tile_is_withing_map p) eqn:Hp; cbn; [|by eexists].
  rewrite get_tile_within by done. cbn. by eexists.
Qed.

Lemma keeps_flying_ok m p :
  grid_ok (tiles m) = true → ∃ w, keeps_flying m p = Ok w.
Proof.
  intros Hg. unfold keeps_flying.
  destruct (tile_is_walkable_ok m p Hg) as (w & -> & _). cbn.
  destruct w; [by eexists|]. destruct (0 <? tile_has_player m p); [by eexists|].
  destruct (tile_has_teleport_ok m p Hg) as (t & ->). cbn. by eexists.
Qed.

Lemma strip_motion_send_flying x p : strip_motion (send_flying x p) = strip_motion x.
Proof. by destruct x. Qed.

Lemma update_flying_bomb_moved m b dt :
  grid_ok (tiles m) = true →
  tile_is_withing_map (bomb_tile_position (bomb_at m b)) = true →
  ∃ m', update_flying_bomb m b dt = Ok m' ∧ bomb_moved b m m'.
Proof.
  intros Hg Hb. unfold update_flying_bomb.
  set (m1 := update_bomb m b _).
  assert (H1 : bomb_moved b m m1) by (by apply bomb_moved_update; [intros []|]).
  assert (Hg1 : grid_ok (tiles m1) = true) by done.
  assert (Hb1 : bomb_tile_position (bomb_at m1 b) = bomb_tile_position (bomb_at m b)).
  { unfold m1. rewrite bomb_at_update_bomb. case_decide; [|done]. by destruct (bomb_at m b). }
  destruct (Qle_bool _ _); [|by exists m1].
  rewrite Hb1.
  destruct (keeps_flying_ok m1 (bomb_tile_position (bomb_at m b)) Hg1) as (again & ->).
  cbn. destruct again.
  - eexists. split; [done|]. eapply bomb_moved_trans; [exact H1|].
    apply bomb_moved_update; [|done]. intros x. apply strip_motion_send_flying.
  - set (m2 := update_bomb m1 b _).
    assert (H2 : bomb_moved b m1 m2) by (by apply bomb_moved_update; [intros []|]).
    unfold get_tile_at. rewrite Hb. rewrite get_tile_within by done. cbn.
    destruct (bomb_moved_item b m2 (bomb_tile_position (bomb_at m b)))
      as (m3 & -> & H3); [done|done|].
    exists m3. split; [done|].
    eapply bomb_moved_trans; [exact H1|]. by eapply bomb_moved_trans.
Qed.

Lemma update_rolling_bomb_moved m b dt bomb_pos bomb_tile :
  grid_ok (tiles m) = true → tile_is_withing_map bomb_tile = true →
  ∃ m', update_rolling_bomb m b dt bomb_pos bomb_tile = Ok m' ∧ bomb_moved b m m'.
Proof.
  intros Hg Hb. unfold update_rolling_bomb.
  (* the arrow redirection *)
  match goal with |- context [mbind _ ?c] =>
    assert (∃ m1 c1, c = Ok (m1, c1) ∧ bomb_moved b m m1) as (m1 & c1 & -> & H1)
  end.
  { destruct (near_tile_center _); [|eexists _, _; split; [done|by apply bomb_moved_refl]].
    rewrite get_tile_within by done. cbn.
    destruct (arrow_redirect _ _ _ _) as [[mv c]|];
      [|eexists _, _; split; [done|by apply bomb_moved_refl]].
    eexists _, _. split; [done|]. by apply bomb_moved_update; [intros []|]. }
  rewrite bind_Ok. cbv beta iota.
  assert (Hg1 : grid_ok (tiles m1) = true) by apply H1.
  rewrite get_tile_within by done. rewrite bind_Ok.
  (* a rolling bomb destroys the item of its tile *)
  match goal with |- context [mbind _ ?c] =>
    assert (∃ m2, c = Ok m2 ∧ bomb_moved b m1 m2) as (m2 & -> & H2)
  end.
  { destruct (item _); [by apply bomb_moved_item|].
    eexists. split; [done|by apply bomb_moved_refl]. }
  rewrite bind_Ok.
  assert (Hg2 : grid_ok (tiles m2) = true) by apply H2.
  assert (H12 : bomb_moved b m m2) by (by eapply bomb_moved_trans).
  (* the move and the collision test *)
  assert (Hfinal : ∀ m3 (check : bool) forward mv',
    bomb_moved b m2 m3 →
    ∃ m',
      ((if check then
          walkable ← tile_is_walkable m3 forward;
          if negb (walkable : bool) then Ok true
          else if 0 <? tile_has_player m3 forward then Ok true
          else tile_has_teleport m3 forward
        else Ok false) ≫= λ blocked : bool,
       if blocked then
         Ok (update_bomb m3 b (λ bomb,
               set_movement (if bomb_has_spring bomb then mv' else BOMB_NO_MOVEMENT)
                 (set_bomb_position (tile_center (bomb_position bomb)) bomb)))
       else Ok m3) = Ok m'
      ∧ bomb_moved b m m').
  { intros m3 check forward mv' H3.
    assert (Hg3 : grid_ok (tiles m3) = true) by apply H3.
    assert (H13 : bomb_moved b m m3) by (by eapply bomb_moved_trans).
    assert (∃ bl, (if check then
          walkable ← tile_is_walkable m3 forward;
          if negb (walkable : bool) then Ok true
          else if 0 <? tile_has_player m3 forward then Ok true
          else tile_has_teleport m3 forward
        else Ok false) = Ok bl) as (bl & ->).
    { destruct check; [|by eexists].
      destruct (tile_is_walkable_ok m3 forward Hg3) as (w & -> & _). cbn.
      destruct w; cbn; [|by eexists].
      destruct (0 <? tile_has_player m3 forward); [by eexists|].
      apply tile_has_teleport_ok. done. }
    rewrite bind_Ok. destruct bl; [|by exists m3].
    eexists. split; [done|]. eapply bomb_moved_trans; [exact H13|].
    apply bomb_moved_update; [|done]. intros []. cbn. by destruct bomb_has_spring0. }
  destruct (movement (bomb_at m2 b)) eqn:Emv; cbv beta iota zeta;
    first [ apply Hfinal | apply (Hfinal m2 false bomb_tile) ];
    first [ by apply bomb_moved_refl
          | by apply bomb_moved_update; [intros []|] ].
Qed.

Lemma flames_changed_layout m0 m : flames_changed m0 m → same_layout (tiles m0) (tiles m).
Proof.
  intros (_ & _ & Hs) p Hp. specialize (Hs p Hp). split.
  - change (kind (strip (tile_of (tiles m) p)) = kind (strip (tile_of (tiles m0) p))).
    by rewrite Hs.
  - change (special_object (strip (tile_of (tiles m) p))
            = special_object (strip (tile_of (tiles m0) p))).
    by rewrite Hs.
Qed.

Lemma same_layout_refl ts : same_layout ts ts.
Proof. done. Qed.

Lemma explodes_heap_length m b : length (bomb_heap (explodes m b)) = length (bomb_heap m).
Proof.
  unfold explodes. destruct (has_exploded _); [done|]. cbn. by rewrite length_alter.
Qed.

Lemma explodes_exploded m b :
  (b < length (bomb_heap m))%nat → has_exploded (bomb_at (explodes m b) b) = true.
Proof. intros Hb. by rewrite explodes_bomb_at, decide_True. Qed.

(** One iteration of the loop of [__update_bombs]. *)
Lemma update_bombs_body_spec dt i b m :
  grid_ok (tiles m) = true →
  tile_is_withing_map (bomb_tile_position (bomb_at m b)) = true →
  (b < length (bomb_heap m))%nat →
  ∃ m' i',
    update_bombs_body dt i b m = Ok (m', i')
    ∧ grid_ok (tiles m') = true
    ∧ same_layout (tiles m) (tiles m')
    ∧ length (bomb_heap m') = length (bomb_heap m)
    ∧ (∀ b', b' ≠ b → bomb_at m' b' = bomb_at m b')
    ∧ if has_exploded (bomb_at m b) then
        i' = i ∧ m' = set_bombs m (remove_first b (bombs m))
      else if fuse_is_up dt (bomb_at m b) || burns_on_lava (tiles m) (bomb_at m b) then
        i' = i ∧ bombs m' = remove_first b (bombs m)
        ∧ has_exploded (bomb_at m' b) = true
      else
        i' = S i ∧ bombs m' = bombs m ∧ players m' = players m
        ∧ strip_motion (bomb_at m' b) = strip_motion (aged dt (bomb_at m b))
        ∧ (movement (bomb_at m b) = BOMB_NO_MOVEMENT →
           m' = update_bomb m b (aged dt)).
Proof.
  intros Hg Hb Hheap. unfold update_bombs_body.
  destruct (has_exploded (bomb_at m b)) eqn:Hex.
  { eexists _, _. split; [done|]. cbn. repeat (split; [by auto using same_layout_refl|]). done. }
  set (m1 := update_bomb m b _).
  assert (Hat1 : bomb_at m1 b = aged dt (bomb_at m b)).
  { unfold m1. by rewrite bomb_at_update_bomb, decide_True. }
  assert (Hother1 : ∀ b', b' ≠ b → bomb_at m1 b' = bomb_at m b').
  { intros b' Hb'. unfold m1. rewrite bomb_at_update_bomb, decide_False; [done|].
    intros [Heq _]. congruence. }
  assert (Hg1 : grid_ok (tiles m1) = true) by done.
  assert (Hb1 : tile_is_withing_map (bomb_tile_position (bomb_at m1 b)) = true).
  { rewrite Hat1. by destruct (bomb_at m b). }
  assert (Hlen1 : length (bomb_heap m1) = length (bomb_heap m))
    by (unfold m1; cbn; by rewrite length_alter).
  (* what an explosion of the bomb gives *)
  assert (Hboom :
    ∃ m', bomb_explodes m1 b = Ok m' ∧ grid_ok (tiles m') = true
          ∧ same_layout (tiles m) (tiles m')
          ∧ length (bomb_heap m') = length (bomb_heap m)
          ∧ (∀ b', b' ≠ b → bomb_at m' b' = bomb_at m b')
          ∧ bombs m' = remove_first b (bombs m)
          ∧ has_exploded (bomb_at m' b) = true).
  { destruct (bomb_explodes_spec m1 b Hg1 Hb1) as (m2 & -> & Hm2 & _).
    eexists. split; [done|]. cbn [tiles set_bombs bomb_heap bombs].
    rewrite explodes_tiles.
    assert (Hheap2 : bomb_heap m2 = bomb_heap m1) by (destruct Hm2 as (-> & _); done).
    split; [apply Hm2|]. split; [by apply (flames_changed_layout m1 m2)|].
    change (bomb_heap (set_bombs ?x ?l)) with (bomb_heap x).
    rewrite explodes_heap_length, Hheap2. split; [done|]. split.
    - intros b' Hb'. change (bomb_at (set_bombs ?x ?l) b') with (bomb_at x b').
      rewrite explodes_bomb_at, decide_False by (done || by rewrite Hheap2, Hlen1).
      unfold bomb_at at 1. rewrite Hheap2. by apply Hother1.
    - split; [done|]. change (bomb_at (set_bombs ?x ?l) b) with (bomb_at x b).
      apply explodes_exploded. by rewrite Hheap2, Hlen1. }
  rewrite Hat1.
  assert (Hmv : movement (aged dt (bomb_at m b)) = movement (bomb_at m b))
    by (by destruct (bomb_at m b)).
  assert (Htoe : time_of_existence (aged dt (bomb_at m b)) = time_of_existence (bomb_at m b) + dt)
    by (by destruct (bomb_at m b)).
  assert (Hlim : explodes_in (aged dt (bomb_at m b)) + detonator_time (aged dt (bomb_at m b))
                 = explodes_in (bomb_at m b) + detonator_time (bomb_at m b))
    by (by destruct (bomb_at m b)).
  assert (Hpos : bomb_position (aged dt (bomb_at m b)) = bomb_position (bomb_at m b))
    by (by destruct (bomb_at m b)).
  assert (Htile : bomb_tile_position (aged dt (bomb_at m b)) = bomb_tile_position (bomb_at m b))
    by (by destruct (bomb_at m b)).
  rewrite Hmv, Htoe, Hlim, Hpos, Htile.
  fold (fuse_is_up dt (bomb_at m b)).
  destruct (fuse_is_up dt (bomb_at m b)) eqn:Hfuse.
  { destruct Hboom as (m' & -> & Hg' & Hl' & Hlen' & Ho' & Hbs' & Hex').
    cbn. eexists _, _. split; [done|]. repeat (split; [by auto|]). by auto. }
  cbn [orb].
  assert (Hlava :
    (if bool_decide (movement (bomb_at m b) ≠ BOMB_FLYING) then
       t ← get_tile m1 (bomb_tile_position (bomb_at m b));
       Ok (bool_decide (special_object t = Some SPECIAL_OBJECT_LAVA)
           && near_tile_center (bomb_position (bomb_at m b)))
     else Ok false) = Ok (burns_on_lava (tiles m) (bomb_at m b))).
  { unfold burns_on_lava. destruct (bool_decide (movement (bomb_at m b) ≠ BOMB_FLYING)); [|done].
    rewrite get_tile_within by done. done. }
  rewrite Hlava, bind_Ok.
  destruct (burns_on_lava (tiles m) (bomb_at m b)) eqn:Hburn.
  { destruct Hboom as (m' & -> & Hg' & Hl' & Hlen' & Ho' & Hbs' & Hex').
    cbn. eexists _, _. split; [done|]. repeat (split; [by auto|]). by auto. }
  (* the bomb lives on and may move *)
  assert (Hmove :
    ∃ m', (if decide (movement (bomb_at m b) ≠ BOMB_NO_MOVEMENT) then
             if decide (movement (bomb_at m b) = BOMB_FLYING)
             then update_flying_bomb m1 b dt
             else update_rolling_bomb m1 b dt (bomb_position (bomb_at m b))
                    (bomb_tile_position (bomb_at m b))
           else Ok m1) = Ok m'
          ∧ bomb_moved b m1 m'
          ∧ (movement (bomb_at m b) = BOMB_NO_MOVEMENT → m' = m1)).
  { destruct (decide (movement (bomb_at m b) ≠ BOMB_NO_MOVEMENT)) as [Hne|Heq].
    - destruct (decide (movement (bomb_at m b) = BOMB_FLYING)).
      + destruct (update_flying_bomb_moved m1 b dt Hg1 Hb1) as (m' & -> & Hm').
        by exists m'.
      + destruct (update_rolling_bomb_moved m1 b dt (bomb_position (bomb_at m b))
                    (bomb_tile_position (bomb_at m b)) Hg1 Hb) as (m' & -> & Hm').
        by exists m'.
    - exists m1. split; [done|]. split; [by apply bomb_moved_refl|done]. }
  destruct Hmove as (m' & -> & Hm' & Hstill). rewrite bind_Ok.
  eexists _, _. split; [done|].
  pose proof (bomb_moved_layout b m1 m' Hm') as Hlay.
  destruct Hm' as (E & L & O & S & G & T).
  split; [done|]. split; [done|]. split; [congruence|].
  split; [intros b' Hb'; rewrite O by done; by apply Hother1|].
  split; [done|]. split; [rewrite E; done|]. split; [rewrite E; done|].
  split; [by rewrite S, Hat1|done].
Qed.

Lemma remove_first_delete (l : list nat) i b :
  NoDup l → l !! i = Some b → remove_first b l = delete i l.
Proof.
  revert i. induction l as [|x l IH]; intros i Hnd Hl; [done|].
  apply NoDup_cons in Hnd as [Hx Hnd]. cbn [remove_first].
  destruct i as [|i]; cbn in Hl.
  - injection Hl as ->. by rewrite decide_True.
  - rewrite decide_False.
    + cbn. f_equal. by apply IH.
    + intros ->. apply Hx. by eapply list_elem_of_lookup_2.
Qed.

Lemma remove_first_not_elem (l : list nat) b : b ∉ l → remove_first b l = l.
Proof.
  induction l as [|x l IH]; [done|]. rewrite not_elem_of_cons. intros [Hne Hnin].
  cbn. rewrite decide_False by done. by rewrite IH.
Qed.

Lemma remove_first_sublist (l : list nat) b : remove_first b l `sublist_of` l.
Proof.
  induction l as [|x l IH]; [done|]. cbn. case_decide.
  - by apply sublist_cons.
  - by apply sublist_skip.
Qed.

Lemma update_bombs_loop_inv dt (P : nat → GameMap → Prop) :
  (∀ i m b, P i m → bombs m !! i = Some b →
     ∃ m' i', update_bombs_body dt i b m = Ok (m', i') ∧ P i' m'
              ∧ (length (bombs m') - i' < length (bombs m) - i)%nat) →
  ∀ fuel i m, P i m → (length (bombs m) - i ≤ fuel)%nat →
    ∃ m' i', update_bombs_loop fuel dt i m = Ok m' ∧ P i' m'
             ∧ (length (bombs m') ≤ i')%nat.
Proof.
  intros Hbody fuel. induction fuel as [|fuel IH]; intros i m HP Hfuel.
  - cbn. destruct (bombs m !! i) as [b|] eqn:Hb.
    + apply lookup_lt_Some in Hb. lia.
    + exists m, i. split; [done|]. split; [done|]. by apply lookup_ge_None.
  - cbn. destruct (bombs m !! i) as [b|] eqn:Hb.
    + destruct (Hbody i m b HP Hb) as (m1 & i1 & -> & HP1 & Hlt). rewrite bind_Ok.
      apply IH; [done|lia].
    + exists m, i. split; [done|]. split; [done|]. by apply lookup_ge_None.
Qed.

Lemma same_layout_trans ts1 ts2 ts3 :
  same_layout ts1 ts2 → same_layout ts2 ts3 → same_layout ts1 ts3.
Proof.
  intros H12 H23 p Hp. destruct (H12 p Hp), (H23 p Hp). split; congruence.
Qed.

Lemma update_bombs_body_inv dt m0 i m b :
  update_bombs_inv m0 i m → bombs m !! i = Some b →
  ∃ m' i',
    update_bombs_body dt i b m = Ok (m', i') ∧ update_bombs_inv m0 i' m'
    ∧ (length (bombs m') - i' < length (bombs m) - i)%nat
    ∧ (∀ b', b' ≠ b → bomb_at m' b' = bomb_at m b')
    ∧ ((i' = i ∧ bombs m' = delete i (bombs m))
       ∨ (i' = S i ∧ bombs m' = bombs m)).
Proof.
  intros ((Hg & Hnd & Hpend) & Hrefs & Hlay & Hsub & Hlen) Hb.
  assert (Hin : b ∈ bombs m) by (by eapply list_elem_of_lookup_2).
  destruct (update_bombs_body_spec dt i b m Hg (Hpend i b ltac:(lia) Hb) (Hrefs b Hin))
    as (m' & i' & Hrun & Hg' & Hlay' & Hlen' & Hother & Hcases).
  exists m', i'. split; [done|].
  assert (Hshape : (i' = i ∧ bombs m' = delete i (bombs m))
                   ∨ (i' = S i ∧ bombs m' = bombs m)).
  { rewrite <- (remove_first_delete (bombs m) i b) by done.
    destruct (has_exploded (bomb_at m b)).
    - destruct Hcases as [-> ->]. by left.
    - destruct (fuse_is_up _ _ || burns_on_lava _ _).
      + destruct Hcases as (-> & -> & _). by left.
      + destruct Hcases as (-> & -> & _). by right. }
  assert (Hi : (i < length (bombs m))%nat) by (by eapply lookup_lt_Some).
  split; [|split; [|split; [done|done]]].
  - split; [|split; [|split; [|split]]].
    + (* the bombs still to be looked at *)
      split; [done|]. destruct Hshape as [[-> Hbs]|[-> Hbs]]; rewrite Hbs.
      * split; [by eapply sublist_NoDup; [|apply sublist_delete]|].
        intros j b' Hj Hb'. rewrite list_lookup_delete_ge in Hb' by done.
        rewrite Hother; [by eapply (Hpend (S j)); [lia|]|].
        intros ->. pose proof (NoDup_lookup _ _ _ _ Hnd Hb Hb'). lia.
      * split; [done|]. intros j b' Hj Hb'.
        rewrite Hother; [by eapply (Hpend j); [lia|]|].
        intros ->. pose proof (NoDup_lookup _ _ _ _ Hnd Hb Hb'). lia.
    + intros b' Hb'. rewrite Hlen'. apply Hrefs.
      destruct Hshape as [[_ Hbs]|[_ Hbs]]; rewrite Hbs in Hb'; [|done].
      by eapply elem_of_sublist; [|apply sublist_delete].
    + by eapply same_layout_trans.
    + destruct Hshape as [[_ ->]|[_ ->]]; [|done].
      by etrans; [apply sublist_delete|].
    + congruence.
  - destruct Hshape as [[-> ->]|[-> ->]].
    + rewrite length_delete by (by eexists). lia.
    + lia.
Qed.

Lemma update_bombs_inv_start m :
  grid_ok (tiles m) = true → NoDup (bombs m) → bombs_in_map m = true →
  bomb_refs_ok m = true → update_bombs_inv m 0 m.
Proof.
  intros Hg Hnd Hin Hrefs. unfold bombs_in_map, bomb_refs_ok in *.
  rewrite forallb_forall in Hin, Hrefs.
  split; [|split; [|split; [|split]]]; [|..|done].
  - split; [done|]. split; [done|]. intros j b _ Hb.
    apply Hin. by eapply list_elem_of_In, list_elem_of_lookup_2.
  - intros b Hb. apply list_elem_of_In, Hrefs in Hb. by apply Nat.ltb_lt in Hb.
  - apply same_layout_refl.
  - done.
Qed.

(** X6. [__update_bombs] terminates without an exception on a well-formed
    map (at most one loop iteration per listed bomb); it changes no tile's
    kind or special object and adds no bomb: the bombs left are a sublist of
    the bombs before, in the same order. *)
Theorem update_bombs_terminates (m : GameMap) (dt : Z) :
  grid_ok (tiles m) = true → NoDup (bombs m) → bombs_in_map m = true →
  bomb_refs_ok m = true →
  ∃ m',
    update_bombs m dt = Ok m'
    ∧ grid_ok (tiles m') = true
    ∧ same_layout (tiles m) (tiles m')
    ∧ bombs m' `sublist_of` bombs m.
Proof.
  intros Hg Hnd Hin Hrefs. unfold update_bombs.
  destruct (update_bombs_loop_inv dt (update_bombs_inv m)) with
    (fuel := length (bombs m)) (i := 0%nat) (m := m)
    as (m' & i' & Hrun & ((Hg' & _) & _ & Hlay & Hsub & _) & _).
  - intros i m1 b HP Hb.
    destruct (update_bombs_body_inv dt m i m1 b HP Hb) as (m2 & i2 & H1 & H2 & H3 & _).
    by exists m2, i2.
  - by apply update_bombs_inv_start.
  - lia.
  - by exists m'.
Qed.

Lemma update_bombs_terminates_witness :
  ∃ m', update_bombs (sample_map [bomb_on 3 2; expired_flying_bomb 1 1] sample_players) 16
        = Ok m'.
Proof.
  destruct (update_bombs_terminates
              (sample_map [bomb_on 3 2; expired_flying_bomb 1 1] sample_players) 16)
    as (m' & Hrun & _);
    [vm_compute; reflexivity | | vm_compute; reflexivity | vm_compute; reflexivity |].
  - apply (bool_decide_unpack _). vm_compute. exact I.
  - exists m'. exact Hrun.
Defined.

Lemma elem_of_delete_NoDup (l : list nat) i b x :
  NoDup l → l !! i = Some b → (x ∈ delete i l ↔ x ∈ l ∧ x ≠ b).
Proof.
  intros Hnd Hb. rewrite !list_elem_of_lookup. split.
  - intros [j Hj]. rewrite list_lookup_delete in Hj. split; [by eexists|].
    intros ->. pose proof (NoDup_lookup _ _ _ _ Hnd Hb Hj) as Heq.
    destruct (decide (j < i)%nat); lia.
  - intros [[j Hj] Hne].
    assert (j ≠ i) by (intros ->; congruence).
    destruct (decide (j < i)%nat).
    + exists j. by rewrite list_lookup_delete_lt.
    + exists (pred j). rewrite list_lookup_delete_ge by lia.
      by replace (S (pred j)) with j by lia.
Qed.

Lemma strip_motion_has_exploded x y :
  strip_motion x = strip_motion y → has_exploded x = has_exploded y.
Proof. intros H. by apply (f_equal has_exploded) in H. Qed.

Lemma update_bombs_body_inv_for dt m0 b0 i m b :
  has_exploded (bomb_at m0 b0) = false →
  update_bombs_inv_for dt m0 b0 i m → bombs m !! i = Some b →
  ∃ m' i',
    update_bombs_body dt i b m = Ok (m', i') ∧ update_bombs_inv_for dt m0 b0 i' m'
    ∧ (length (bombs m') - i' < length (bombs m) - i)%nat.
Proof.
  intros Hfresh [Hinv Hb0] Hb.
  destruct (update_bombs_body_inv dt m0 i m b Hinv Hb)
    as (m' & i' & Hrun & Hinv' & Hlt & Hother & Hshape).
  exists m', i'. split; [done|]. split; [|done]. split; [done|].
  destruct Hinv as ((Hg & Hnd & Hpend) & Hrefs & Hlay & Hsub & Hlen).
  destruct (decide (b = b0)) as [->|Hne].
  - (* the loop looks at [b0] itself *)
    right.
    destruct Hb0 as [[_ Hat]|[Hnp _]]; [|exfalso; apply Hnp; exists i; by split].
    assert (Hin : b0 ∈ bombs m) by (by eapply list_elem_of_lookup_2).
    assert (Hw : tile_is_withing_map (bomb_tile_position (bomb_at m b0)) = true)
      by (by eapply (Hpend i)).
    destruct (update_bombs_body_spec dt i b0 m Hg Hw (Hrefs b0 Hin))
      as (m2 & i2 & Hrun2 & _ & _ & _ & _ & Hcases).
    rewrite Hrun in Hrun2. injection Hrun2 as <- <-.
    rewrite Hat, Hfresh in Hcases.
    assert (Hlava : burns_on_lava (tiles m) (bomb_at m0 b0)
                    = burns_on_lava (tiles m0) (bomb_at m0 b0)).
    { unfold burns_on_lava. rewrite Hat in Hw. destruct (Hlay _ Hw) as [_ ->]. done. }
    rewrite Hlava in Hcases. unfold bomb_outcome. cbv zeta.
    destruct (fuse_is_up dt (bomb_at m0 b0) || burns_on_lava (tiles m0) (bomb_at m0 b0)).
    + destruct Hcases as (-> & Hbs & Hex).
      rewrite (remove_first_delete _ i) in Hbs by done.
      assert (Hgone : b0 ∉ bombs m').
      { rewrite Hbs, (elem_of_delete_NoDup _ i b0) by done. by intros [_ ?]. }
      split.
      * intros (j & Hj & Hlook). apply Hgone. by eapply list_elem_of_lookup_2.
      * split; [done|]. split; [|done]. split; [done|]. intros ?. done.
    + destruct Hcases as (-> & Hbs & _ & Hstrip & _).
      split.
      * intros (j & Hj & Hlook). rewrite Hbs in Hlook.
        pose proof (NoDup_lookup _ _ _ _ Hnd Hb Hlook). lia.
      * split.
        { rewrite (strip_motion_has_exploded _ _ Hstrip).
          destruct (bomb_at m0 b0); cbn in *. done. }
        split; [|done]. rewrite Hbs. done.
  - (* the loop looks at another bomb *)
    assert (Hsame : bomb_at m' b0 = bomb_at m b0) by (by apply Hother).
    assert (Hmem : b0 ∈ bombs m' ↔ b0 ∈ bombs m).
    { destruct Hshape as [[_ ->]|[_ ->]]; [|done].
      rewrite (elem_of_delete_NoDup _ i b) by done.
      split; [by intros [? _]|]. intros ?. split; [done|congruence]. }
    destruct Hb0 as [[(j & Hj & Hlook) Hat]|[Hnp Hout]].
    + left. split; [|congruence].
      assert (j ≠ i) by (intros ->; congruence).
      destruct Hshape as [[-> Hbs]|[-> Hbs]]; rewrite ?Hbs.
      * exists (pred j). split; [lia|]. unfold bomb_pending. rewrite Hbs.
        rewrite list_lookup_delete_ge by lia. by replace (S (pred j)) with j by lia.
      * exists j. split; [lia|]. by rewrite Hbs.
    + right. split.
      * intros (j & Hj & Hlook). apply Hnp.
        destruct Hshape as [[-> Hbs]|[-> Hbs]]; rewrite Hbs in Hlook.
        -- rewrite list_lookup_delete_ge in Hlook by lia. exists (S j). split; [lia|done].
        -- exists j. split; [lia|done].
      * unfold bomb_outcome in *. cbv zeta in *. rewrite Hsame, Hmem. done.
Qed.

(** X7. What [__update_bombs] does to one bomb.  On a well-formed map, a
    listed bomb that has not exploded explodes in this update exactly when
    it is not flying and either its age after the update exceeds
    [explodes_in + detonator_time] or it sits near the centre of a lava
    tile (the kind of the strict comparison [>]: at an age equal to the
    deadline it does not explode).  An exploded bomb is off the list and
    marked; a surviving bomb stays listed, its age has grown by [dt] and its
    fuse data is as before.  A flying bomb never explodes here. *)
Theorem update_bombs_outcome (m : GameMap) (dt : Z) (b0 : nat) :
  grid_ok (tiles m) = true → NoDup (bombs m) → bombs_in_map m = true →
  bomb_refs_ok m = true →
  b0 ∈ bombs m → has_exploded (bomb_at m b0) = false →
  ∃ m',
    update_bombs m dt = Ok m'
    ∧ let bomb := bomb_at m b0 in
      let explodes_now := fuse_is_up dt bomb || burns_on_lava (tiles m) bomb in
      has_exploded (bomb_at m' b0) = explodes_now
      ∧ (b0 ∈ bombs m' ↔ explodes_now = false)
      ∧ (explodes_now = false →
         time_of_existence (bomb_at m' b0) = time_of_existence bomb + dt
         ∧ explodes_in (bomb_at m' b0) = explodes_in bomb
         ∧ detonator_time (bomb_at m' b0) = detonator_time bomb)
      ∧ (movement bomb = BOMB_FLYING → explodes_now = false).
Proof.
  intros Hg Hnd Hin Hrefs Hb0 Hfresh. unfold update_bombs.
  destruct (update_bombs_loop_inv dt (update_bombs_inv_for dt m b0)) with
    (fuel := length (bombs m)) (i := 0%nat) (m := m)
    as (m' & i' & Hrun & (_ & Hout) & Hend).
  - intros i m1 b HP Hb. by apply update_bombs_body_inv_for.
  - split; [by apply update_bombs_inv_start|]. left. split; [|done].
    apply list_elem_of_lookup in Hb0 as [j Hj]. exists j. split; [lia|done].
  - lia.
  - exists m'. split; [done|]. cbv zeta.
    destruct Hout as [[(j & Hj & Hlook) _]|[_ (Hex & Hmem & Hstrip)]].
    { apply lookup_lt_Some in Hlook. lia. }
    split; [done|]. split; [done|]. split.
    + intros Hno. specialize (Hstrip Hno).
      split; [|split].
      * apply (f_equal time_of_existence) in Hstrip. by destruct (bomb_at m b0).
      * apply (f_equal explodes_in) in Hstrip. by destruct (bomb_at m b0).
      * apply (f_equal detonator_time) in Hstrip. by destruct (bomb_at m b0).
    + intros Hfly. unfold fuse_is_up, burns_on_lava. rewrite Hfly. done.
Qed.

Lemma update_bombs_outcome_witness :
  ∃ m', update_bombs (sample_map [set_time_of_existence 2984 (bomb_on 3 2)] sample_players) 16
        = Ok m'
        ∧ has_exploded (bomb_at m' 0) = false.
Proof.
  destruct (update_bombs_outcome
              (sample_map [set_time_of_existence 2984 (bomb_on 3 2)] sample_players) 16 0)
    as (m' & Hrun & Hex & _);
    [vm_compute; reflexivity | | vm_compute; reflexivity | vm_compute; reflexivity
    | | vm_compute; reflexivity |].
  - apply (bool_decide_unpack _). vm_compute. exact I.
  - apply (bool_decide_unpack _). vm_compute. exact I.
  - exists m'. split; [exact Hrun|]. rewrite Hex. vm_compute. reflexivity.
Defined.

Lemma tile_is_walkable_update_bomb m b f p :
  (∀ x, movement (f x) = movement x ∧ bomb_position (f x) = bomb_position x) →
  tile_is_walkable (update_bomb m b f) p = tile_is_walkable m p.
Proof.
  intros Hf. unfold tile_is_walkable, tile_has_bomb, bomb_on_tile, bombs_on_tile.
  change (bombs (update_bomb m b f)) with (bombs m).
  change (get_tile (update_bomb m b f) p) with (get_tile m p).
  erewrite list_filter_iff; [done|].
  intros x. cbn beta. rewrite bomb_at_update_bomb. unfold bomb_tile_position.
  case_decide as Hd; [|done]. destruct Hd as [<- _].
  destruct (Hf (bomb_at m b)) as [-> ->]. done.
Qed.

(** X8. A flying bomb in [__update_bombs].  Its travelled distance grows
    by [dt / 1000 * 5].  Short of the total distance nothing else changes.
    Once the total distance is reached, the bomb lands - it becomes
    stationary on its tile and the item of that tile is destroyed - when the
    tile is walkable, or a player stands on it, or it has a teleport;
    only when none of the three holds it flies on, to the next tile in its
    flight direction, wrapped into the map. *)
Theorem update_flying_bomb_arrival (m : GameMap) (b : nat) (dt : Z) :
  grid_ok (tiles m) = true →
  tile_is_withing_map (bomb_tile_position (bomb_at m b)) = true →
  (b < length (bomb_heap m))%nat →
  let bomb := bomb_at m b in
  let tile := bomb_tile_position bomb in
  let travelled :=
    (distance_travelled (flight_info bomb) + distance_in dt FLYING_SPEED)%Q in
  ∃ m' walkable teleport,
    update_flying_bomb m b dt = Ok m'
    ∧ tile_is_walkable m tile = Ok walkable
    ∧ tile_has_teleport m tile = Ok teleport
    ∧ if Qle_bool (inject_Z (total_distance_to_travel (flight_info bomb))) travelled then
        if walkable || (0 <? tile_has_player m tile) || teleport then
          movement (bomb_at m' b) = BOMB_NO_MOVEMENT
          ∧ bomb_position (bomb_at m' b) = bomb_position bomb
          ∧ item (tile_of (tiles m') tile) = None
        else
          movement (bomb_at m' b) = BOMB_FLYING
          ∧ tiles m' = tiles m
          ∧ bomb_tile_position (bomb_at m' b)
            = mkPosition
                ((pos_col tile + pos_col (flight_direction (flight_info bomb))) mod 15)
                ((pos_row tile + pos_row (flight_direction (flight_info bomb))) mod 11)
      else
        tiles m' = tiles m
        ∧ movement (bomb_at m' b) = movement bomb
        ∧ bomb_position (bomb_at m' b) = bomb_position bomb
        ∧ distance_travelled (flight_info (bomb_at m' b)) = travelled.
Proof.
  intros Hg Hw Hb. cbv zeta. unfold update_flying_bomb.
  set (m1 := update_bomb m b _).
  assert (Hat1 : bomb_at m1 b
    = set_flight_info
        (set_distance_travelled
           (distance_travelled (flight_info (bomb_at m b)) + distance_in dt FLYING_SPEED)%Q
           (flight_info (bomb_at m b))) (bomb_at m b)).
  { unfold m1. by rewrite bomb_at_update_bomb, decide_True. }
  assert (Hwalk1 : ∀ p, tile_is_walkable m1 p = tile_is_walkable m p).
  { intros p. unfold m1. apply tile_is_walkable_update_bomb. by intros []. }
  destruct (tile_is_walkable_ok m (bomb_tile_position (bomb_at m b)) Hg) as (wk & Hwk & _).
  destruct (tile_has_teleport_ok m (bomb_tile_position (bomb_at m b)) Hg) as (tp & Htp).
  rewrite Hat1.
  assert (Hfi : flight_info (set_flight_info
        (set_distance_travelled
           (distance_travelled (flight_info (bomb_at m b)) + distance_in dt FLYING_SPEED)%Q
           (flight_info (bomb_at m b))) (bomb_at m b))
     = set_distance_travelled
           (distance_travelled (flight_info (bomb_at m b)) + distance_in dt FLYING_SPEED)%Q
           (flight_info (bomb_at m b))) by (by destruct (bomb_at m b)).
  rewrite Hfi. cbn [total_distance_to_travel distance_travelled set_distance_travelled
                    flight_direction].
  assert (Htile : bomb_tile_position (set_flight_info
        (set_distance_travelled
           (distance_travelled (flight_info (bomb_at m b)) + distance_in dt FLYING_SPEED)%Q
           (flight_info (bomb_at m b))) (bomb_at m b))
     = bomb_tile_position (bomb_at m b)) by (by destruct (bomb_at m b)).
  rewrite Htile.
  destruct (Qle_bool _ _).
  - unfold keeps_flying. rewrite Hwalk1, Hwk, bind_Ok.
    change (tile_has_player m1 ?p) with (tile_has_player m p).
    change (tile_has_teleport m1 ?p) with (tile_has_teleport m p).
    destruct wk; cbn [orb negb].
    + (* lands on a walkable tile *)
      rewrite bind_Ok. unfold get_tile_at. rewrite Hw, get_tile_within by done.
      rewrite bind_Ok. rewrite alter_tile_within by done.
      eexists _, true, tp. split; [done|]. split; [done|]. split; [done|].
      cbn [tiles set_tiles]. rewrite tile_of_update, decide_True by done.
      change (bomb_at (set_tiles ?x ?t) b) with (bomb_at x b).
      rewrite bomb_at_update_bomb, decide_True by (by unfold m1; cbn; rewrite length_alter).
      rewrite Hat1. split; [by destruct (bomb_at m b)|]. split; [by destruct (bomb_at m b)|done].
    + destruct (0 <? tile_has_player m (bomb_tile_position (bomb_at m b))) eqn:Hpl; cbn [orb].
      * (* lands on a player's tile *)
        rewrite bind_Ok. unfold get_tile_at. rewrite Hw, get_tile_within by done.
        rewrite bind_Ok. rewrite alter_tile_within by done.
        eexists _, false, tp. split; [done|]. split; [done|]. split; [done|].
        cbn [orb tiles set_tiles]. rewrite tile_of_update, decide_True by done.
        change (bomb_at (set_tiles ?x ?t) b) with (bomb_at x b).
        rewrite bomb_at_update_bomb, decide_True by (by unfold m1; cbn; rewrite length_alter).
        rewrite Hat1. split; [by destruct (bomb_at m b)|]. split; [by destruct (bomb_at m b)|done].
      * rewrite Htp, bind_Ok. destruct tp; cbn [negb].
        -- (* lands on a teleport *)
           unfold get_tile_at. rewrite Hw, get_tile_within by done.
           rewrite bind_Ok. rewrite alter_tile_within by done.
           eexists _, false, true. split; [done|]. split; [done|]. split; [done|].
           cbn [orb tiles set_tiles]. rewrite tile_of_update, decide_True by done.
           change (bomb_at (set_tiles ?x ?t) b) with (bomb_at x b).
           rewrite bomb_at_update_bomb, decide_True by (by unfold m1; cbn; rewrite length_alter).
           rewrite Hat1. split; [by destruct (bomb_at m b)|]. split; [by destruct (bomb_at m b)|done].
        -- (* flies on *)
           eexists _, false, false. split; [done|]. split; [done|]. split; [done|].
           cbn [orb].
           rewrite bomb_at_update_bomb, decide_True by (by unfold m1; cbn; rewrite length_alter).
           rewrite Hat1, Hfi. split; [done|]. split; [done|].
           rewrite send_flying_tile. done.
  - eexists m1, wk, tp. split; [done|]. split; [done|]. split; [done|].
    rewrite Hat1. split; [done|]. by destruct (bomb_at m b).
Qed.

Lemma update_flying_bomb_arrival_witness :
  ∃ m', update_flying_bomb
          (sample_map [send_flying (bomb_on 0 1) (mkPosition 1 1)] sample_players) 0 1000
        = Ok m'
        ∧ movement (bomb_at m' 0) = BOMB_FLYING
        ∧ bomb_tile_position (bomb_at m' 0) = mkPosition 2 1.
Proof.
  destruct (update_flying_bomb_arrival
              (sample_map [send_flying (bomb_on 0 1) (mkPosition 1 1)] sample_players) 0 1000)
    as (m' & wk & tp & Hrun & Hwk & Htp & Hres);
    [vm_compute; reflexivity | vm_compute; reflexivity | cbn; lia |].
  vm_compute in Hwk. vm_compute in Htp.
  injection Hwk as <-. injection Htp as <-.
  exists m'. split; [exact Hrun|].
  destruct Hres as (Hmv & _ & Htile). split; [exact Hmv|]. exact Htile.
Defined.

(** ** The tile pass *)

Lemma explodes_motion m b b' :
  bomb_position (bomb_at (explodes m b) b') = bomb_position (bomb_at m b')
  ∧ movement (bomb_at (explodes m b) b') = movement (bomb_at m b').
Proof.
  unfold explodes. destruct (has_exploded (bomb_at m b)); [done|].
  rewrite bomb_at_update_bomb.
  change (bomb_at (update_player ?m1 ?i ?f) ?j) with (bomb_at m1 j).
  case_decide as Hd; [|done]. destruct Hd as [<- _]. by destruct (bomb_at m b).
Qed.

Lemma explodes_number_of_blocks m b :
  number_of_blocks (explodes m b) = number_of_blocks m.
Proof. unfold explodes. by destruct (has_exploded (bomb_at m b)). Qed.

Lemma elem_of_remove_first_ne (l : list nat) b x :
  x ≠ b → x ∈ l → x ∈ remove_first b l.
Proof.
  intros Hne. induction l as [|y l IH]; [done|]. cbn. intros Hin.
  apply elem_of_cons in Hin as [->|Hin].
  - rewrite decide_False by done. by left.
  - case_decide; [done|]. right. by apply IH.
Qed.

Lemma remove_first_length (l : list nat) b :
  b ∈ l → S (length (remove_first b l)) = length l.
Proof.
  induction l as [|y l IH]; intros Hin; [by apply elem_of_nil in Hin|].
  cbn. case_decide as Hd; [done|]. cbn. f_equal. apply IH.
  apply elem_of_cons in Hin as [->|Hin]; done.
Qed.

(** [for bomb in bombs_inside_flame: self.bomb_explodes(bomb)] for distinct
    live bombs on the tile [p]. *)
Lemma explode_all_spec p bs : ∀ m,
  grid_ok (tiles m) = true → tile_is_withing_map p = true →
  NoDup bs → NoDup (bombs m) →
  (∀ b, b ∈ bs → b ∈ bombs m ∧ bomb_tile_position (bomb_at m b) = p) →
  ∃ m', explode_all bs m = Ok m'
    ∧ grid_ok (tiles m') = true
    ∧ number_of_blocks m' = number_of_blocks m
    ∧ NoDup (bombs m')
    ∧ bombs m' `sublist_of` bombs m
    ∧ (length (bombs m') + length bs = length (bombs m))%nat
    ∧ (∀ q, tile_is_withing_map q = true →
            strip (tile_of (tiles m') q) = strip (tile_of (tiles m) q))
    ∧ flame_count (tiles m') p = (flame_count (tiles m) p + length bs)%nat
    ∧ ∀ q, tile_is_withing_map q = true →
           (flame_count (tiles m) q ≤ flame_count (tiles m') q)%nat.
Proof.
  induction bs as [|b bs IH]; intros m Hg Hp Hnd Hndm Hbs; cbn [explode_all].
  { exists m. split; [done|]. split; [done|]. split; [done|]. split; [done|].
    split; [done|]. cbn. split; [lia|]. split; [done|]. split; [lia|]. intros q _. lia. }
  apply NoDup_cons in Hnd as [Hb Hnd].
  destruct (Hbs b ltac:(left)) as [Hbm Hbp].
  destruct (bomb_explodes_spec m b Hg) as (m1 & -> & (Hm1 & Hg1 & Hs1) & Hc1);
    [by rewrite Hbp|].
  rewrite bind_Ok.
  set (M := set_bombs (explodes m1 b) (remove_first b (bombs m))).
  assert (Hheap : ∀ b', bomb_position (bomb_at M b') = bomb_position (bomb_at m b')
                        ∧ movement (bomb_at M b') = movement (bomb_at m b')).
  { intros b'. change (bomb_at M b') with (bomb_at (explodes m1 b) b').
    destruct (explodes_motion m1 b b') as [-> ->]. rewrite Hm1. done. }
  destruct (IH M) as (m' & Hrun & Hg' & Hn' & Hnd' & Hsub' & Hlen' & Hs' & Hc' & Hmono').
  - cbn. by rewrite explodes_tiles.
  - done.
  - done.
  - cbn. eapply sublist_NoDup; [exact Hndm|]. apply remove_first_sublist.
  - intros b' Hb'. destruct (Hbs b' ltac:(by right)) as [Hin Hpos]. split.
    + cbn. apply elem_of_remove_first_ne; [|done]. intros ->. done.
    + unfold bomb_tile_position. destruct (Hheap b') as [-> _]. done.
  - exists m'. split; [done|]. split; [done|].
    split. { rewrite Hn'. cbn. rewrite explodes_number_of_blocks, Hm1. done. }
    split; [done|].
    split. { etrans; [exact Hsub'|]. cbn. apply remove_first_sublist. }
    split. { cbn in Hlen'. pose proof (remove_first_length _ _ Hbm). cbn. lia. }
    split. { intros q Hq. rewrite Hs' by done. cbn. rewrite explodes_tiles. by apply Hs1. }
    split.
    { rewrite Hc'. cbn [tiles M set_bombs]. unfold M. cbn [tiles set_bombs].
      rewrite explodes_tiles, Hc1 by done.
      rewrite (proj1 (occurrences_footprint (kind_at (tiles m))
                        (bomb_tile_position (bomb_at m b))
                        (Z.to_nat (bomb_flame_length (bomb_at m b))) p)) by (by symmetry).
      cbn. lia. }
    intros q Hq. etrans; [|by apply Hmono']. unfold M. cbn [tiles set_bombs].
    rewrite explodes_tiles, Hc1 by done. lia.
Qed.

Lemma strip_fields t t' :
  strip t' = strip t →
  kind t' = kind t ∧ coordinates t' = coordinates t
  ∧ to_be_destroyed t' = to_be_destroyed t ∧ item t' = item t
  ∧ special_object t' = special_object t
  ∧ strip_burn t' = strip_burn t.
Proof.
  destruct t, t'. unfold strip, strip_burn, set_flames, set_to_be_destroyed, set_item.
  cbn. intros [=]. by subst.
Qed.

(** The first statements of an iteration of the flame loop: a flame on a
    Block marks it, a flame on a Floor tile destroys its item. *)
Lemma burn_tile_spec m p :
  grid_ok (tiles m) = true → tile_is_withing_map p = true →
  let t := tile_of (tiles m) p in
  ∃ m1,
    (if decide (kind t = TILE_BLOCK) then alter_tile (set_to_be_destroyed true) m p
     else if decide (kind t = TILE_FLOOR ∧ item t ≠ None) then alter_tile (set_item None) m p
     else Ok m) = Ok m1
    ∧ m1 = set_tiles m (tiles m1)
    ∧ grid_ok (tiles m1) = true
    ∧ (∀ q, tile_is_withing_map q = true → q ≠ p →
            tile_of (tiles m1) q = tile_of (tiles m) q)
    ∧ tile_of (tiles m1) p
      = set_item (if bool_decide (kind t = TILE_FLOOR) then None else item t)
          (set_to_be_destroyed (to_be_destroyed t || bool_decide (kind t = TILE_BLOCK)) t).
Proof.
  intros Hg Hp t.
  destruct (decide (kind t = TILE_BLOCK)) as [Hb|Hb];
    [|destruct (decide (kind t = TILE_FLOOR ∧ item t ≠ None)) as [Hf|Hf]].
  - rewrite alter_tile_within by done. eexists. split; [done|]. cbn [tiles set_tiles].
    split; [done|]. split; [by rewrite grid_update_ok|]. split.
    + intros q Hq Hne. by rewrite tile_of_update, decide_False.
    + rewrite tile_of_update, decide_True by done. fold t.
      rewrite (bool_decide_eq_true_2 _ Hb), orb_true_r.
      rewrite bool_decide_eq_false_2 by congruence.
      by destruct t.
  - rewrite alter_tile_within by done. eexists. split; [done|]. cbn [tiles set_tiles].
    split; [done|]. split; [by rewrite grid_update_ok|]. split.
    + intros q Hq Hne. by rewrite tile_of_update, decide_False.
    + rewrite tile_of_update, decide_True by done. fold t. destruct Hf as [Hf _].
      rewrite (bool_decide_eq_true_2 _ Hf), (bool_decide_eq_false_2 _ Hb), orb_false_r.
      by destruct t.
  - exists m. split; [done|]. split; [by destruct m|]. split; [done|]. split; [done|].
    fold t. rewrite (bool_decide_eq_false_2 _ Hb), orb_false_r.
    case_bool_decide as Hk.
    + destruct (item t) eqn:Hi; [exfalso; by apply Hf|].
      destruct t; cbn in *; by subst.
    + by destruct t.
Qed.

(** The flame loop of the tile pass on the tile at [p], from index [i]. *)
Lemma update_flames_loop_spec dt p : ∀ fuel i m,
  grid_ok (tiles m) = true → tile_is_withing_map p = true →
  coordinates (tile_of (tiles m) p) = p → NoDup (bombs m) →
  (length (flames (tile_of (tiles m) p)) - i + length (bombs m) ≤ fuel)%nat →
  let t := tile_of (tiles m) p in
  ∃ m', update_flames_loop fuel dt p i m = Ok m'
    ∧ grid_ok (tiles m') = true
    ∧ number_of_blocks m' = number_of_blocks m
    ∧ NoDup (bombs m')
    ∧ bombs m' `sublist_of` bombs m
    ∧ (∀ q, tile_is_withing_map q = true → q ≠ p →
            strip (tile_of (tiles m') q) = strip (tile_of (tiles m) q))
    ∧ strip_burn (tile_of (tiles m') p) = strip_burn t
    ∧ to_be_destroyed (tile_of (tiles m') p)
      = to_be_destroyed t
        || (bool_decide (kind t = TILE_BLOCK) && (i <? length (flames t))%nat)
    ∧ item (tile_of (tiles m') p)
      = (if bool_decide (kind t = TILE_FLOOR) && (i <? length (flames t))%nat
         then None else item t)
    ∧ (∀ q, tile_is_withing_map q = true → q ≠ p →
            (flame_count (tiles m) q ≤ flame_count (tiles m') q)%nat)
    ∧ (bombs_on_tile m p = [] ∨ (length (flames t) ≤ i)%nat →
       (∀ q, tile_is_withing_map q = true → q ≠ p →
             tile_of (tiles m') q = tile_of (tiles m) q)
       ∧ bombs m' = bombs m ∧ bomb_heap m' = bomb_heap m)
    ∧ ((length (flames t) ≤ i)%nat → m' = m).
Proof.
  induction fuel as [|fuel IH]; intros i m Hg Hp Hco Hnd Hfuel t.
  - cbn [update_flames_loop]. rewrite get_tile_within by done. rewrite bind_Ok. fold t.
    assert (Hle : (length (flames t) ≤ i)%nat) by (unfold t; lia).
    rewrite (proj2 (Nat.leb_le _ _) Hle), (proj2 (Nat.ltb_ge _ _) Hle).
    rewrite !andb_false_r, orb_false_r.
    exists m. do 9 (split; [done|]). split; [intros; lia|]. split; by intros _.
  - cbn [update_flames_loop]. rewrite get_tile_within by done. rewrite bind_Ok. fold t.
    destruct (length (flames t) <=? i)%nat eqn:Hle.
    { apply Nat.leb_le in Hle. rewrite (proj2 (Nat.ltb_ge _ _) Hle).
      rewrite !andb_false_r, orb_false_r.
      exists m. do 9 (split; [done|]). split; [intros; lia|]. split; by intros _. }
    apply Nat.leb_gt in Hle. rewrite (proj2 (Nat.ltb_lt _ _) Hle), !andb_true_r.
    destruct (burn_tile_spec m p Hg Hp) as (m1 & Hrun1 & Hm1 & Hg1 & Hq1 & Hp1).
    fold t in Hrun1, Hp1, Hco. rewrite Hrun1, bind_Ok. rewrite Hco.
    assert (Hb1 : bombs m1 = bombs m) by (by rewrite Hm1).
    assert (Hn1 : number_of_blocks m1 = number_of_blocks m) by (by rewrite Hm1).
    destruct (explode_all_spec p (bombs_on_tile m1 p) m1)
      as (m2 & Hrun2 & Hg2 & Hn2 & Hnd2 & Hsub2 & Hlen2 & Hs2 & Hc2 & Hmono2).
    { done. } { done. }
    { apply NoDup_filter. by rewrite Hb1. }
    { by rewrite Hb1. }
    { intros b Hb. apply list_elem_of_filter in Hb as [[_ Hpos] Hin]. done. }
    rewrite Hrun2, bind_Ok. rewrite get_tile_within by done. rewrite bind_Ok.
    set (t2 := tile_of (tiles m2) p).
    destruct (strip_fields _ _ (Hs2 p Hp)) as (Hk2 & Hco2 & Htbd2 & Hit2 & _ & Hsb2).
    fold t2 in Hk2, Hco2, Htbd2, Hit2, Hsb2.
    rewrite Hp1 in Hk2, Hco2, Htbd2, Hit2, Hsb2.
    assert (Hlen_t2 : length (flames t2) = (length (flames t) + length (bombs_on_tile m1 p))%nat).
    { unfold flame_count in Hc2. fold t2 in Hc2. rewrite Hc2, Hp1. done. }
    destruct (flames t2 !! i) as [flame|] eqn:Hfl;
      [|apply lookup_ge_None in Hfl; lia].
    set (F := if time_to_burnout (set_time_to_burnout (time_to_burnout flame - dt) flame) <? 0
              then delete i (flames t2)
              else <[i := set_time_to_burnout (time_to_burnout flame - dt) flame]> (flames t2)).
    assert (HF : (length F ≤ length (flames t2))%nat).
    { unfold F. destruct (_ <? 0).
      - rewrite length_delete by (by rewrite Hfl). lia.
      - by rewrite length_insert. }
    rewrite alter_tile_within by done. rewrite bind_Ok.
    set (m3 := set_tiles m2 _).
    assert (Hp3 : tile_of (tiles m3) p = set_flames F t2).
    { unfold m3. cbn [tiles set_tiles]. by rewrite tile_of_update, decide_True. }
    assert (Hq3 : ∀ q, tile_is_withing_map q = true → q ≠ p →
                       tile_of (tiles m3) q = tile_of (tiles m2) q).
    { intros q Hq Hne. unfold m3. cbn [tiles set_tiles].
      by rewrite tile_of_update, decide_False. }
    destruct (IH (S i) m3)
      as (m' & Hrun & Hg' & Hn' & Hnd' & Hsub' & Hq' & Hsb' & Htbd' & Hit' & Hmono' & Hnoexp' & _).
    { unfold m3. cbn [tiles set_tiles]. by rewrite grid_update_ok. }
    { done. }
    { rewrite Hp3. cbn. rewrite Hco2. exact Hco. }
    { done. }
    { rewrite Hp3. cbn [flames set_flames]. change (bombs m3) with (bombs m2).
      rewrite Hb1 in Hlen2. fold t in Hfuel. lia. }
    assert (HF1 : ∀ q, tile_is_withing_map q = true → q ≠ p →
                       (flame_count (tiles m) q ≤ flame_count (tiles m') q)%nat).
    { intros q Hq Hne. etrans; [|by apply Hmono'].
      unfold flame_count at 2. rewrite Hq3 by done.
      etrans; [|by apply Hmono2]. unfold flame_count. by rewrite Hq1. }
    assert (HF2 : bombs_on_tile m p = [] ∨ (length (flames t) ≤ i)%nat →
                  (∀ q, tile_is_withing_map q = true → q ≠ p →
                        tile_of (tiles m') q = tile_of (tiles m) q)
                  ∧ bombs m' = bombs m ∧ bomb_heap m' = bomb_heap m).
    { intros [Hno|Hexit]; [|lia].
      assert (Hno1 : bombs_on_tile m1 p = []) by (rewrite <-Hno, Hm1; done).
      rewrite Hno1 in Hrun2. cbn [explode_all] in Hrun2. injection Hrun2 as Hm2.
      assert (Hno3 : bombs_on_tile m3 p = []) by (rewrite <-Hno1, Hm2; done).
      destruct (Hnoexp' (or_introl Hno3)) as (Hq'' & Hb'' & Hh'').
      split; [|split].
      - intros q Hq Hne. rewrite Hq'', Hq3 by done. rewrite <-Hm2. by apply Hq1.
      - rewrite Hb''. change (bombs m3) with (bombs m2). by rewrite <-Hm2.
      - rewrite Hh''. change (bomb_heap m3) with (bomb_heap m2). rewrite <-Hm2, Hm1. done. }
    exists m'. split; [done|]. split; [done|].
    split. { rewrite Hn'. change (number_of_blocks m3) with (number_of_blocks m2). congruence. }
    split; [done|].
    split. { etrans; [exact Hsub'|]. change (bombs m3) with (bombs m2). by rewrite <-Hb1. }
    split. { intros q Hq Hne. rewrite Hq', Hq3, Hs2, Hq1 by done. done. }
    split. { rewrite Hsb', Hp3. trans (strip_burn t2); [by destruct t2|].
             rewrite Hsb2. by destruct t. }
    rewrite Htbd', Hit', Hp3.
    cbn [to_be_destroyed item kind flames set_flames set_item set_to_be_destroyed] in *.
    rewrite Htbd2, Hit2, Hk2.
    split; [|split; [|split; [exact HF1|split; [exact HF2|intros; lia]]]].
    + destruct (to_be_destroyed t), (bool_decide (kind t = TILE_BLOCK)); done.
    + destruct (bool_decide (kind t = TILE_FLOOR)); [|done].
      by destruct (S i <? length F)%nat.
Qed.

Lemma has_flames_length t : (0 <? length (flames t))%nat = has_flames t.
Proof. unfold has_flames. by destruct (flames t). Qed.

Lemma tile_has_flame_within m p :
  grid_ok (tiles m) = true → tile_is_withing_map p = true →
  tile_has_flame m p = Ok (has_flames (tile_of (tiles m) p)).
Proof.
  intros Hg Hp. unfold tile_has_flame, has_flames. rewrite Hp. cbn [negb].
  rewrite get_tile_within by done. rewrite bind_Ok. f_equal.
  destruct (flames _) as [|f l]; [done|]. cbn [length].
  rewrite bool_decide_eq_false_2 by done. cbn [negb]. apply Z.leb_le. lia.
Qed.

(** X9. One tile of the tile pass of [GameMap.update], on a well-formed map.
    The pass returns without an exception.  A Block tile that is marked
    [to_be_destroyed] and has no flame left becomes Floor, loses the mark,
    and the block counter goes down by exactly 1; in every other case the
    kind and the counter stay as they are.  A tile with a flame is marked
    when it is a Block and loses its item when it is Floor.  No other tile
    changes anything but its flames, and no bomb is added. *)
Theorem update_tile_spec (m : GameMap) (dt : Z) (p : Position) :
  grid_ok (tiles m) = true → tile_is_withing_map p = true →
  coordinates (tile_of (tiles m) p) = p → NoDup (bombs m) →
  let t := tile_of (tiles m) p in
  ∃ m', update_tile dt p m = Ok m'
    ∧ grid_ok (tiles m') = true
    ∧ NoDup (bombs m') ∧ bombs m' `sublist_of` bombs m
    ∧ number_of_blocks m' = number_of_blocks m - (if block_burnt_out t then 1 else 0)
    ∧ kind (tile_of (tiles m') p) = (if block_burnt_out t then TILE_FLOOR else kind t)
    ∧ to_be_destroyed (tile_of (tiles m') p)
      = (if block_burnt_out t then false
         else to_be_destroyed t || (bool_decide (kind t = TILE_BLOCK) && has_flames t))
    ∧ item (tile_of (tiles m') p)
      = (if bool_decide (kind t = TILE_FLOOR) && has_flames t then None else item t)
    ∧ special_object (tile_of (tiles m') p) = special_object t
    ∧ ∀ q, tile_is_withing_map q = true → q ≠ p →
           strip (tile_of (tiles m') q) = strip (tile_of (tiles m) q).
Proof.
  intros Hg Hp Hco Hnd t. unfold update_tile.
  rewrite get_tile_within by done. rewrite bind_Ok. fold t. fold t in Hco.
  destruct (block_burnt_out t) eqn:Hburnt.
  - (* the block has burnt out *)
    unfold block_burnt_out in Hburnt.
    apply andb_true_iff in Hburnt as [[Htbd Hk]%andb_true_iff Hfl].
    apply bool_decide_eq_true in Hfl. rewrite Htbd, Hk. cbn [andb].
    rewrite Hco, tile_has_flame_within by done. rewrite bind_Ok. fold t.
    unfold has_flames at 1. rewrite (bool_decide_eq_true_2 _ Hfl). cbn [negb].
    rewrite alter_tile_within by done. rewrite !bind_Ok.
    set (m1 := set_number_of_blocks _ _).
    assert (Hp1 : tile_of (tiles m1) p = set_to_be_destroyed false (set_kind TILE_FLOOR t)).
    { unfold m1. cbn [tiles set_tiles set_number_of_blocks].
      by rewrite tile_of_update, decide_True. }
    assert (Hg1 : grid_ok (tiles m1) = true).
    { unfold m1. cbn [tiles set_tiles set_number_of_blocks]. by rewrite grid_update_ok. }
    rewrite get_tile_within by done. rewrite bind_Ok.
    destruct (update_flames_loop_spec dt p
                (length (flames (tile_of (tiles m1) p)) + length (bombs m1)) 0 m1)
      as (m' & Hrun & Hg' & Hn' & Hnd' & Hsub' & Hq' & Hsb' & Htbd' & Hit' & _);
      [done|done|by rewrite Hp1|done|lia|].
    exists m'. split; [done|]. split; [done|]. split; [done|]. split; [done|].
    split. { rewrite Hn'. done. }
    rewrite Htbd', Hit', Hp1.
    apply (f_equal kind) in Hsb' as Hk'. apply (f_equal special_object) in Hsb' as Hso'.
    rewrite Hp1 in Hk', Hso'. cbn in Hk', Hso'.
    apply bool_decide_eq_true in Hk.
    cbn [to_be_destroyed item kind flames set_kind set_to_be_destroyed].
    rewrite Hfl. cbn [length Nat.ltb Nat.leb]. rewrite !andb_false_r.
    split; [done|]. split; [done|].
    split; [by rewrite bool_decide_eq_false_2 by congruence|]. split; [done|].
    intros q Hq Hne. rewrite Hq' by done. unfold m1.
    cbn [tiles set_tiles set_number_of_blocks]. by rewrite tile_of_update, decide_False.
  - (* nothing to convert *)
    assert (Hskip :
      (if to_be_destroyed t && bool_decide (kind t = TILE_BLOCK)
       then tile_has_flame m (coordinates t)
            ≫= (λ has_flame : bool,
                  if negb has_flame
                  then alter_tile (λ t0, set_to_be_destroyed false (set_kind TILE_FLOOR t0)) m p
                       ≫= (λ m0, Ok (set_number_of_blocks m0 (number_of_blocks m0 - 1)))
                  else Ok m)
       else Ok m) = Ok m).
    { destruct (to_be_destroyed t && bool_decide (kind t = TILE_BLOCK)) eqn:Hc; [|done].
      rewrite Hco, tile_has_flame_within by done. rewrite bind_Ok. fold t.
      unfold block_burnt_out in Hburnt. rewrite Hc in Hburnt. cbn [andb] in Hburnt.
      unfold has_flames. rewrite Hburnt. done. }
    rewrite Hskip, bind_Ok. rewrite get_tile_within by done. rewrite bind_Ok.
    destruct (update_flames_loop_spec dt p
                (length (flames (tile_of (tiles m) p)) + length (bombs m)) 0 m)
      as (m' & Hrun & Hg' & Hn' & Hnd' & Hsub' & Hq' & Hsb' & Htbd' & Hit' & _);
      [done|done|done|done|lia|].
    exists m'. split; [done|]. split; [done|]. split; [done|]. split; [done|].
    split. { rewrite Hn'. lia. }
    fold t in Htbd', Hit', Hsb'. rewrite has_flames_length in Htbd', Hit'.
    apply (f_equal kind) in Hsb' as Hk'. apply (f_equal special_object) in Hsb' as Hso'.
    cbn in Hk', Hso'. done.
Qed.

Lemma update_tile_spec_witness :
  ∃ m', update_tile 16 (mkPosition 2 1) burnt_block_map = Ok m'
        ∧ kind (tile_of (tiles m') (mkPosition 2 1)) = TILE_FLOOR
        ∧ number_of_blocks m' = 1.
Proof.
  destruct (update_tile_spec burnt_block_map 16 (mkPosition 2 1))
    as (m' & Hrun & _ & _ & _ & Hn & Hk & _);
    [vm_compute; reflexivity | vm_compute; reflexivity | vm_compute; reflexivity
    | apply NoDup_nil_2 |].
  exists m'. split; [exact Hrun|]. vm_compute in Hn. vm_compute in Hk.
  split; [exact Hk | exact Hn].
Defined.

(** ** The claims about the explosion *)

Lemma ray_within_between bp d i j :
  tile_is_withing_map bp = true → tile_is_withing_map (ray_tile bp d j) = true →
  0 <= i <= j → tile_is_withing_map (ray_tile bp d i) = true.
Proof.
  rewrite !within_bounds. unfold ray_tile, position_add, position_mul_int.
  destruct d; cbn; lia.
Qed.

(** C2. Exploding a bomb with flame length [N] puts the flames of the walk
    described in the specification, and no others: the flames that
    [bomb_explodes] adds to a tile are the occurrences of the tile in
    [flame_footprint].  Spelled out: the bomb's own tile gains one flame; the
    tile [j] steps away in a direction gains one flame when [j <= N], it is
    inside the map and no Wall and all tiles before it are Floor tiles inside
    the map (so a Block gets a flame); it gains none when it is further than
    [N], or is a Wall, or has a tile before it that is not Floor or not
    inside the map (the walk has stopped); tiles off the four axes gain
    none.  On an open floor map every in-map tile within [N] steps on an
    axis gains exactly one flame. *)
Theorem bomb_explodes_footprint (m : GameMap) (b : nat) :
  grid_ok (tiles m) = true →
  tile_is_withing_map (bomb_tile_position (bomb_at m b)) = true →
  let bp := bomb_tile_position (bomb_at m b) in
  let N := bomb_flame_length (bomb_at m b) in
  let k := kind_at (tiles m) in
  ∃ m',
    bomb_explodes m b = Ok m'
    ∧ (∀ p, tile_is_withing_map p = true →
         flame_count (tiles m') p
         = (flame_count (tiles m) p
            + occurrences p (flame_footprint k bp (Z.to_nat N)))%nat)
    ∧ flame_count (tiles m') bp = S (flame_count (tiles m) bp)
    ∧ (∀ d j, 1 <= j <= N → tile_is_withing_map (ray_tile bp d j) = true →
         k (ray_tile bp d j) ≠ TILE_WALL →
         (∀ i, 1 <= i < j → tile_is_withing_map (ray_tile bp d i) = true
                            ∧ k (ray_tile bp d i) = TILE_FLOOR) →
         flame_count (tiles m') (ray_tile bp d j) = S (flame_count (tiles m) (ray_tile bp d j)))
    ∧ (∀ d j, 1 <= j → tile_is_withing_map (ray_tile bp d j) = true →
         (N < j ∨ k (ray_tile bp d j) = TILE_WALL
          ∨ ∃ i, 1 <= i < j ∧ (tile_is_withing_map (ray_tile bp d i) = false
                               ∨ k (ray_tile bp d i) ≠ TILE_FLOOR)) →
         flame_count (tiles m') (ray_tile bp d j) = flame_count (tiles m) (ray_tile bp d j))
    ∧ (∀ p, tile_is_withing_map p = true → p ≠ bp →
         (∀ d j, 1 <= j → p ≠ ray_tile bp d j) →
         flame_count (tiles m') p = flame_count (tiles m) p)
    ∧ ((∀ q, tile_is_withing_map q = true → k q = TILE_FLOOR) →
       ∀ d j, 1 <= j <= N → tile_is_withing_map (ray_tile bp d j) = true →
         flame_count (tiles m') (ray_tile bp d j) = S (flame_count (tiles m) (ray_tile bp d j))).
Proof.
  intros Hg Hbp bp N k.
  destruct (bomb_explodes_spec m b Hg Hbp) as (m1 & -> & _ & Hc).
  fold bp N k in Hc.
  eexists. split; [done|]. cbn [tiles set_bombs]. rewrite explodes_tiles.
  assert (Hreach : ∀ d j, 1 <= j <= N → tile_is_withing_map (ray_tile bp d j) = true →
            k (ray_tile bp d j) ≠ TILE_WALL →
            (∀ i, 1 <= i < j → tile_is_withing_map (ray_tile bp d i) = true
                               ∧ k (ray_tile bp d i) = TILE_FLOOR) →
            flame_count (tiles m1) (ray_tile bp d j)
            = S (flame_count (tiles m) (ray_tile bp d j))).
  { intros d j Hj Hw Hnw Hbefore. rewrite Hc by done.
    rewrite (proj1 (proj2 (occurrences_footprint k bp (Z.to_nat N) (ray_tile bp d j)))); [lia|].
    exists d, j. split; [lia|]. done. }
  split; [done|].
  split. { rewrite Hc by done. rewrite (proj1 (occurrences_footprint k bp _ bp)) by done. lia. }
  split; [done|].
  split.
  { intros d j Hj Hw Hstop. rewrite Hc by done.
    rewrite (proj2 (proj2 (occurrences_footprint k bp (Z.to_nat N) (ray_tile bp d j)))); [lia| |].
    - apply ray_tile_not_origin. lia.
    - intros d' (j' & Hj' & Hq & _ & Hnw & Hbefore).
      apply ray_tile_inj in Hq as [<- <-]; [|lia|lia].
      destruct Hstop as [Hfar|[Hwall|(i & Hi & Hblocked)]]; [lia|done|].
      destruct (Hbefore i Hi) as [Hwi Hki]. destruct Hblocked; congruence. }
  split.
  { intros p Hp Hne Hoff. rewrite Hc by done.
    rewrite (proj2 (proj2 (occurrences_footprint k bp (Z.to_nat N) p))); [lia|done|].
    intros d' (j' & Hj' & Hq & _). apply (Hoff d' j'); [lia|done]. }
  intros Hopen d j Hj Hw. apply Hreach; [done|done| |].
  - rewrite Hopen by done. discriminate.
  - intros i Hi.
    assert (tile_is_withing_map (ray_tile bp d i) = true)
      by (apply (ray_within_between bp d i j); [done|done|lia]).
    split; [done|]. by apply Hopen.
Qed.

Lemma bomb_explodes_footprint_witness :
  ∃ m', bomb_explodes (sample_map [bomb_on 5 3] sample_players) 0 = Ok m'
        ∧ flame_count (tiles m') (mkPosition 5 3) = 1%nat
        ∧ flame_count (tiles m') (mkPosition 6 3) = 1%nat
        ∧ flame_count (tiles m') (mkPosition 7 3) = 0%nat.
Proof.
  destruct (bomb_explodes_footprint (sample_map [bomb_on 5 3] sample_players) 0)
    as (m' & Hrun & Hc & _); [vm_compute; reflexivity ..|].
  exists m'. split; [exact Hrun|].
  rewrite !Hc by (vm_compute; reflexivity).
  vm_compute. repeat split; reflexivity.
Defined.

(** ** The claim about the landing of a flying bomb *)

(** C4. Where the code leaves the claim.  A flying bomb that has travelled
    its full distance and is over a walkable tile lands there - it becomes
    stationary and the item of the tile is destroyed - also when a player
    stands on the tile or the tile has a teleport: the test of the source is
    [not (walkable or has_player or has_teleport)], so a player or a
    teleport never makes the bomb fly on. *)
Theorem flying_bomb_lands_on_occupied_tile (m : GameMap) (b : nat) (dt : Z) :
  grid_ok (tiles m) = true →
  tile_is_withing_map (bomb_tile_position (bomb_at m b)) = true →
  (b < length (bomb_heap m))%nat →
  let bomb := bomb_at m b in
  let tile := bomb_tile_position bomb in
  Qle_bool (inject_Z (total_distance_to_travel (flight_info bomb)))
           (distance_travelled (flight_info bomb) + distance_in dt FLYING_SPEED) = true →
  tile_is_walkable m tile = Ok true →
  0 < tile_has_player m tile ∨ tile_has_teleport m tile = Ok true →
  ∃ m',
    update_flying_bomb m b dt = Ok m'
    ∧ movement (bomb_at m' b) = BOMB_NO_MOVEMENT
    ∧ bomb_position (bomb_at m' b) = bomb_position bomb
    ∧ item (tile_of (tiles m') tile) = None.
Proof.
  intros Hg Hw Hb. cbv zeta. intros Harr Hwk _. unfold update_flying_bomb.
  set (bomb := bomb_at m b) in *. set (tile := bomb_tile_position bomb) in *.
  set (m1 := update_bomb m b _).
  assert (Hat1 : bomb_at m1 b
    = set_flight_info
        (set_distance_travelled
           (distance_travelled (flight_info bomb) + distance_in dt FLYING_SPEED)%Q
           (flight_info bomb)) bomb).
  { unfold m1. by rewrite bomb_at_update_bomb, decide_True. }
  rewrite Hat1.
  replace (flight_info (set_flight_info _ bomb))
    with (set_distance_travelled
            (distance_travelled (flight_info bomb) + distance_in dt FLYING_SPEED)%Q
            (flight_info bomb)) by (by destruct bomb).
  cbn [total_distance_to_travel distance_travelled set_distance_travelled].
  rewrite Harr.
  replace (bomb_tile_position (set_flight_info _ bomb)) with tile by (by destruct bomb).
  unfold keeps_flying.
  assert (Hwalk1 : tile_is_walkable m1 tile = tile_is_walkable m tile)
    by (unfold m1; apply tile_is_walkable_update_bomb; by intros []).
  rewrite Hwalk1, Hwk, !bind_Ok.
  unfold get_tile_at. rewrite Hw, get_tile_within by done.
  rewrite bind_Ok, alter_tile_within by done.
  eexists. split; [done|]. cbn [tiles set_tiles].
  rewrite tile_of_update, decide_True by done.
  change (bomb_at (set_tiles ?x ?t) b) with (bomb_at x b).
  rewrite bomb_at_update_bomb, decide_True by (by unfold m1; cbn; rewrite length_alter).
  rewrite Hat1. split; [by destruct bomb|]. split; [by destruct bomb|done].
Qed.

Lemma flying_bomb_lands_on_occupied_tile_witness :
  ∃ m', update_flying_bomb
          (sample_map [send_flying (bomb_on 2 4) (mkPosition 3 4)] sample_players) 0 1000
        = Ok m'
        ∧ tile_has_player
            (sample_map [send_flying (bomb_on 2 4) (mkPosition 3 4)] sample_players)
            (mkPosition 3 4) = 1
        ∧ movement (bomb_at m' 0) = BOMB_NO_MOVEMENT.
Proof.
  destruct (flying_bomb_lands_on_occupied_tile
              (sample_map [send_flying (bomb_on 2 4) (mkPosition 3 4)] sample_players) 0 1000)
    as (m' & Hrun & Hmv & _);
    [vm_compute; reflexivity | vm_compute; reflexivity | cbn; lia
    | vm_compute; reflexivity | vm_compute; reflexivity | left; vm_compute; reflexivity |].
  exists m'. split; [exact Hrun|]. split; [vm_compute; reflexivity|exact Hmv].
Defined.

(** ** The claim about the fuse *)

(** [__update_bombs] returns, and a listed bomb that had not exploded has
    the outcome that its two tests give. *)
Lemma update_bombs_bomb_outcome m dt b0 :
  grid_ok (tiles m) = true → NoDup (bombs m) → bombs_in_map m = true →
  bomb_refs_ok m = true →
  b0 ∈ bombs m → has_exploded (bomb_at m b0) = false →
  ∃ m', update_bombs m dt = Ok m' ∧ bomb_outcome dt m b0 m'.
Proof.
  intros Hg Hnd Hin Hrefs Hb0 Hfresh. unfold update_bombs.
  destruct (update_bombs_loop_inv dt (update_bombs_inv_for dt m b0)) with
    (fuel := length (bombs m)) (i := 0%nat) (m := m)
    as (m' & i' & Hrun & (_ & Hout) & Hend).
  - intros i m1 b HP Hb. by apply update_bombs_body_inv_for.
  - split; [by apply update_bombs_inv_start|]. left. split; [|done].
    apply list_elem_of_lookup in Hb0 as [j Hj]. exists j. split; [lia|done].
  - lia.
  - exists m'. split; [done|].
    destruct Hout as [[(j & Hj & Hlook) _]|[_ Hout]]; [|done].
    apply lookup_lt_Some in Hlook. lia.
Qed.

(** C3, as amended.  A bomb that is not flying, has the default fuse of
    3000 ms and no detonator, and is not near the centre of a lava tile: after
    a bomb update that brings its [time_of_existence] to at most 3000 it has
    not exploded (it is still listed, with its age grown by [dt] and its fuse
    data as before); after the bomb update that brings it strictly above
    3000 it has exploded.  Near the centre of a lava tile it explodes in the
    bomb update whatever its age. *)
Theorem default_fuse_is_strict (m : GameMap) (dt : Z) (b0 : nat) :
  grid_ok (tiles m) = true → NoDup (bombs m) → bombs_in_map m = true →
  bomb_refs_ok m = true →
  b0 ∈ bombs m → has_exploded (bomb_at m b0) = false →
  movement (bomb_at m b0) ≠ BOMB_FLYING →
  explodes_in (bomb_at m b0) = BOMB_EXPLODES_IN →
  detonator_time (bomb_at m b0) = 0 →
  ∃ m',
    update_bombs m dt = Ok m'
    ∧ (burns_on_lava (tiles m) (bomb_at m b0) = true →
       has_exploded (bomb_at m' b0) = true ∧ b0 ∉ bombs m')
    ∧ (burns_on_lava (tiles m) (bomb_at m b0) = false →
       (time_of_existence (bomb_at m b0) + dt <= 3000 →
        has_exploded (bomb_at m' b0) = false ∧ b0 ∈ bombs m'
        ∧ time_of_existence (bomb_at m' b0) = time_of_existence (bomb_at m b0) + dt
        ∧ explodes_in (bomb_at m' b0) = 3000
        ∧ detonator_time (bomb_at m' b0) = 0)
       ∧ (time_of_existence (bomb_at m b0) + dt > 3000 →
          has_exploded (bomb_at m' b0) = true ∧ b0 ∉ bombs m')).
Proof.
  intros Hg Hnd Hin Hrefs Hb0 Hfresh Hmv Hfuse Hdet.
  destruct (update_bombs_bomb_outcome m dt b0 Hg Hnd Hin Hrefs Hb0 Hfresh)
    as (m' & Hrun & Hex & Hmem & Hstrip).
  exists m'. split; [done|].
  assert (Hup : fuse_is_up dt (bomb_at m b0)
                = (time_of_existence (bomb_at m b0) + dt >? 3000)).
  { unfold fuse_is_up. rewrite bool_decide_eq_true_2 by done.
    rewrite Hfuse, Hdet. unfold BOMB_EXPLODES_IN. cbn [andb]. by rewrite Z.add_0_r. }
  rewrite Hup in Hex, Hmem, Hstrip. split.
  - intros Hlava. rewrite Hlava, orb_true_r in Hex, Hmem. split; [done|].
    intros Hin'. apply Hmem in Hin'. done.
  - intros Hlava. rewrite Hlava, orb_false_r in Hex, Hmem, Hstrip. split.
    + intros Hle. assert (Hno : (time_of_existence (bomb_at m b0) + dt >? 3000) = false)
        by (rewrite Z.gtb_ltb; apply Z.ltb_ge; lia).
      rewrite Hno in Hex. split; [done|]. split; [by apply Hmem|].
      specialize (Hstrip Hno).
      split; [|split].
      * apply (f_equal time_of_existence) in Hstrip. by destruct (bomb_at m b0).
      * apply (f_equal explodes_in) in Hstrip. cbn in Hstrip. rewrite Hstrip. exact Hfuse.
      * apply (f_equal detonator_time) in Hstrip. cbn in Hstrip. rewrite Hstrip. exact Hdet.
    + intros Hgt. assert (Hyes : (time_of_existence (bomb_at m b0) + dt >? 3000) = true)
        by (rewrite Z.gtb_ltb; apply Z.ltb_lt; lia).
      rewrite Hyes in Hex, Hmem. split; [done|].
      intros Hin'. apply Hmem in Hin'. done.
Qed.

Lemma default_fuse_is_strict_witness :
  ∃ m' m'',
    update_bombs (sample_map [set_time_of_existence 2984 (bomb_on 3 2)] sample_players) 16
    = Ok m'
    ∧ has_exploded (bomb_at m' 0) = false
    ∧ update_bombs (sample_map [set_time_of_existence 2985 (bomb_on 3 2)] sample_players) 16
      = Ok m''
    ∧ has_exploded (bomb_at m'' 0) = true.
Proof.
  destruct (default_fuse_is_strict
              (sample_map [set_time_of_existence 2984 (bomb_on 3 2)] sample_players) 16 0)
    as (m' & Hrun' & _ & Hfuse');
    [vm_compute; reflexivity | apply (bool_decide_unpack _); vm_compute; exact I
    | vm_compute; reflexivity | vm_compute; reflexivity
    | apply (bool_decide_unpack _); vm_compute; exact I | vm_compute; reflexivity
    | vm_compute; discriminate | vm_compute; reflexivity | vm_compute; reflexivity |].
  destruct (default_fuse_is_strict
              (sample_map [set_time_of_existence 2985 (bomb_on 3 2)] sample_players) 16 0)
    as (m'' & Hrun'' & _ & Hfuse'');
    [vm_compute; reflexivity | apply (bool_decide_unpack _); vm_compute; exact I
    | vm_compute; reflexivity | vm_compute; reflexivity
    | apply (bool_decide_unpack _); vm_compute; exact I | vm_compute; reflexivity
    | vm_compute; discriminate | vm_compute; reflexivity | vm_compute; reflexivity |].
  exists m', m''. split; [exact Hrun'|].
  split. { apply Hfuse'; [vm_compute; reflexivity | vm_compute; discriminate]. }
  split; [exact Hrun''|].
  apply Hfuse''; [vm_compute; reflexivity | vm_compute; reflexivity].
Defined.

(** C3, the claim as stated fails: a stationary bomb with the default fuse
    and no detonator, laid 0 ms ago at the centre of the lava tile (10, 3),
    has exploded after the first bomb update although its
    [time_of_existence] is 16, far below 3000. *)
Lemma stationary_bomb_on_lava_explodes_early :
  movement (bomb_on 10 3) = BOMB_NO_MOVEMENT
  ∧ explodes_in (bomb_on 10 3) = 3000 ∧ detonator_time (bomb_on 10 3) = 0
  ∧ time_of_existence (bomb_on 10 3) + 16 <= 3000
  ∧ ∃ m', update_bombs (sample_map [bomb_on 10 3] sample_players) 16 = Ok m'
          ∧ has_exploded (bomb_at m' 0) = true
          ∧ bombs m' = [].
Proof.
  split; [reflexivity|]. split; [reflexivity|]. split; [reflexivity|].
  split; [vm_compute; discriminate|].
  eexists. split; [vm_compute; reflexivity|]. split; vm_compute; reflexivity.
Qed.

(** ** The claim about the bomb allowance *)





(** ** The tile pass as a whole *)







Lemma bombs_on_tile_frame m m' q :
  bombs m' = bombs m → bomb_heap m' = bomb_heap m →
  bombs_on_tile m' q = bombs_on_tile m q.
Proof. intros Hb Hh. unfold bombs_on_tile, bomb_at. by rewrite Hb, Hh. Qed.










(** ** The claim about the bomb intent *)

Lemma same_allowance_refl m : same_allowance m m.
Proof. done. Qed.

Lemma same_allowance_trans m0 m1 m2 :
  same_allowance m0 m1 → same_allowance m1 m2 → same_allowance m0 m2.
Proof. intros [Hb1 Hl1] [Hb2 Hl2]. split; [congruence|]. intros pl. by rewrite Hl2, Hl1. Qed.

Lemma same_allowance_update_player m pi f :
  quiet f → same_allowance m (update_player m pi f).
Proof.
  intros Hf. split; [done|]. intros pl. rewrite player_at_update_player.
  case_decide as Hd; [|done]. destruct Hd as [<- _]. apply Hf.
Qed.

Lemma same_allowance_update_bomb m b f : same_allowance m (update_bomb m b f).
Proof. done. Qed.

Lemma input_inv_update_player K m0 pi m f :
  quiet f → (∀ p, K p → K (f p)) →
  input_inv K m0 pi m → input_inv K m0 pi (update_player m pi f).
Proof.
  intros Hf HK (Ht & Hh & Hsa & Hnum & Hk).
  split; [done|]. split; [done|].
  split. { eapply same_allowance_trans; [done|]. by apply same_allowance_update_player. }
  split.
  - intros pl. rewrite player_at_update_player. case_decide as Hd; [|done].
    destruct Hd as [<- _]. rewrite <-Hnum. apply Hf.
  - rewrite player_at_update_player. case_decide; [by apply HK|done].
Qed.

Lemma input_inv_update_player_if K m0 pi m f (c : bool) :
  quiet f → (∀ p, K p → K (f p)) →
  input_inv K m0 pi m → input_inv K m0 pi (if c then update_player m pi f else m).
Proof. intros. destruct c; [by apply input_inv_update_player|done]. Qed.

Ltac quiet_update :=
  first [ apply input_inv_update_player_if | apply input_inv_update_player ];
  [ by intros [] | by (intros [] ?; cbn in *; try done; intuition) | ].

Lemma get_opposite_action_special a :
  get_opposite_action a = ACTION_SPECIAL → a = ACTION_SPECIAL.
Proof. by destruct a. Qed.

(** One input action when the allowance is used up and the action is not
    the special action: nothing but fields of the player changes, and no
    bomb is to be put. *)
Lemma manage_input_action_no_allowance m0 pi d it m loc :
  bombs_left (player_at m0 pi) < 1 →
  (pa_player it = number (player_at m0 pi) → pa_action it ≠ ACTION_SPECIAL) →
  input_inv no_bomb_intent m0 pi m →
  ∃ m' loc', manage_input_action pi d it (m, loc) = Ok (m', loc')
             ∧ input_inv no_bomb_intent m0 pi m'.
Proof.
  intros Hleft Hspecial Hinv. unfold manage_input_action.
  destruct (decide (pa_player it ≠ number (player_at m pi))) as [|Hown]; [by eexists _, _|].
  assert (Hn : number (player_at m pi) = number (player_at m0 pi)) by apply Hinv.
  assert (Hl : bombs_left (player_at m pi) = bombs_left (player_at m0 pi)) by apply Hinv.
  assert (Hno : (bombs_left (player_at m pi) >=? 1) = false).
  { rewrite Hl, Z.geb_leb. apply Z.leb_gt. lia. }
  assert (Hact : (if decide (disease (player_at m pi) = DISEASE_REVERSE_CONTROLS)
                  then get_opposite_action (pa_action it) else pa_action it)
                 ≠ ACTION_SPECIAL).
  { assert (pa_action it ≠ ACTION_SPECIAL).
    { apply Hspecial. rewrite <-Hn. by destruct (decide (pa_player it = number (player_at m pi))). }
    case_decide; [|done]. by intros ?%get_opposite_action_special. }
  destruct (if decide (disease (player_at m pi) = DISEASE_REVERSE_CONTROLS)
            then get_opposite_action (pa_action it) else pa_action it) eqn:Ha;
    try done; cbn.
  all: destruct (moved loc); cbn; try rewrite Hno; cbn;
    try rewrite andb_false_r; cbn;
    eexists _, _; (split; [reflexivity|]); try done; repeat quiet_update; try done.
  all: rewrite decide_True by done;
    destruct (has_throwing_glove (player_at m pi)); repeat quiet_update; done.
Qed.

Lemma input_inv_gentle K m0 pi m f :
  respects K → gentle f →
  input_inv K m0 pi m → input_inv K m0 pi (update_player m pi f).
Proof.
  intros HK Hf. apply input_inv_update_player.
  - intros p. destruct (Hf p) as (? & ? & _). done.
  - intros p Hp. destruct (Hf p) as (_ & _ & ? & ? & ? & ?). by apply (HK p).
Qed.

Lemma input_inv_gentle_if K m0 pi m f (c : bool) :
  respects K → gentle f →
  input_inv K m0 pi m → input_inv K m0 pi (if c then update_player m pi f else m).
Proof. intros. destruct c; [by apply input_inv_gentle|done]. Qed.

Lemma respects_no_bomb_intent : respects no_bomb_intent.
Proof. intros p p' _ Hb _ _. unfold no_bomb_intent. congruence. Qed.

Lemma respects_stands_still c : respects (stands_still c).
Proof.
  intros p p' Hpos Hb Hm Ht (? & ? & ? & ?). unfold stands_still.
  repeat split; congruence.
Qed.

Ltac gentle_update :=
  first [ apply input_inv_gentle_if | apply input_inv_gentle ];
  [ done | by intros [] | ].

Lemma tile_has_bomb_frame m0 m p :
  bombs m = bombs m0 → bomb_heap m = bomb_heap m0 →
  tile_has_bomb m p = tile_has_bomb m0 p.
Proof.
  intros Hb Hh. unfold tile_has_bomb, bomb_on_tile.
  by rewrite (bombs_on_tile_frame m0 m p Hb Hh).
Qed.

(** The inputs when the allowance is used up. *)
Lemma manage_input_actions_no_allowance m0 pi d inputs m :
  bombs_left (player_at m0 pi) < 1 →
  ACTION_SPECIAL ∉ own_actions (number (player_at m0 pi)) inputs →
  input_inv no_bomb_intent m0 pi m →
  ∃ m', manage_input_actions m pi inputs d = Ok m'
        ∧ input_inv no_bomb_intent m0 pi m'.
Proof.
  intros Hleft Hspecial Hinv. unfold manage_input_actions.
  destruct (for_each_inv (manage_input_action pi d)
              (λ s, input_inv no_bomb_intent m0 pi s.1) inputs)
    with (s := (m, mkInputLocals false false false false))
    as ([m1 loc1] & -> & Hinv1); [|done|].
  - intros it [m2 loc2] Hit Hinv2. cbn [fst] in Hinv2.
    destruct (manage_input_action_no_allowance m0 pi d it m2 loc2 Hleft) as (m3 & loc3 & -> & H3);
      [|done|by eexists].
    intros Hown Hact. apply Hspecial. unfold own_actions.
    apply list_elem_of_fmap. exists it. split; [done|].
    by apply list_elem_of_filter.
  - rewrite bind_Ok. cbn [fst] in Hinv1. eexists. split; [done|].
    pose proof respects_no_bomb_intent. do 2 gentle_update. done.
Qed.

(** One input action of a player who stands still on a bomb and raises
    nothing but the bomb action. *)
Lemma manage_input_action_on_bomb m0 pi d it m loc c :
  tile_has_bomb m0 (position_to_tile c) = true →
  (pa_player it = number (player_at m0 pi) →
   pa_action it = ACTION_BOMB ∨ pa_action it = ACTION_MENU) →
  input_inv (stands_still c) m0 pi m →
  ∃ m' loc', manage_input_action pi d it (m, loc) = Ok (m', loc')
             ∧ input_inv (stands_still c) m0 pi m'.
Proof.
  intros Hbomb Hacts Hinv. unfold manage_input_action.
  destruct (decide (pa_player it ≠ number (player_at m pi))) as [|Hown]; [by eexists _, _|].
  assert (Hn : number (player_at m pi) = number (player_at m0 pi)) by apply Hinv.
  assert (Htb : tile_has_bomb m (position_to_tile (player_position (player_at m pi))) = true).
  { destruct Hinv as (_ & Hh & [Hb _] & _ & (_ & _ & _ & ->)).
    by rewrite (tile_has_bomb_frame m0 m). }
  assert (Hact : pa_action it = ACTION_BOMB ∨ pa_action it = ACTION_MENU).
  { apply Hacts. rewrite <-Hn. by destruct (decide (pa_player it = number (player_at m pi))). }
  assert (Heff : (if decide (disease (player_at m pi) = DISEASE_REVERSE_CONTROLS)
                  then get_opposite_action (pa_action it) else pa_action it)
                 = pa_action it).
  { case_decide; [|done]. by destruct Hact as [-> | ->]. }
  rewrite Heff. destruct Hact as [-> | ->]; destruct (moved loc); cbn;
    rewrite ?Htb; cbn; rewrite ?andb_false_r; cbn; by eexists _, _.
Qed.

Lemma manage_input_actions_on_bomb m0 pi d inputs m c :
  tile_has_bomb m0 (position_to_tile c) = true →
  (∀ a, a ∈ own_actions (number (player_at m0 pi)) inputs →
        a = ACTION_BOMB ∨ a = ACTION_MENU) →
  input_inv (stands_still c) m0 pi m →
  ∃ m', manage_input_actions m pi inputs d = Ok m'
        ∧ input_inv (stands_still c) m0 pi m'.
Proof.
  intros Hbomb Hacts Hinv. unfold manage_input_actions.
  destruct (for_each_inv (manage_input_action pi d)
              (λ s, input_inv (stands_still c) m0 pi s.1) inputs)
    with (s := (m, mkInputLocals false false false false))
    as ([m1 loc1] & -> & Hinv1); [|done|].
  - intros it [m2 loc2] Hit Hinv2. cbn [fst] in Hinv2.
    destruct (manage_input_action_on_bomb m0 pi d it m2 loc2 c Hbomb) as (m3 & loc3 & -> & H3);
      [|done|by eexists].
    intros Hown. apply Hacts. unfold own_actions.
    apply list_elem_of_fmap. exists it. split; [done|].
    by apply list_elem_of_filter.
  - rewrite bind_Ok. cbn [fst] in Hinv1. eexists. split; [done|].
    pose proof (respects_stands_still c). do 2 gentle_update. done.
Qed.

Lemma input_inv_refl (K : Player → Prop) m pi : K (player_at m pi) → input_inv K m pi m.
Proof. intros HK. by repeat split. Qed.

Lemma input_inv_establish (K K' : Player → Prop) m0 pi m f :
  quiet f → (∀ p, K p → K' (f p)) → (pi < length (players m))%nat →
  input_inv K m0 pi m → input_inv K' m0 pi (update_player m pi f).
Proof.
  intros Hf HK Hpi (Ht & Hh & Hsa & Hnum & Hk).
  split; [done|]. split; [done|].
  split. { eapply same_allowance_trans; [done|]. by apply same_allowance_update_player. }
  split.
  - intros pl. rewrite player_at_update_player. case_decide as Hd; [|done].
    destruct Hd as [<- _]. rewrite <-Hnum. apply Hf.
  - rewrite player_at_update_player, decide_True by done. by apply HK.
Qed.

Lemma input_inv_allowance K m0 pi m : input_inv K m0 pi m → same_allowance m0 m.
Proof. by intros (_ & _ & ? & _). Qed.

(** The stages of [react_to_inputs] before the inputs. *)
Lemma react_air_inv K m pi dt :
  respects K → K (player_at m pi) →
  ∃ m1 go_on, react_air m pi dt = (m1, go_on)
              ∧ input_inv K m pi m1
              ∧ length (players m1) = length (players m).
Proof.
  intros HK Hk. unfold react_air. pose proof (input_inv_refl K m pi Hk) as Hinv.
  case_bool_decide; [|by eexists _, _].
  destruct (_ >=? _); eexists _, _; (split; [done|]); split;
    try (by cbn; rewrite ?length_alter); repeat gentle_update; done.
Qed.

Lemma react_reset_no_intent (K : Player → Prop) m0 pi dt m :
  (pi < length (players m))%nat →
  input_inv K m0 pi m → input_inv no_bomb_intent m0 pi (react_reset m pi dt).
Proof.
  intros Hpi. unfold react_reset. apply input_inv_establish; [by intros []|by intros []|done].
Qed.

Lemma react_reset_stands_still c m0 pi dt m :
  (pi < length (players m))%nat →
  input_inv (λ p, player_position p = c) m0 pi m →
  input_inv (stands_still c) m0 pi (react_reset m pi dt).
Proof.
  intros Hpi. unfold react_reset. apply input_inv_establish; [by intros []| |done].
  intros [] Hp. cbn in *. by repeat split.
Qed.

(** The stages after the inputs. *)
Lemma get_position_collision_type_ok m position :
  grid_ok (tiles m) = true → ∃ c, get_position_collision_type m position = Ok c.
Proof.
  intros Hg. unfold get_position_collision_type.
  destruct (tile_is_walkable_ok m (position_to_tile position) Hg) as (w & -> & _).
  rewrite bind_Ok. destruct w; cbn [negb]; [|by eexists].
  assert (Hwalk : ∀ q, ∃ w, tile_is_walkable m q = Ok w).
  { intros q. destruct (tile_is_walkable_ok m q Hg) as (w & ? & _). by exists w. }
  destruct (Qltb (frac (co_row position)) WALL_MARGIN_HORIZONTAL).
  - destruct (Hwalk (mkPosition (pos_col (position_to_tile position))
                                (pos_row (position_to_tile position) - 1))) as [w ->].
    rewrite !bind_Ok. destruct w; cbn [negb]; [|by eexists].
    destruct (Qltb (frac (co_col position)) WALL_MARGIN_VERTICAL).
    + destruct (Hwalk (mkPosition (pos_col (position_to_tile position) - 1)
                                  (pos_row (position_to_tile position)))) as [w ->].
      rewrite bind_Ok. by eexists.
    + destruct (Qltb (1 - WALL_MARGIN_VERTICAL) (frac (co_col position))); [|by eexists].
      destruct (Hwalk (mkPosition (pos_col (position_to_tile position) + 1)
                                  (pos_row (position_to_tile position)))) as [w ->].
      rewrite bind_Ok. by eexists.
  - destruct (Qltb (1 - WALL_MARGIN_HORIZONTAL) (frac (co_row position))).
    + destruct (Hwalk (mkPosition (pos_col (position_to_tile position))
                                  (pos_row (position_to_tile position) + 1))) as [w ->].
      rewrite !bind_Ok. destruct w; cbn [negb]; [|by eexists].
      destruct (Qltb (frac (co_col position)) WALL_MARGIN_VERTICAL).
      * destruct (Hwalk (mkPosition (pos_col (position_to_tile position) - 1)
                                    (pos_row (position_to_tile position)))) as [w ->].
        rewrite bind_Ok. by eexists.
      * destruct (Qltb (1 - WALL_MARGIN_VERTICAL) (frac (co_col position))); [|by eexists].
        destruct (Hwalk (mkPosition (pos_col (position_to_tile position) + 1)
                                    (pos_row (position_to_tile position)))) as [w ->].
        rewrite bind_Ok. by eexists.
    + rewrite bind_Ok.
      destruct (Qltb (frac (co_col position)) WALL_MARGIN_VERTICAL).
      * destruct (Hwalk (mkPosition (pos_col (position_to_tile position) - 1)
                                    (pos_row (position_to_tile position)))) as [w ->].
        rewrite bind_Ok. by eexists.
      * destruct (Qltb (1 - WALL_MARGIN_VERTICAL) (frac (co_col position))); [|by eexists].
        destruct (Hwalk (mkPosition (pos_col (position_to_tile position) + 1)
                                    (pos_row (position_to_tile position)))) as [w ->].
        rewrite bind_Ok. by eexists.
Qed.

Lemma resolve_collisions_no_intent m0 pi d previous_position m :
  grid_ok (tiles m0) = true →
  input_inv no_bomb_intent m0 pi m →
  ∃ m' c, resolve_collisions m pi d previous_position = Ok (m', c)
          ∧ input_inv no_bomb_intent m0 pi m'.
Proof.
  intros Hg Hinv. unfold resolve_collisions.
  destruct (get_position_collision_type_ok m (player_position (player_at m pi)))
    as [c ->]; [by destruct Hinv as [-> _]|].
  rewrite bind_Ok.
  destruct c; repeat case_decide; eexists _, _; (split; [done|]);
    try done; quiet_update; done.
Qed.

Lemma react_collisions_no_intent m0 pi d previous_position current_tile m :
  grid_ok (tiles m0) = true →
  input_inv no_bomb_intent m0 pi m →
  ∃ m' c, react_collisions m pi d previous_position current_tile = Ok (m', c)
          ∧ input_inv no_bomb_intent m0 pi m'.
Proof.
  intros Hg Hinv. unfold react_collisions.
  set (m1 := if negb _ then update_player m pi (set_wait_for_tile_transition false) else m).
  assert (Hinv1 : input_inv no_bomb_intent m0 pi m1).
  { unfold m1. pose proof respects_no_bomb_intent. gentle_update. done. }
  destruct (negb (tile_has_bomb m1 current_tile && _)); [|by eexists _, _].
  by apply resolve_collisions_no_intent.
Qed.

Lemma position_eqb_refl p : position_eqb p p = true.
Proof. unfold position_eqb. by rewrite !Z.eqb_refl. Qed.

Lemma react_collisions_on_bomb m0 pi d c m :
  tile_has_bomb m0 (position_to_tile c) = true →
  input_inv (stands_still c) m0 pi m →
  react_collisions m pi d c (position_to_tile c) = Ok (m, false).
Proof.
  intros Hbomb (_ & Hh & [Hb _] & _). unfold react_collisions.
  rewrite position_eqb_refl. cbn [negb].
  by rewrite (tile_has_bomb_frame m0 m), Hbomb.
Qed.

Lemma react_lay_no_intent m pi : putting_bomb (player_at m pi) = false → react_lay m pi = Ok m.
Proof. intros Hp. unfold react_lay. by rewrite Hp. Qed.

Lemma manage_kick_box_allowance m pi c :
  same_allowance m (manage_kick_box m pi c)
  ∧ players (manage_kick_box m pi c) = players m.
Proof.
  unfold manage_kick_box. destruct c; [|done].
  destruct (_ && _); [|done]. destruct (bomb_on_tile _ _); [|done].
  destruct (boxing _); [done|]. by destruct (has_shoe _).
Qed.

Lemma react_throw_allowance m pi current_tile :
  putting_multibomb (player_at m pi) = false ∨ bombs_left (player_at m pi) < 1 →
  ∃ m', react_throw m pi current_tile = Ok m' ∧ same_allowance m m'.
Proof.
  intros Hcase. unfold react_throw. destruct (throwing (player_at m pi)).
  - destruct (bomb_on_tile m current_tile); [|by eexists].
    eexists. split; [done|].
    eapply same_allowance_trans; [apply same_allowance_update_bomb|].
    apply same_allowance_update_player. by intros [].
  - destruct (putting_multibomb (player_at m pi)) eqn:Hm; [|by eexists].
    destruct Hcase as [|Hleft]; [done|].
    replace (Z.to_nat (bombs_left (player_at m pi))) with 0%nat by lia.
    by eexists.
Qed.

Lemma react_disease_allowance m pi dt : same_allowance m (react_disease m pi dt).
Proof.
  unfold react_disease. case_decide; [|done]. destruct (_ =? 0).
  - eapply same_allowance_trans; apply same_allowance_update_player; by intros [].
  - apply same_allowance_update_player. by intros [].
Qed.

Lemma react_state_time_allowance m pi dt old_state :
  same_allowance m (react_state_time m pi dt old_state).
Proof.
  unfold react_state_time. apply same_allowance_update_player.
  intros p. case_decide; by destruct p.
Qed.

(** The stages after the collision check, for a player who is not to put a
    bomb and either raises no multibomb or has no allowance. *)
Lemma react_epilogue_allowance m pi dt old_state collision_happened current_tile :
  putting_bomb (player_at m pi) = false →
  putting_multibomb (player_at m pi) = false ∨ bombs_left (player_at m pi) < 1 →
  ∃ m1 m2,
    react_lay m pi = Ok m
    ∧ react_throw (manage_kick_box m pi collision_happened) pi current_tile = Ok m1
    ∧ m2 = react_state_time (react_disease m1 pi dt) pi dt old_state
    ∧ same_allowance m m2.
Proof.
  intros Hput Hcase.
  destruct (manage_kick_box_allowance m pi collision_happened) as [Hk Hpl].
  destruct (react_throw_allowance (manage_kick_box m pi collision_happened) pi current_tile)
    as (m1 & Hrun & Hthrow).
  { unfold player_at in *. by rewrite Hpl. }
  eexists m1, _. split; [by apply react_lay_no_intent|]. split; [done|]. split; [done|].
  eapply same_allowance_trans; [exact Hk|].
  eapply same_allowance_trans; [exact Hthrow|].
  eapply same_allowance_trans; [apply react_disease_allowance|].
  apply react_state_time_allowance.
Qed.

Lemma own_actions_app n l1 l2 :
  own_actions n (l1 ++ l2) = own_actions n l1 ++ own_actions n l2.
Proof. unfold own_actions. by rewrite filter_app, fmap_app. Qed.

Lemma own_actions_diarrhea n n' l a :
  a ∈ own_actions n (l ++ [mkPlayerActions n' ACTION_BOMB]) →
  a ∈ own_actions n l ∨ a = ACTION_BOMB.
Proof.
  rewrite own_actions_app, elem_of_app. intros [?|Hin]; [by left|right].
  unfold own_actions in Hin. rewrite filter_cons in Hin.
  case_decide; cbn in Hin; [|by apply elem_of_nil in Hin].
  by apply list_elem_of_singleton in Hin.
Qed.

(** C7, as amended.  A tick of [react_to_inputs] adds no bomb to the list
    of live bombs and leaves every player's [bombs_left] as it is, whatever
    bomb actions the player raises, in two cases: the player has no
    allowance left ([bombs_left < 1]) and raises no special action (which
    could detonate a bomb and so give the allowance back); or the player
    stands on a tile that holds a bomb and raises nothing but bomb (or menu)
    actions, so that the player neither leaves the tile nor lays a
    multibomb. *)
Theorem bomb_intent_without_effect (m : GameMap) (pi : nat)
    (input_actions : list PlayerActions) (dt : Z) :
  grid_ok (tiles m) = true → (pi < length (players m))%nat →
  let self := player_at m pi in
  let own := own_actions (number self) input_actions in
  (bombs_left self < 1 ∧ ACTION_SPECIAL ∉ own)
  ∨ (tile_has_bomb m (player_tile_position self) = true
     ∧ ∀ a, a ∈ own → a = ACTION_BOMB ∨ a = ACTION_MENU) →
  ∃ m' inputs',
    react_to_inputs m pi input_actions dt = Ok (m', inputs')
    ∧ bombs m' = bombs m
    ∧ ∀ pl, bombs_left (player_at m' pl) = bombs_left (player_at m pl).
Proof.
  intros Hg Hpi. cbv zeta. intros Hcase.
  enough (∃ m' inputs', react_to_inputs m pi input_actions dt = Ok (m', inputs')
                        ∧ same_allowance m m') as (m' & inputs' & Hrun & Hsame)
    by (exists m', inputs'; split; [done|]; exact Hsame).
  unfold react_to_inputs.
  destruct (_ || _); [by eexists _, _|].
  destruct Hcase as [[Hleft Hspecial]|[Hbomb Hacts]].
  - (* no allowance *)
    destruct (react_air_inv (λ _, True) m pi dt) as (m1 & go_on & -> & Hinv1 & Hlen1);
      [done|done|].
    destruct go_on; cbn [negb]; [|eexists _, _; split; [done|]; by eapply input_inv_allowance].
    assert (Hinvr : input_inv no_bomb_intent m pi (react_reset m1 pi dt))
      by (eapply react_reset_no_intent; [lia|done]).
    match goal with
    | |- context [manage_input_actions ?a ?b ?c ?d] =>
        destruct (manage_input_actions_no_allowance m pi d c a) as (m2 & -> & Hinv2);
          [done| |done|]
    end.
    { case_decide; [|done]. intros [?|?]%own_actions_diarrhea; done. }
    rewrite bind_Ok.
    match goal with
    | |- context [react_collisions ?a ?b ?c ?d ?e] =>
        destruct (react_collisions_no_intent m pi c d e a Hg Hinv2) as (m3 & col & -> & Hinv3)
    end.
    rewrite bind_Ok.
    assert (Hsame3 := input_inv_allowance _ _ _ _ Hinv3).
    match goal with
    | |- context [react_throw (manage_kick_box _ _ _) _ ?t] =>
        match goal with
        | |- context [react_state_time _ _ _ ?o] =>
            destruct (react_epilogue_allowance m3 pi dt o col t)
              as (m4 & m5 & Hlay & Hthrow & -> & Hsame5)
        end
    end.
    { apply Hinv3. }
    { right. destruct Hsame3 as [_ ->]. done. }
    rewrite Hlay, bind_Ok, Hthrow, bind_Ok. eexists _, _. split; [done|].
    by eapply same_allowance_trans.
  - (* standing on a bomb *)
    set (c := player_position (player_at m pi)) in *.
    destruct (react_air_inv (λ p, player_position p = c) m pi dt)
      as (m1 & go_on & -> & Hinv1 & Hlen1); [by intros p p' -> _ _ _|done|].
    destruct go_on; cbn [negb]; [|eexists _, _; split; [done|]; by eapply input_inv_allowance].
    assert (Hpos1 : player_position (player_at m1 pi) = c) by apply Hinv1.
    rewrite Hpos1.
    assert (Hinvr : input_inv (stands_still c) m pi (react_reset m1 pi dt))
      by (eapply react_reset_stands_still; [lia|done]).
    match goal with
    | |- context [manage_input_actions ?a ?b ?c0 ?d] =>
        destruct (manage_input_actions_on_bomb m pi d c0 a c) as (m2 & -> & Hinv2);
          [done| |done|]
    end.
    { intros a. case_decide; [|by apply Hacts].
      intros [?|?]%own_actions_diarrhea; [by apply Hacts|by left]. }
    rewrite bind_Ok.
    assert (Hpos2 : player_tile_position (player_at m2 pi) = position_to_tile c).
    { unfold player_tile_position. destruct Hinv2 as (_ & _ & _ & _ & (_ & _ & _ & ->)). done. }
    rewrite Hpos2, (react_collisions_on_bomb m pi _ c m2 Hbomb Hinv2), bind_Ok.
    assert (Hsame2 := input_inv_allowance _ _ _ _ Hinv2).
    match goal with
    | |- context [react_state_time _ _ _ ?o] =>
        destruct (react_epilogue_allowance m2 pi dt o false (position_to_tile c))
          as (m4 & m5 & Hlay & Hthrow & -> & Hsame5)
    end.
    { apply Hinv2. }
    { left. apply Hinv2. }
    rewrite Hlay, bind_Ok, Hthrow, bind_Ok. eexists _, _. split; [done|].
    by eapply same_allowance_trans.
Qed.

Lemma bomb_intent_without_effect_witness :
  ∃ m' inputs',
    react_to_inputs (sample_map [bomb_on 3 4] sample_players) 0
      [mkPlayerActions 0 ACTION_BOMB] 16 = Ok (m', inputs')
    ∧ bombs m' = [0%nat]
    ∧ bombs_left (player_at m' 0) = 1.
Proof.
  destruct (bomb_intent_without_effect (sample_map [bomb_on 3 4] sample_players) 0
              [mkPlayerActions 0 ACTION_BOMB] 16)
    as (m' & inputs' & Hrun & Hbombs & Hleft).
  - vm_compute. reflexivity.
  - cbn. lia.
  - right. split; [vm_compute; reflexivity|].
    intros a Ha. vm_compute in Ha. apply list_elem_of_singleton in Ha. by left.
  - exists m', inputs'. split; [exact Hrun|]. split; [exact Hbombs|].
    rewrite (Hleft 0%nat). vm_compute. reflexivity.
Defined.

(** C7, the claim as stated fails: player 0 has the multibomb item and an
    allowance of two bombs and stands on tile (3, 4), which holds a bomb;
    in one tick the player raises the bomb action and the double-bomb
    action.  The tile holds a bomb, yet two bombs are added to the list of
    live bombs and [bombs_left] goes from 2 to 0. *)
Lemma multibomb_on_bomb_lays_bombs :
  tile_has_bomb (sample_map [bomb_on 3 4] [multibomb_player])
    (player_tile_position (player_at (sample_map [bomb_on 3 4] [multibomb_player]) 0)) = true
  ∧ bombs (sample_map [bomb_on 3 4] [multibomb_player]) = [0%nat]
  ∧ bombs_left (player_at (sample_map [bomb_on 3 4] [multibomb_player]) 0) = 2
  ∧ ∃ m' inputs',
      react_to_inputs (sample_map [bomb_on 3 4] [multibomb_player]) 0
        [mkPlayerActions 0 ACTION_BOMB; mkPlayerActions 0 ACTION_BOMB_DOUBLE] 16
      = Ok (m', inputs')
      ∧ bombs m' = [0%nat; 1%nat; 2%nat]
      ∧ bombs_left (player_at m' 0) = 0.
Proof.
  split; [vm_compute; reflexivity|]. split; [vm_compute; reflexivity|].
  split; [vm_compute; reflexivity|].
  eexists _, _. split; [vm_compute; reflexivity|]. split; vm_compute; reflexivity.
Qed.

(** Why the amended claim excludes the special action: a player without
    allowance who detonates the bomb at (8, 2) gets the allowance back in
    the same tick, and the bomb action that follows lays a new bomb (the
    reference 1) although [bombs_left] was 0 when the tick began. *)
Lemma detonator_gives_allowance_back :
  bombs_left
    (player_at (sample_map [set_detonator_time DETONATOR_EXPIRATION_TIME (bomb_on 8 2)]
                  [detonator_player]) 0) = 0
  ∧ ∃ m' inputs',
      react_to_inputs
        (sample_map [set_detonator_time DETONATOR_EXPIRATION_TIME (bomb_on 8 2)]
           [detonator_player]) 0
        [mkPlayerActions 0 ACTION_SPECIAL; mkPlayerActions 0 ACTION_BOMB] 16
      = Ok (m', inputs')
      ∧ bombs m' = [1%nat].
Proof.
  split; [vm_compute; reflexivity|].
  eexists _, _. split; [vm_compute; reflexivity|]. vm_compute. reflexivity.
Qed.
